(** * PII-detection fine-tuning notebook: a shallow embedding

    The development follows the cells of
    [notebooks/pii_detection/pii_detection_training_example.ipynb]:
    label extraction from the cudf data frame, the two subword tokenizer
    wrappers, the 80/20 split, the optimizer parameter groups, the training
    loop with its per-epoch loss report, and the evaluation cell.

    Python numbers are modelled as they are at run time: [int] as [Z],
    [float] as an IEEE-754 binary64 value ([spec_float] with precision 53),
    tensors of the model as binary32 values.  Calls that raise are modelled
    in an error monad.  Calls into cudf, torch, transformers and
    scikit-learn whose code is not part of the notebook are either section
    variables (the network, its loss, the word-piece encoder) or small
    definitions written from their contract, each marked as such. *)

From Stdlib Require Import ZArith String Ascii Bool Lia Permutation PeanoNat List.
From Stdlib Require Import Floats.SpecFloat.
Import ListNotations.

Local Open Scope Z_scope.

(** ** Python exceptions and the error monad *)

Inductive exn : Set :=
| ValueError
| KeyError
| IndexError
| TypeError
| ZeroDivisionError
| OverflowError
| AssertionError.

Inductive result (A : Type) : Type :=
| Ok (a : A)
| Raise (e : exn).

Arguments Ok {A} a.
Arguments Raise {A} e.

Definition bind {A B : Type} (c : result A) (k : A -> result B) : result B :=
  match c with
  | Ok a => k a
  | Raise e => Raise e
  end.

Notation "x <- c ;; k" := (bind c (fun x => k))
  (at level 61, c at next level, right associativity).
Notation "' p <- c ;; k" := (bind c (fun p => k))
  (at level 61, p pattern, c at next level, right associativity).

Fixpoint mapM {A B : Type} (f : A -> result B) (l : list A) : result (list B) :=
  match l with
  | [] => Ok []
  | a :: t => b <- f a ;; bs <- mapM f t ;; Ok (b :: bs)
  end.

(** ** IEEE-754 arithmetic: binary64 for Python floats, binary32 for tensors *)

Module F64.

Definition prec : Z := 53.
Definition emax : Z := 1024.
Definition float : Set := spec_float.

(** Correctly rounded conversion of an integer mantissa and exponent. *)
Definition normalize (m e : Z) : float := binary_normalize prec emax m e false.
Definition of_Z (n : Z) : float := normalize n 0.

Definition add : float -> float -> float := SFadd prec emax.
Definition mul : float -> float -> float := SFmul prec emax.
Definition div : float -> float -> float := SFdiv prec emax.
Definition ltb : float -> float -> bool := SFltb.

(** Truncation toward zero, defined on finite values only. *)
Definition truncate (f : float) : option Z :=
  match f with
  | S754_zero _ => Some 0
  | S754_finite s m e => Some (cond_Zopp s (Z.shiftl (Zpos m) e))
  | S754_infinity _ | S754_nan => None
  end.

Definition is_zero (f : float) : bool :=
  match f with
  | S754_zero _ => true
  | _ => false
  end.

(** The literals of the notebook, as the nearest binary64 value. *)
Definition lit_0_8 : float := S754_finite false 7205759403792794 (-53).
Definition lit_0_5 : float := S754_finite false 4503599627370496 (-53).
Definition lit_0_01 : float := S754_finite false 5764607523034235 (-59).
Definition lit_0_0 : float := S754_zero false.

End F64.

Module F32.

Definition prec : Z := 24.
Definition emax : Z := 128.
Definition float : Set := spec_float.

(** Rounding a binary64 value to binary32 (a Python scalar meeting a
    float32 array) and the exact widening back (what [.item()] does). *)
Definition of_F64 (x : F64.float) : float :=
  match x with
  | S754_finite s m e => binary_normalize prec emax (cond_Zopp s (Zpos m)) e s
  | _ => x
  end.

Definition to_F64 (x : float) : F64.float :=
  match x with
  | S754_finite s m e => binary_normalize F64.prec F64.emax (cond_Zopp s (Zpos m)) e s
  | _ => x
  end.

Definition ltb : float -> float -> bool := SFltb.

End F32.

(** The record that [shr] reaches after [n] one-bit shifts of the exact
    mantissa [m0]: the quotient, the last bit shifted out, and whether
    any earlier bit was set. *)
Definition shr_state (m0 : Z) (n : nat) : shr_record :=
  match n with
  | O => Build_shr_record m0 false false
  | S k => Build_shr_record (m0 / 2 ^ Z.of_nat n)
             (Z.testbit m0 (Z.of_nat k))
             (negb (m0 mod 2 ^ Z.of_nat k =? 0))
  end.

(** ** Python numbers: [int] and [float] with the mixed-mode rules *)

Inductive pynum : Set :=
| PyInt (z : Z)
| PyFloat (f : F64.float).

(** [float(x)]: an [int] too large for a double raises [OverflowError]. *)
Definition py_float (x : pynum) : result F64.float :=
  match x with
  | PyFloat f => Ok f
  | PyInt z =>
      match F64.of_Z z with
      | S754_infinity _ => Raise OverflowError
      | f => Ok f
      end
  end.

Definition py_add (a b : pynum) : result pynum :=
  match a, b with
  | PyInt x, PyInt y => Ok (PyInt (x + y))
  | _, _ => fa <- py_float a ;; fb <- py_float b ;; Ok (PyFloat (F64.add fa fb))
  end.

Definition py_mul (a b : pynum) : result pynum :=
  match a, b with
  | PyInt x, PyInt y => Ok (PyInt (x * y))
  | _, _ => fa <- py_float a ;; fb <- py_float b ;; Ok (PyFloat (F64.mul fa fb))
  end.

Definition py_is_zero (x : pynum) : bool :=
  match x with
  | PyInt z => z =? 0
  | PyFloat f => F64.is_zero f
  end.

(** An [int] as an exact, not yet rounded, binary value. *)
Definition exact_of_Z (z : Z) : F64.float :=
  match z with
  | Z0 => S754_zero false
  | Zpos p => S754_finite false p 0
  | Zneg p => S754_finite true p 0
  end.

(** [a / b]: true division; a zero divisor raises whatever the operand
    types, and [int / int] rounds the exact quotient once. *)
Definition py_truediv (a b : pynum) : result F64.float :=
  if py_is_zero b then Raise ZeroDivisionError
  else
    match a, b with
    | PyInt x, PyInt y =>
        match F64.div (exact_of_Z x) (exact_of_Z y) with
        | S754_infinity _ => Raise OverflowError
        | f => Ok f
        end
    | _, _ => fa <- py_float a ;; fb <- py_float b ;; Ok (F64.div fa fb)
    end.

(** [int(x)]: truncation toward zero. *)
Definition py_int (x : pynum) : result Z :=
  match x with
  | PyInt z => Ok z
  | PyFloat f =>
      match F64.truncate f with
      | Some z => Ok z
      | None => match f with S754_nan => Raise ValueError | _ => Raise OverflowError end
      end
  end.

(** Python slicing [l[a:b]] with negative bounds counted from the end. *)
Definition clamp_index (n : nat) (i : Z) : nat :=
  if i <? 0 then Z.to_nat (Z.max 0 (i + Z.of_nat n))
  else Nat.min (Z.to_nat i) n.

Definition py_slice {A : Type} (l : list A) (a b : Z) : list A :=
  let lo := clamp_index (length l) a in
  let hi := clamp_index (length l) b in
  firstn (hi - lo) (skipn lo l).

(** ** The sample-data cell *)

Definition PII_SAMPLE_CSV : string := "pii_training_sample.csv".
Definition S3_BASE_PATH : string := "rapidsai-data/cyber/pii".

Section Download.

(** The local file system with [os.path.exists], and
    [S3FileSystem(anon=True).get(rpath, lpath)], which can fail. *)
Variable Files : Type.
Variable path_exists : string -> Files -> bool.
Variable fs_get : string -> string -> Files -> result Files.

(** [if not path.exists(PII_SAMPLE_CSV): fs.get(S3_BASE_PATH + "/" + PII_SAMPLE_CSV, PII_SAMPLE_CSV)] *)
Definition download_sample_data (files : Files) : result Files :=
  if negb (path_exists PII_SAMPLE_CSV files)
  then fs_get (S3_BASE_PATH ++ "/" ++ PII_SAMPLE_CSV) PII_SAMPLE_CSV files
  else Ok files.

End Download.

(** ** Tensors and the cudf data frame *)

(** A two-dimensional array, row by row; its first dimension is the number
    of rows it holds.  [Tensor Z] stands for an integer array ([torch.long],
    cupy unsigned ids), [Tensor F64.float] and [Tensor F32.float] for
    float64 and float32 ones. *)
Record Tensor (A : Type) : Type := mkTensor {
  ncols : nat;
  rows : list (list A)
}.

Arguments mkTensor {A} ncols rows.
Arguments ncols {A} t.
Arguments rows {A} t.

Definition shape {A : Type} (t : Tensor A) : nat * nat := (length (rows t), ncols t).

Definition tensor_wf {A : Type} (t : Tensor A) : Prop :=
  Forall (fun r => length r = ncols t) (rows t).

Definition tensor_map {A B : Type} (f : A -> B) (t : Tensor A) : Tensor B :=
  mkTensor (ncols t) (map (map f) (rows t)).

(** A column of a frame: strings or integers. *)
Inductive column : Type :=
| StrCol (vals : list string)
| IntCol (vals : list Z).

Definition col_len (c : column) : nat :=
  match c with
  | StrCol v => length v
  | IntCol v => length v
  end.

(** A frame: its number of rows and an ordered mapping from column names
    to columns. *)
Record DataFrame : Type := mkDataFrame {
  df_len : nat;
  df_cols : list (string * column)
}.

Definition df_columns (df : DataFrame) : list string := map fst (df_cols df).

Fixpoint assoc_get (name : string) (cols : list (string * column)) : result column :=
  match cols with
  | [] => Raise KeyError
  | (n, c) :: t => if String.eqb name n then Ok c else assoc_get name t
  end.

(** [df[name]] and [df[names]]: the named columns, in the order of [names]. *)
Definition df_get (name : string) (df : DataFrame) : result column :=
  assoc_get name (df_cols df).

Definition df_select (names : list string) (df : DataFrame) : result DataFrame :=
  cols <- mapM (fun n => c <- df_get n df ;; Ok (n, c)) names ;;
  Ok (mkDataFrame (df_len df) cols).

Fixpoint names_unique (l : list string) : bool :=
  match l with
  | [] => true
  | x :: t => negb (existsb (String.eqb x) t) && names_unique t
  end.

(** What [cudf.read_csv] guarantees of the frame it returns: distinct
    column names and columns of one common length. *)
Definition df_wf (df : DataFrame) : bool :=
  names_unique (df_columns df) &&
  forallb (fun nc => Nat.eqb (col_len (snd nc)) (df_len df)) (df_cols df).

(** The sample table of the data model: a well-formed frame with a string
    column [text] and integer columns otherwise. *)
Definition is_text (name : string) : bool := String.eqb name "text".

Definition sample_table (df : DataFrame) : bool :=
  df_wf df &&
  existsb is_text (df_columns df) &&
  forallb (fun nc => match snd nc with
                     | StrCol _ => is_text (fst nc)
                     | IntCol _ => negb (is_text (fst nc))
                     end)
          (df_cols df).

(** The columns that label extraction keeps, with their contents. *)
Definition label_columns (df : DataFrame) : list (string * column) :=
  filter (fun nc => negb (is_text (fst nc))) (df_cols df).

Definition column_values (c : column) : list Z :=
  match c with
  | IntCol v => v
  | StrCol _ => []
  end.

(** [list.remove(x)]: drops the first occurrence, raises when there is none. *)
Fixpoint list_remove (x : string) (l : list string) : result (list string) :=
  match l with
  | [] => Raise ValueError
  | y :: t => if String.eqb y x then Ok t else t' <- list_remove x t ;; Ok (y :: t')
  end.

Definition int_column (c : column) : result (list Z) :=
  match c with
  | IntCol v => Ok v
  | StrCol _ => Raise TypeError
  end.

(** Modelled from the spec: the dlpack interchange
    [from_dlpack(df.to_dlpack())] is cudf and torch code outside the
    notebook.  Per the data model it yields the numeric array of shape
    (num_samples, num_labels) whose entry (i, j) is row i of column j;
    a string column cannot be exported. *)
Definition from_dlpack_to_dlpack (df : DataFrame) : result (Tensor Z) :=
  cols <- mapM (fun nc => int_column (snd nc)) (df_cols df) ;;
  Ok (mkTensor (length cols)
        (map (fun i => map (fun c => nth i c 0) cols) (seq 0 (df_len df)))).

(** [.type(torch.long)] on an integer tensor keeps every entry. *)
Definition type_long_of_int (t : Tensor Z) : Tensor Z := tensor_map (fun z => z) t.

(** First cells: [label_names = list(df.columns); label_names.remove('text')]
    and [labels = from_dlpack(df[label_names].to_dlpack()).type(torch.long)]. *)
Definition label_names (df : DataFrame) : result (list string) :=
  list_remove "text" (df_columns df).

Definition labels (df : DataFrame) : result (Tensor Z) :=
  names <- label_names df ;;
  sub <- df_select names df ;;
  t <- from_dlpack_to_dlpack sub ;;
  Ok (type_long_of_int t).

(** [df.text] as the strings handed to the tokenizer. *)
Definition text_strings (df : DataFrame) : result (list string) :=
  c <- df_get "text" df ;;
  match c with
  | StrCol v => Ok v
  | IntCol _ => Raise TypeError
  end.

(** ** The subword tokenizer wrappers *)

(** [array.reshape(n, m)] of a flat array: the element count must match. *)
Fixpoint split_rows {A : Type} (n m : nat) (flat : list A) : list (list A) :=
  match n with
  | O => []
  | S k => firstn m flat :: split_rows k m (skipn m flat)
  end.

Definition reshape {A : Type} (flat : list A) (n m : nat) : result (Tensor A) :=
  if Nat.eqb (length flat) (n * m) then Ok (mkTensor m (split_rows n m flat))
  else Raise ValueError.

(** [.astype(cupy.float)]: every id becomes a float64. *)
Definition astype_float (t : Tensor Z) : Tensor F64.float := tensor_map F64.of_Z t.

(** [.type(torch.long)] on a float64 tensor: truncation toward zero; a
    value outside the 64-bit range, an infinity or a NaN gives the smallest
    64-bit integer. *)
Definition long_of_float (f : F64.float) : Z :=
  match F64.truncate f with
  | Some z => if (- 2 ^ 63 <=? z) && (z <? 2 ^ 63) then z else - 2 ^ 63
  | None => - 2 ^ 63
  end.

Definition type_long (t : Tensor F64.float) : Tensor Z := tensor_map long_of_float t.

Section Tokenizer.

(** The word-piece encoder behind [Series.str.subword_tokenize]: the ids of
    one string under a vocabulary hash file, lower-casing first or not. *)
Variable wordpiece : string -> bool -> string -> list Z.

(** Modelled from the spec: [subword_tokenize] is cudf code outside the
    notebook.  With [do_truncate=True] every string yields one row of
    [max_length] entries: its ids cut at [max_length], then padding zeros;
    the mask marks ids with 1 and padding with 0.  Both arrays come back
    flat, followed by the metadata array. *)
Definition subword_tokenize_truncate (hash_file : string) (max_length stride : nat)
    (max_rows_tensor : nat) (do_lower : bool) (strings : list string)
    : list Z * list Z * list Z :=
  let toks := map (fun s => firstn max_length (wordpiece hash_file do_lower s)) strings in
  (flat_map (fun t => t ++ repeat 0 (max_length - length t)) toks,
   flat_map (fun t => repeat 1 (length t) ++ repeat 0 (max_length - length t)) toks,
   flat_map (fun it => [Z.of_nat (fst it); 0; Z.of_nat (length (snd it)) - 1])
            (combine (seq 0 (length toks)) toks)).

(** [from_dlpack(a.reshape(n, m).astype(cupy.float).toDlpack())] *)
Definition float_tensor (a : list Z) (n m : nat) : result (Tensor F64.float) :=
  t <- reshape a n m ;;
  Ok (astype_float t).

Definition bert_cased_tokenizer (strings : list string) (seq_length : nat)
    : result (Tensor Z * Tensor Z) :=
  let num_strings := length strings in
  let '(token_ids, mask, _) :=
    subword_tokenize_truncate "resources/bert-base-cased-hash.txt" seq_length seq_length
      num_strings false strings in
  input_ids <- float_tensor token_ids num_strings seq_length ;;
  attention_mask <- float_tensor mask num_strings seq_length ;;
  Ok (type_long input_ids, type_long attention_mask).

Definition bert_uncased_tokenizer (strings : list string) (seq_length : nat)
    : result (Tensor Z * Tensor Z) :=
  let num_strings := length strings in
  let '(token_ids, mask, _) :=
    subword_tokenize_truncate "resources/bert-base-uncased-hash.txt" seq_length seq_length
      num_strings true strings in
  input_ids <- float_tensor token_ids num_strings seq_length ;;
  attention_mask <- float_tensor mask num_strings seq_length ;;
  Ok (type_long input_ids, type_long attention_mask).

(** [TOKENIZER = bert_uncased_tokenizer] *)
Definition TOKENIZER := bert_uncased_tokenizer.

End Tokenizer.

(** ** Data set, split and loaders *)

(** One item of the [TensorDataset]: a row of ids, of the mask, of the labels. *)
Definition sample : Type := list Z * list Z * list Z.

(** [TensorDataset(input_ids, attention_masks, labels)]: the tensors must
    agree on their first dimension. *)
Definition TensorDataset (input_ids attention_masks labels : Tensor Z)
    : result (list sample) :=
  if Nat.eqb (length (rows input_ids)) (length (rows attention_masks)) &&
     Nat.eqb (length (rows input_ids)) (length (rows labels))
  then Ok (combine (combine (rows input_ids) (rows attention_masks)) (rows labels))
  else Raise AssertionError.

(** [Subset(dataset, indices)] *)
Record Subset (A : Type) : Type := mkSubset {
  sub_dataset : list A;
  sub_indices : list nat
}.

Arguments mkSubset {A} sub_dataset sub_indices.
Arguments sub_dataset {A} s.
Arguments sub_indices {A} s.

Definition subset_len {A : Type} (s : Subset A) : nat := length (sub_indices s).

Definition subset_getitem {A : Type} (s : Subset A) (k : nat) : result A :=
  match nth_error (sub_indices s) k with
  | None => Raise IndexError
  | Some i =>
      match nth_error (sub_dataset s) i with
      | None => Raise IndexError
      | Some x => Ok x
      end
  end.

(** [random_split(dataset, (l1, l2))] with [indices] the permutation drawn by
    [randperm(l1 + l2)]: the lengths must add up to [len(dataset)], and the
    subsets take [indices[offset - length : offset]] at the running offsets. *)
Definition random_split {A : Type} (indices : list nat) (dataset : list A)
    (lengths : Z * Z) : result (Subset A * Subset A) :=
  let '(l1, l2) := lengths in
  if l1 + l2 =? Z.of_nat (length dataset)
  then Ok (mkSubset dataset (py_slice indices (l1 - l1) l1),
           mkSubset dataset (py_slice indices (l1 + l2 - l2) (l1 + l2)))
  else Raise ValueError.

(** [train_size = int(dataset_size * .8)] *)
Definition train_size (dataset_size : Z) : result Z :=
  x <- py_mul (PyInt dataset_size) (PyFloat F64.lit_0_8) ;;
  py_int x.

(** The split cell, from the data set to the two subsets. *)
Definition split_dataset {A : Type} (indices : list nat) (dataset : list A)
    (dataset_size : Z) : result (Subset A * Subset A) :=
  ts <- train_size dataset_size ;;
  random_split indices dataset (ts, dataset_size - ts).

(** Consecutive batches of at most [batch_size] elements. *)
Fixpoint batched_fuel {A : Type} (fuel batch_size : nat) (l : list A) : list (list A) :=
  match fuel with
  | O => []
  | S f =>
      match l with
      | [] => []
      | _ :: _ => firstn batch_size l :: batched_fuel f batch_size (skipn batch_size l)
      end
  end.

Definition batched {A : Type} (batch_size : nat) (l : list A) : list (list A) :=
  batched_fuel (length l) batch_size l.

(** [DataLoader(dataset, batch_size)] iterated once: [order] is what the
    sampler yields, a fresh permutation of [range(len(dataset))] under
    [shuffle=True] and [range(len(dataset))] itself otherwise. *)
Definition DataLoader {A : Type} (order : list nat) (batch_size : nat) (s : Subset A)
    : result (list (list A)) :=
  mapM (mapM (subset_getitem s)) (batched batch_size order).

Definition sequential_order {A : Type} (s : Subset A) : list nat :=
  seq 0 (subset_len s).

(** [RandomSampler(data_source)], the sampler that
    [DataLoader(..., shuffle=True)] builds: an empty data source is refused
    with [ValueError]; otherwise the sampler yields [order]. *)
Definition RandomSampler {A : Type} (data_source : Subset A) (order : list nat)
    : result (list nat) :=
  if Nat.eqb (subset_len data_source) 0 then Raise ValueError else Ok order.

(** [train_dataloader = DataLoader(dataset=training_dataset, shuffle=True,
    batch_size=32)], built and iterated once. *)
Definition train_dataloader (order : list nat) (training_dataset : Subset sample) :=
  sampler <- RandomSampler training_dataset order ;;
  DataLoader sampler 32 training_dataset.

Definition val_dataloader (validation_dataset : Subset sample) :=
  DataLoader (sequential_order validation_dataset) 64 validation_dataset.

(** ** Optimizer parameter groups *)

(** [nd in n] on strings: [nd] occurs somewhere in [n]. *)
Fixpoint contains (nd n : string) : bool :=
  String.prefix nd n ||
  match n with
  | EmptyString => false
  | String _ rest => contains nd rest
  end.

Definition no_decay : list string := ["bias"; "gamma"; "beta"]%string.

(** [any(nd in n for nd in no_decay)] *)
Definition any_no_decay (n : string) : bool :=
  existsb (fun nd => contains nd n) no_decay.

(** One dictionary of the list handed to [AdamW]. *)
Record param_group (P : Type) : Type := mkGroup {
  params : list P;
  weight_decay_rate : F64.float
}.

Arguments mkGroup {P} params weight_decay_rate.
Arguments params {P} p.
Arguments weight_decay_rate {P} p.

Definition optimizer_grouped_parameters {P : Type} (param_optimizer : list (string * P))
    : list (param_group P) :=
  [ mkGroup (map snd (filter (fun np => negb (any_no_decay (fst np))) param_optimizer))
      F64.lit_0_01;
    mkGroup (map snd (filter (fun np => any_no_decay (fst np)) param_optimizer))
      F64.lit_0_0 ].

(** ** The training loop *)

Fixpoint foldM {S A : Type} (f : S -> A -> result S) (l : list A) (s : S) : result S :=
  match l with
  | [] => Ok s
  | a :: t => s' <- f s a ;; foldM f t s'
  end.

(** [epochs = 4] *)
Definition epochs : nat := 4.

(** The tracking variables of one epoch. *)
Record tracking : Set := mkTracking {
  tr_loss : pynum;
  nb_tr_examples : Z;
  nb_tr_steps : Z
}.

(** A batch as the loader collates it: the three stacked tensors. *)
Definition unpack (batch : list sample) : list (list Z) * list (list Z) * list (list Z) :=
  (map (fun s => fst (fst s)) batch, map (fun s => snd (fst s)) batch, map snd batch).

(** [tensor.item()]: the value of a one-element tensor as a Python float. *)
Definition item (t : list F32.float) : result F64.float :=
  match t with
  | [x] => Ok (F32.to_F64 x)
  | _ => Raise ValueError
  end.

Section Training.

(** The network with its gradients and the optimizer state, and the torch
    and transformers calls that act on it. *)
Variable Net : Type.
Variable zero_grad : Net -> Net.
Variable forward : Net -> list (list Z) -> list (list Z) -> list (list F32.float).
Variable backward : Net -> list F32.float -> Net.
Variable optimizer_step : Net -> Net.

(** [BCEWithLogitsLoss()] applied to the logits and the labels, both viewed
    as [(-1, num_labels)]: with the default reduction it returns one value. *)
Variable loss_func : nat -> list (list F32.float) -> list (list Z) -> F32.float.

(** [tensor.mean()]: the mean of the elements, as a one-element tensor. *)
Variable tensor_mean : list F32.float -> F32.float.

(** [n_gpu = torch.cuda.device_count()] and [torch.nn.DataParallel]. *)
Variable n_gpu : Z.
Variable DataParallel : Net -> Net.
Variable num_labels : nat.

Definition wrap_model (model : Net) : Net :=
  if 1 <? n_gpu then DataParallel model else model.

(** The loss tensor that reaches [loss.backward()]. *)
Definition reduce_loss (loss : list F32.float) : list F32.float :=
  if 1 <? n_gpu then [tensor_mean loss] else loss.

(** The body of the batch loop. *)
Definition train_step (st : Net * tracking) (batch : list sample) : result (Net * tracking) :=
  let '(model, tk) := st in
  let '(b_input_ids, b_input_mask, b_labels) := unpack batch in
  let model := zero_grad model in
  let logits := forward model b_input_ids b_input_mask in
  let loss := [loss_func num_labels logits b_labels] in
  let loss := reduce_loss loss in
  let model := backward model loss in
  let model := optimizer_step model in
  v <- item loss ;;
  tr <- py_add (tr_loss tk) (PyFloat v) ;;
  Ok (model, mkTracking tr
               (nb_tr_examples tk + Z.of_nat (length b_input_ids))
               (nb_tr_steps tk + 1)).

(** One epoch: fresh tracking variables, the batch loop, and the value that
    [print("Train loss: {}".format(tr_loss/nb_tr_steps))] shows. *)
Definition train_epoch (model : Net) (batches : list (list sample)) : result (Net * F64.float) :=
  '(model', tk) <- foldM train_step batches (model, mkTracking (PyInt 0) 0 0) ;;
  report <- py_truediv (tr_loss tk) (PyInt (nb_tr_steps tk)) ;;
  Ok (model', report).

(** [for _ in trange(epochs)]: the loader is iterated afresh in every
    epoch, [orders k] being the order its sampler yields in epoch [k];
    the reports are returned in order. *)
Fixpoint train_loop_from (k todo : nat) (model : Net) (training_dataset : Subset sample)
    (orders : nat -> list nat) : result (Net * list F64.float) :=
  match todo with
  | O => Ok (model, [])
  | S todo' =>
      batches <- train_dataloader (orders k) training_dataset ;;
      '(model', report) <- train_epoch model batches ;;
      '(model'', reports) <- train_loop_from (S k) todo' model' training_dataset orders ;;
      Ok (model'', report :: reports)
  end.

Definition train_loop (model : Net) (training_dataset : Subset sample)
    (orders : nat -> list nat) : result (Net * list F64.float) :=
  train_loop_from 0 epochs model training_dataset orders.

(** The loss values [loss.item()] of the batches of one epoch, in order. *)
Fixpoint epoch_losses (model : Net) (batches : list (list sample)) : list F64.float :=
  match batches with
  | [] => []
  | batch :: rest =>
      let '(b_input_ids, b_input_mask, b_labels) := unpack batch in
      let m0 := zero_grad model in
      let loss := reduce_loss [loss_func num_labels (forward m0 b_input_ids b_input_mask) b_labels] in
      match loss with
      | [x] => F32.to_F64 x :: epoch_losses (optimizer_step (backward m0 loss)) rest
      | _ => []
      end
  end.

(** The network after the batches of one epoch. *)
Fixpoint epoch_model (model : Net) (batches : list (list sample)) : Net :=
  match batches with
  | [] => model
  | batch :: rest =>
      let '(b_input_ids, b_input_mask, b_labels) := unpack batch in
      let m0 := zero_grad model in
      let loss := reduce_loss [loss_func num_labels (forward m0 b_input_ids b_input_mask) b_labels] in
      epoch_model (optimizer_step (backward m0 loss)) rest
  end.

End Training.

(** Python's [sum(values)]: left to right, starting from the integer 0. *)
Definition py_sum (values : list F64.float) : result pynum :=
  foldM (fun acc v => py_add acc (PyFloat v)) values (PyInt 0).

(** ** Evaluation *)

(** [threshold = 0.50] *)
Definition threshold : F64.float := F64.lit_0_5.

(** [pl > threshold] on a float32 array and [tl == 1] on an integer one. *)
Definition greater_than_threshold (p : F32.float) : bool :=
  F32.ltb (F32.of_F64 threshold) p.

Definition pred_bools (pred_labels : list (list F32.float)) : list (list bool) :=
  map (map greater_than_threshold) pred_labels.

Definition true_bools (true_labels : list (list Z)) : list (list bool) :=
  map (map (fun tl => tl =? 1)) true_labels.

(** The three lists the prediction loop extends. *)
Record gathered : Set := mkGathered {
  logit_preds : list (list F32.float);
  true_labels : list (list Z);
  pred_labels : list (list F32.float)
}.

Section Evaluation.

Variable Net : Type.
Variable forward : Net -> list (list Z) -> list (list Z) -> list (list F32.float).

(** [torch.sigmoid], entry by entry. *)
Variable sigmoid : F32.float -> F32.float.

(** The body of the prediction loop, on the network in evaluation mode. *)
Definition predict_step (model : Net) (acc : gathered) (batch : list sample) : gathered :=
  let '(b_input_ids, b_input_mask, b_labels) := unpack batch in
  let b_logit_pred := forward model b_input_ids b_input_mask in
  let b_pred_label := map (map sigmoid) b_logit_pred in
  mkGathered (logit_preds acc ++ b_logit_pred)
             (true_labels acc ++ b_labels)
             (pred_labels acc ++ b_pred_label).

Definition predict (model : Net) (batches : list (list sample)) : gathered :=
  fold_left (predict_step model) batches (mkGathered [] [] []).

(** The classification head is sized to the labels: the network returns
    one row of [w] logits per sample of the batch. *)
Definition head_shape (model : Net) (w : nat) : Prop :=
  forall ids mask,
    length (forward model ids mask) = length ids /\
    Forall (fun r => length r = w) (forward model ids mask).

End Evaluation.

(** *** The scikit-learn metrics on boolean indicator matrices *)

Definition row_width {A : Type} (m : list (list A)) : nat :=
  match m with
  | [] => 0%nat
  | r :: _ => length r
  end.

(** Both arguments are indicator matrices of one shape, with at least one
    row and one column. *)
Definition indicator_input (y_true y_pred : list (list bool)) : bool :=
  Nat.ltb 0 (length y_true) && Nat.ltb 0 (row_width y_true) &&
  Nat.eqb (length y_true) (length y_pred) &&
  forallb (fun r => Nat.eqb (length r) (row_width y_true)) y_true &&
  forallb (fun r => Nat.eqb (length r) (row_width y_true)) y_pred.

(** [count_nonzero(y_true - y_pred, axis=1)] for one row. *)
Definition differing_labels (t p : list bool) : nat :=
  length (filter (fun b => b) (map (fun tp => xorb (fst tp) (snd tp)) (combine t p))).

(** Modelled from the spec: [sklearn.metrics.accuracy_score] is not part of
    the notebook.  On indicator matrices it is the subset accuracy, the
    "fraction of exactly-matching full label vectors" of the evaluator: a
    row scores when no label differs, and the scores are averaged in
    float64. *)
Definition accuracy_score (y_true y_pred : list (list bool)) : result F64.float :=
  if indicator_input y_true y_pred then
    let score := map (fun tp => Nat.eqb (differing_labels (fst tp) (snd tp)) 0)
                     (combine y_true y_pred) in
    Ok (F64.div (F64.of_Z (Z.of_nat (length (filter (fun b => b) score))))
                (F64.of_Z (Z.of_nat (length score))))
  else Raise ValueError.

(** [val_flat_accuracy = accuracy_score(true_bools, pred_bools)*100] *)
Definition val_flat_accuracy (tb pb : list (list bool)) : result F64.float :=
  acc <- accuracy_score tb pb ;;
  Ok (F64.mul acc (F64.of_Z 100)).







(** *** Exact-match and per-entry agreement of two indicator matrices *)

(** The predicted row is the ground-truth row. *)
Definition exact_match (tp : list bool * list bool) : bool :=
  if list_eq_dec Bool.bool_dec (fst tp) (snd tp) then true else false.

(** The fraction of individually correct entries, for comparison. *)
Definition entry_accuracy (y_true y_pred : list (list bool)) : F64.float :=
  let pairs := combine (concat y_true) (concat y_pred) in
  F64.div (F64.of_Z (Z.of_nat (length (filter (fun tp => Bool.eqb (fst tp) (snd tp)) pairs))))
          (F64.of_Z (Z.of_nat (length pairs))).

(** ** The cells in sequence *)

Section Notebook.

Variable wordpiece : string -> bool -> string -> list Z.
Variable Net : Type.
Variable forward : Net -> list (list Z) -> list (list Z) -> list (list F32.float).
Variable sigmoid : F32.float -> F32.float.

(** From the frame to the two subsets; [indices] is the permutation that
    [random_split] draws. *)
Definition prepare_data (df : DataFrame) (indices : list nat)
    : result (list string * Subset sample * Subset sample) :=
  names <- label_names df ;;
  lab <- labels df ;;
  text <- text_strings df ;;
  '(input_ids, attention_masks) <- TOKENIZER wordpiece text 256 ;;
  dataset <- TensorDataset input_ids attention_masks lab ;;
  let dataset_size := Z.of_nat (length (rows input_ids)) in
  '(training_dataset, validation_dataset) <- split_dataset indices dataset dataset_size ;;
  Ok (names, training_dataset, validation_dataset).


End Notebook.

(** ** A small table and stand-ins for the external calls *)

Definition example_df : DataFrame :=
  mkDataFrame 5
    [("text"%string,
      StrCol ["mail bob@example.org"; "call 555 0100"; "nothing here";
              "bob@example.org or 555 0100"; "hello"]%string);
     ("email"%string, IntCol [1; 0; 0; 1; 0]);
     ("phone"%string, IntCol [0; 1; 0; 1; 0])].

(** One id per character. *)
Definition char_wordpiece (hash_file : string) (do_lower : bool) (s : string) : list Z :=
  map (fun c => Z.of_nat (nat_of_ascii c)) (list_ascii_of_string s).

(** A network without state whose logits read the first two ids. *)
Definition f32_of_Z (z : Z) : F32.float := binary_normalize F32.prec F32.emax z 0 false.

Definition stub_forward (model : unit) (ids mask : list (list Z)) : list (list F32.float) :=
  map (fun r => [f32_of_Z (nth 0 r 0 - 100); f32_of_Z (100 - nth 1 r 0)]) ids.

(** A monotone stand-in for the sigmoid: 1/4, 1/2 or 3/4 by the sign. *)
Definition stub_sigmoid (x : F32.float) : F32.float :=
  match x with
  | S754_finite true _ _ | S754_infinity true => S754_finite false 8388608 (-25)
  | S754_finite false _ _ | S754_infinity false => S754_finite false 12582912 (-24)
  | _ => S754_finite false 8388608 (-24)
  end.

Definition stub_loss (num_labels : nat) (logits : list (list F32.float))
    (b_labels : list (list Z)) : F32.float :=
  f32_of_Z (Z.of_nat (length logits)).

Definition stub_mean (loss : list F32.float) : F32.float := nth 0 loss (S754_zero false).

Definition stub_update (model : unit) : unit := model.

Definition stub_backward (model : unit) (loss : list F32.float) : unit := model.

(** One epoch and its loss values with the stand-ins. *)
Definition stub_epoch : unit -> list (list sample) -> result (unit * F64.float) :=
  train_epoch unit stub_update stub_forward stub_backward stub_update stub_loss stub_mean 1 2.

Definition stub_loop : unit -> Subset sample -> (nat -> list nat) -> result (unit * list F64.float) :=
  train_loop unit stub_update stub_forward stub_backward stub_update stub_loss stub_mean 1 2.

Definition stub_losses : unit -> list (list sample) -> list F64.float :=
  epoch_losses unit stub_update stub_forward stub_backward stub_update stub_loss stub_mean 1 2.

Definition example_dataset : list sample :=
  [([101; 7; 102], [1; 1; 1], [1; 0]);
   ([101; 102; 0], [1; 1; 0], [0; 0]);
   ([101; 9; 102], [1; 1; 1], [0; 1]);
   ([101; 3; 102], [1; 1; 1], [1; 1]);
   ([101; 102; 0], [1; 1; 0], [0; 0])].

(** Two subsets of the small data set and the stand-ins on them. *)
Definition example_training : Subset sample := mkSubset example_dataset [3; 0; 4; 1]%nat.

Definition example_validation : Subset sample := mkSubset example_dataset [2]%nat.

Definition stub_step : unit * tracking -> list sample -> result (unit * tracking) :=
  train_step unit stub_update stub_forward stub_backward stub_update stub_loss stub_mean 1 2.

Definition stub_model_after : unit -> list (list sample) -> unit :=
  epoch_model unit stub_update stub_forward stub_backward stub_update stub_loss stub_mean 1 2.

(** A directory as the list of its file names, and a download that always
    succeeds. *)
Definition example_exists (name : string) (files : list string) : bool :=
  existsb (String.eqb name) files.

Definition example_get (rpath lpath : string) (files : list string) : result (list string) :=
  Ok (lpath :: files).

(** * Properties *)

(** ** Lists *)

Lemma in_firstn {A : Type} (n : nat) (l : list A) (x : A) :
  In x (firstn n l) -> In x l.
Proof.
  intros H. rewrite <- (firstn_skipn n l). apply in_or_app. left. exact H.
Qed.

Lemma in_skipn {A : Type} (n : nat) (l : list A) (x : A) :
  In x (skipn n l) -> In x l.
Proof.
  intros H. rewrite <- (firstn_skipn n l). apply in_or_app. right. exact H.
Qed.

(** ** Facts about binary64 rounding *)

Lemma digits2_pos_size p : digits2_pos p = Pos.size p.
Proof. induction p; simpl; congruence. Qed.

Lemma digits2_pos_bounds p :
  2 ^ (Zpos (digits2_pos p) - 1) <= Zpos p < 2 ^ Zpos (digits2_pos p).
Proof.
  rewrite digits2_pos_size. split.
  - pose proof (Pos.size_le p) as H.
    assert (Zpos (2 ^ Pos.size p) <= Zpos p~0)%Z by (apply Pos2Z.pos_le_pos; exact H).
    rewrite Pos2Z.inj_pow in H0.
    replace (Zpos (Pos.size p)) with (Zpos (Pos.size p) - 1 + 1) in H0 by lia.
    rewrite Z.pow_add_r in H0 by lia. change (2 ^ 1) with 2 in H0. lia.
  - pose proof (Pos.size_gt p) as H.
    apply Pos2Z.pos_lt_pos in H. rewrite Pos2Z.inj_pow in H. exact H.
Qed.

Lemma digits_unique (p : positive) (d : Z) :
  2 ^ (d - 1) <= Zpos p < 2 ^ d -> Zpos (digits2_pos p) = d.
Proof.
  intros [Hl Hu]. pose proof (digits2_pos_bounds p) as [Bl Bu].
  set (s := Zpos (digits2_pos p)) in *.
  assert (0 < s) by (unfold s; lia).
  destruct (Z.lt_trichotomy s d) as [Hlt | [Heq | Hgt]]; [ | exact Heq | ].
  - exfalso. assert (2 ^ s <= 2 ^ (d - 1)) by (apply Z.pow_le_mono_r; lia). lia.
  - exfalso. assert (0 < d).
    { destruct (Z.lt_ge_cases 0 d); [assumption|].
      exfalso. destruct (Z.eq_dec d 0) as [->|]; [simpl in Hu; lia|].
      rewrite Z.pow_neg_r in Hu by lia. lia. }
    assert (2 ^ d <= 2 ^ (s - 1)) by (apply Z.pow_le_mono_r; lia). lia.
Qed.

Lemma iter_pos_nat {A} (f : A -> A) p x :
  iter_pos f p x = Nat.iter (Pos.to_nat p) f x.
Proof.
  revert x. induction p as [p IH | p IH | ]; intro x; cbn [iter_pos].
  - rewrite !IH, Pos2Nat.inj_xI.
    replace (S (2 * Pos.to_nat p))%nat with (Pos.to_nat p + S (Pos.to_nat p))%nat by lia.
    rewrite Nat.iter_add, Nat.iter_succ_r. reflexivity.
  - rewrite !IH, Pos2Nat.inj_xO.
    replace (2 * Pos.to_nat p)%nat with (Pos.to_nat p + Pos.to_nat p)%nat by lia.
    rewrite Nat.iter_add. reflexivity.
  - reflexivity.
Qed.

Lemma shr_1_nonneg mrs :
  0 <= shr_m mrs ->
  shr_1 mrs = Build_shr_record (shr_m mrs / 2) (Z.odd (shr_m mrs)) (shr_r mrs || shr_s mrs).
Proof.
  destruct mrs as [m r s]; cbn [shr_m shr_r shr_s]. intros Hm.
  destruct m as [ | p | p]; [reflexivity | | lia].
  destruct p as [p | p | ]; cbn [shr_1].
  - f_equal. rewrite Pos2Z.inj_xI.
    apply Z.div_unique with (r := 1); lia.
  - f_equal. rewrite Pos2Z.inj_xO.
    apply Z.div_unique with (r := 0); lia.
  - reflexivity.
Qed.

Lemma mod_pow2_succ m0 k :
  0 <= k ->
  m0 mod 2 ^ (k + 1) = m0 mod 2 ^ k + 2 ^ k * Z.b2z (Z.testbit m0 k).
Proof.
  intros Hk. rewrite Z.pow_add_r by lia. change (2 ^ 1) with 2.
  rewrite Z.rem_mul_r by lia. f_equal. f_equal.
  rewrite Z.testbit_spec' by lia. reflexivity.
Qed.

Lemma shr_iter m0 n :
  0 <= m0 -> Nat.iter n shr_1 (Build_shr_record m0 false false) = shr_state m0 n.
Proof.
  intros Hm. induction n as [ | n IH]; [reflexivity | ].
  rewrite Nat.iter_succ, IH, shr_1_nonneg.
  2:{ destruct n; cbn [shr_state shr_m]; [lia | apply Z.div_pos; lia]. }
  destruct n as [ | k].
  - cbn [shr_state shr_m shr_r shr_s]. f_equal.
    + change (Z.of_nat 0) with 0. rewrite Z.mod_1_r. reflexivity.
  - cbn [shr_state shr_m shr_r shr_s]. f_equal.
    + rewrite Z.div_div by lia. f_equal.
      rewrite (Nat2Z.inj_succ (S k)). rewrite Z.pow_succ_r by lia. lia.
    + rewrite Z.testbit_odd, Z.shiftr_div_pow2 by lia. reflexivity.
    + rewrite (Nat2Z.inj_succ k). unfold Z.succ.
      rewrite mod_pow2_succ by lia.
      pose proof (Z.mod_pos_bound m0 (2 ^ Z.of_nat k) ltac:(lia)).
      destruct (Z.testbit m0 (Z.of_nat k)); cbn [Z.b2z orb].
      * symmetry. apply negb_true_iff, Z.eqb_neq. lia.
      * f_equal. f_equal. lia.
Qed.

Lemma shr_exact_pos m0 e p :
  0 <= m0 ->
  shr (Build_shr_record m0 false false) e (Zpos p) =
  (shr_state m0 (Pos.to_nat p), e + Zpos p).
Proof.
  intros Hm. cbn [shr]. rewrite iter_pos_nat, shr_iter by assumption. reflexivity.
Qed.

(** Round-to-nearest-even of [m0 / 2^n] stays within half a unit. *)
Lemma round_nearest_even_bound m0 n :
  0 <= m0 -> (0 < n)%nat ->
  let mrs := shr_state m0 n in
  let m1 := round_nearest_even (shr_m mrs) (loc_of_shr_record mrs) in
  2 ^ Z.of_nat n * m1 - 2 ^ (Z.of_nat n - 1) <= m0
    <= 2 ^ Z.of_nat n * m1 + 2 ^ (Z.of_nat n - 1).
Proof.
  intros Hm Hn. destruct n as [ | k]; [lia | ].
  cbn zeta. cbn [shr_state shr_m].
  rewrite (Nat2Z.inj_succ k). unfold Z.succ.
  replace (Z.of_nat k + 1 - 1) with (Z.of_nat k) by lia.
  set (K := Z.of_nat k). assert (0 <= K) by lia.
  pose proof (Z.div_mod m0 (2 ^ (K + 1)) ltac:(lia)) as Hdm.
  rewrite mod_pow2_succ in Hdm by lia.
  pose proof (Z.mod_pos_bound m0 (2 ^ K) ltac:(lia)) as Hr.
  assert (Hp : 2 ^ (K + 1) = 2 * 2 ^ K) by (rewrite Z.pow_add_r by lia; lia).
  set (q := m0 / 2 ^ (K + 1)) in *.
  set (r := m0 mod 2 ^ K) in *.
  assert (Hs : (r =? 0) = true <-> r = 0) by apply Z.eqb_eq.
  unfold loc_of_shr_record.
  destruct (Z.testbit m0 K); cbn [Z.b2z] in Hdm;
    destruct (r =? 0) eqn:Er; cbn [negb round_nearest_even].
  - destruct (Z.even q); nia.
  - nia.
  - nia.
  - nia.
Qed.

Lemma iter_xO p q : Zpos (Pos.iter xO p q) = Zpos p * 2 ^ Zpos q.
Proof.
  induction q as [ | q IH] using Pos.peano_ind.
  - cbn [Pos.iter]. lia.
  - rewrite Pos.iter_succ, Pos2Z.inj_xO, IH, Pos2Z.inj_succ, Z.pow_succ_r by lia. lia.
Qed.

(** Settles the overflow test of [binary_round_aux] when the exponent is
    known to be small. *)
Ltac exponent_in_range :=
  match goal with
  | |- context [?e <=? F64.emax - F64.prec] =>
      replace (e <=? F64.emax - F64.prec) with true
        by (symmetry; apply Z.leb_le; unfold F64.emax, F64.prec; lia)
  end.

Lemma fexp_normal e : -1021 <= e -> fexp F64.prec F64.emax e = e - 53.
Proof. unfold fexp, emin, F64.prec, F64.emax. lia. Qed.

Lemma binary_round_aux_canonical s m e :
  Zpos (digits2_pos m) = 53 -> -1074 <= e <= 971 ->
  binary_round_aux F64.prec F64.emax s (Zpos m) e loc_Exact = S754_finite s m e.
Proof.
  intros Hd He. unfold binary_round_aux, shr_fexp.
  cbn [Zdigits2 shr_record_of_loc]. rewrite Hd, fexp_normal by lia.
  replace (53 + e - 53 - e) with 0 by lia.
  cbn [shr shr_m loc_of_shr_record round_nearest_even Zdigits2 shr_record_of_loc].
  rewrite Hd, fexp_normal by lia.
  replace (53 + e - 53 - e) with 0 by lia. cbn [shr shr_m].
  exponent_in_range. reflexivity.
Qed.

Lemma binary_round_aux_round s M E k :
  Zpos (digits2_pos M) = 53 + k -> 0 < k -> -1074 <= E + k -> E + k + 1 <= 971 ->
  exists mf ef m1,
    binary_round_aux F64.prec F64.emax s (Zpos M) E loc_Exact = S754_finite s mf ef /\
    Zpos (digits2_pos mf) = 53 /\
    2 ^ k * m1 - 2 ^ (k - 1) <= Zpos M <= 2 ^ k * m1 + 2 ^ (k - 1) /\
    ((Zpos mf = m1 /\ ef = E + k) \/ (m1 = 2 * Zpos mf /\ ef = E + k + 1)).
Proof.
  intros Hd Hk Hlo Hhi.
  destruct k as [ | kp | kp]; try lia.
  pose proof (digits2_pos_bounds M) as HM. rewrite Hd in HM.
  unfold binary_round_aux, shr_fexp at 1.
  cbn [Zdigits2 shr_record_of_loc]. rewrite Hd, fexp_normal by lia.
  replace (53 + Zpos kp + E - 53 - E) with (Zpos kp) by lia.
  rewrite shr_exact_pos by lia.
  pose proof (round_nearest_even_bound (Zpos M) (Pos.to_nat kp) ltac:(lia) ltac:(lia)) as Hb.
  cbn zeta in Hb. rewrite positive_nat_Z in Hb.
  set (m1 := round_nearest_even _ _) in *.
  assert (Hp1 : 2 ^ Zpos kp = 2 * 2 ^ (Zpos kp - 1)).
  { rewrite <- Z.pow_succ_r by lia. f_equal. lia. }
  assert (Hp2 : 2 ^ (53 + Zpos kp - 1) = 2 ^ 52 * (2 * 2 ^ (Zpos kp - 1))).
  { rewrite <- Hp1, <- Z.pow_add_r by lia. f_equal. lia. }
  assert (Hp3 : 2 ^ (53 + Zpos kp) = 2 ^ 53 * (2 * 2 ^ (Zpos kp - 1))).
  { rewrite <- Hp1, <- Z.pow_add_r by lia. reflexivity. }
  assert (Hpos : 0 < 2 ^ (Zpos kp - 1)) by (apply Z.pow_pos_nonneg; lia).
  assert (Hm1 : 2 ^ 52 <= m1 <= 2 ^ 53).
  { rewrite Hp1 in Hb. rewrite Hp2, Hp3 in HM.
    set (P := 2 ^ (Zpos kp - 1)) in *. 
    change (2 ^ 52) with 4503599627370496 in *.
    change (2 ^ 53) with 9007199254740992 in *. nia. }
  destruct m1 as [ | p1 | p1] eqn:Em1; try (change (2 ^ 52) with 4503599627370496 in Hm1; lia).
  destruct (Z.eq_dec (Zpos p1) (2 ^ 53)) as [Heq | Hne].
  - (* the rounded mantissa overflowed to 2^53: one more shift *)
    assert (Hp : p1 = 9007199254740992%positive) by (change (2 ^ 53) with 9007199254740992 in Heq; lia).
    subst p1. exists 4503599627370496%positive, (E + Zpos kp + 1), (Zpos 9007199254740992).
    split; [ | split; [reflexivity | split; [exact Hb | right; split; lia]]].
    unfold shr_fexp. cbn [Zdigits2 shr_record_of_loc].
    change (Zpos (digits2_pos 9007199254740992)) with 54.
    rewrite fexp_normal by lia.
    replace (54 + (E + Zpos kp) - 53 - (E + Zpos kp)) with 1 by lia.
    cbn [shr iter_pos shr_1 shr_m].
    exponent_in_range. reflexivity.
  - exists p1, (E + Zpos kp), (Zpos p1).
    assert (Hd1 : Zpos (digits2_pos p1) = 53) by (apply digits_unique; lia).
    split; [ | split; [exact Hd1 | split; [exact Hb | left; split; reflexivity]]].
    unfold shr_fexp. cbn [Zdigits2 shr_record_of_loc].
    rewrite Hd1, fexp_normal by lia.
    replace (53 + (E + Zpos kp) - 53 - (E + Zpos kp)) with 0 by lia.
    cbn [shr shr_m].
    exponent_in_range. reflexivity.
Qed.

Lemma of_Z_pos n :
  0 < n < 2 ^ 53 ->
  exists m e, F64.of_Z n = S754_finite false m e /\
    Zpos (digits2_pos m) = 53 /\ -52 <= e <= 0 /\ Zpos m = n * 2 ^ (- e).
Proof.
  intros Hn. destruct n as [ | p | p]; try lia.
  unfold F64.of_Z, F64.normalize, binary_normalize, binary_round.
  pose proof (digits2_pos_bounds p) as Hp.
  set (d := Zpos (digits2_pos p)) in *.
  assert (Hd : 1 <= d <= 53).
  { split; [unfold d; lia | ].
    destruct (Z.le_gt_cases d 53) as [ | Hgt]; [assumption | exfalso].
    assert (2 ^ 53 <= 2 ^ (d - 1)) by (apply Z.pow_le_mono_r; lia). lia. }
  rewrite fexp_normal by lia. unfold shl_align.
  destruct (d + 0 - 53 - 0) as [ | q | q] eqn:Eq; try lia.
  - exists p, 0. split; [apply binary_round_aux_canonical; fold d; lia | ].
    split; [fold d; lia | split; [lia | ]]. change (2 ^ (- 0)) with 1. lia.
  - assert (Hq : Zpos q = 53 - d) by lia.
    assert (Hm : Zpos (Pos.iter xO p q) = Zpos p * 2 ^ (53 - d)) by (rewrite iter_xO, Hq; reflexivity).
    assert (Hdm : Zpos (digits2_pos (Pos.iter xO p q)) = 53).
    { apply digits_unique. rewrite Hm.
      replace (2 ^ (53 - 1)) with (2 ^ (d - 1) * 2 ^ (53 - d))
        by (rewrite <- Z.pow_add_r by lia; f_equal; lia).
      replace (2 ^ 53) with (2 ^ d * 2 ^ (53 - d))
        by (rewrite <- Z.pow_add_r by lia; f_equal; lia).
      assert (0 < 2 ^ (53 - d)) by (apply Z.pow_pos_nonneg; lia). nia. }
    exists (Pos.iter xO p q), (d + 0 - 53).
    split; [apply binary_round_aux_canonical; [exact Hdm | lia] | ].
    split; [exact Hdm | split; [lia | ]].
    rewrite Hm. f_equal. f_equal. lia.
Qed.

Lemma of_Z_pos_range n m e :
  0 < n -> Zpos (digits2_pos m) = 53 -> e <= 0 -> Zpos m = n * 2 ^ (- e) ->
  2 ^ (52 + e) <= n < 2 ^ (53 + e).
Proof.
  intros Hn Hd He Hm. pose proof (digits2_pos_bounds m) as Hb. rewrite Hd, Hm in Hb.
  assert (HT : 0 < 2 ^ (- e)) by (apply Z.pow_pos_nonneg; lia).
  destruct (Z.le_gt_cases 0 (52 + e)) as [Hge | Hlt].
  - replace (2 ^ (53 - 1)) with (2 ^ (52 + e) * 2 ^ (- e)) in Hb
      by (rewrite <- Z.pow_add_r by lia; f_equal; lia).
    replace (2 ^ 53) with (2 ^ (53 + e) * 2 ^ (- e)) in Hb
      by (rewrite <- Z.pow_add_r by lia; f_equal; lia).
    nia.
  - rewrite (Z.pow_neg_r 2 (52 + e)) by lia. split; [lia | ].
    destruct (Z.eq_dec (53 + e) 0) as [E0 | ].
    + rewrite E0. exfalso.
      replace (- e) with 53 in * by lia. lia.
    + exfalso. assert (2 ^ 54 <= 2 ^ (- e)) by (apply Z.pow_le_mono_r; lia).
      change (2 ^ (53 - 1)) with (2 ^ 52) in Hb.
      assert (2 ^ 54 * n <= n * 2 ^ (- e)) by nia.
      change (2 ^ 53) with 9007199254740992 in *. change (2 ^ 54) with 18014398509481984 in *. lia.
Qed.

Lemma mul_0_8_truncate n :
  0 <= n < 2 ^ 50 -> F64.truncate (F64.mul (F64.of_Z n) F64.lit_0_8) = Some (4 * n / 5).
Proof.
  intros Hn. destruct (Z.eq_dec n 0) as [-> | Hnz]; [reflexivity | ].
  destruct (of_Z_pos n) as (m & e & Hof & Hd & He & Hm).
  { change (2 ^ 50) with 1125899906842624 in Hn.
    change (2 ^ 53) with 9007199254740992. lia. }
  pose proof (of_Z_pos_range n m e ltac:(lia) Hd ltac:(lia) Hm) as Hr.
  assert (He3 : e <= -3).
  { destruct (Z.le_gt_cases e (-3)); [assumption | exfalso].
    assert (2 ^ 50 <= 2 ^ (52 + e)) by (apply Z.pow_le_mono_r; lia). lia. }
  rewrite Hof. unfold F64.mul, F64.lit_0_8, SFmul. cbn [xorb].
  set (c := 7205759403792794%positive).
  pose proof (digits2_pos_bounds m) as Bm. rewrite Hd in Bm.
  pose proof (digits2_pos_bounds (m * c)) as BM.
  set (D := Zpos (digits2_pos (m * c))) in *.
  assert (HD : D = 105 \/ D = 106).
  { rewrite Pos2Z.inj_mul in BM. change (Zpos c) with 7205759403792794 in BM.
    change (2 ^ (53 - 1)) with 4503599627370496 in Bm.
    change (2 ^ 53) with 9007199254740992 in Bm.
    assert (2 ^ 104 <= Zpos m * 7205759403792794 < 2 ^ 106).
    { change (2 ^ 104) with (4503599627370496 * 4503599627370496).
      change (2 ^ 106) with (9007199254740992 * 9007199254740992). nia. }
    assert (0 < D) by (unfold D; lia).
    destruct (Z.le_gt_cases D 104) as [Hle | Hgt].
    - exfalso. assert (2 ^ D <= 2 ^ 104) by (apply Z.pow_le_mono_r; lia). lia.
    - destruct (Z.le_gt_cases 107 D) as [Hge | Hlt]; [ | lia].
      exfalso. assert (2 ^ 106 <= 2 ^ (D - 1)) by (apply Z.pow_le_mono_r; lia). lia. }
  destruct (binary_round_aux_round false (m * c) (e + -53) (D - 53))
    as (mf & ef & m1 & Hres & _ & Hb & Hcase); try lia.
  rewrite Hres. cbn [F64.truncate cond_Zopp]. f_equal.
  (* both shapes of the result truncate to m1 / 2^j *)
  set (j := 106 - D - e).
  assert (Hj : 3 <= j) by (unfold j; lia).
  assert (Htr : Z.shiftl (Zpos mf) ef = m1 / 2 ^ j).
  { destruct Hcase as [[Hmf Hef] | [Hmf Hef]].
    - rewrite Z.shiftl_div_pow2 by lia. rewrite Hmf. f_equal. f_equal. unfold j. lia.
    - rewrite Z.shiftl_div_pow2 by lia. rewrite Hmf.
      replace (2 ^ j) with (2 * 2 ^ (- ef)).
      2:{ rewrite <- Z.pow_succ_r by lia. f_equal. unfold j. lia. }
      rewrite <- Z.div_div by lia.
      rewrite (Z.mul_comm 2), Z.div_mul by lia. reflexivity. }
  rewrite Htr.
  set (T := 2 ^ (- e)) in *.
  assert (HT : 8 <= T).
  { change 8 with (2 ^ 3). apply Z.pow_le_mono_r; lia. }
  rewrite Pos2Z.inj_mul, Hm in Hb. change (Zpos c) with 7205759403792794 in Hb.
  pose proof (Z.div_mod (4 * n) 5 ltac:(lia)) as Hq.
  pose proof (Z.mod_pos_bound (4 * n) 5 ltac:(lia)) as Hrq.
  set (q := 4 * n / 5) in *. set (r := (4 * n) mod 5) in *.
  assert (Hq0 : 0 <= q) by (apply Z.div_pos; lia).
  change (2 ^ 50) with 1125899906842624 in Hn.
  symmetry. apply Z.div_unique with (r := m1 - q * 2 ^ j).
  2: lia.
  destruct HD as [HD | HD]; rewrite HD in *.
  - (* a 105-bit product: shift 52, j = 1 - e *)
    change (105 - 53) with 52 in Hb. change (52 - 1) with 51 in Hb.
    replace (2 ^ j) with (2 * T).
    2:{ unfold T, j. rewrite <- Z.pow_succ_r by lia. f_equal. lia. }
    change (2 ^ 52) with 4503599627370496 in Hb.
    change (2 ^ 51) with 2251799813685248 in Hb.
    assert (0 <= n * T) by nia. assert (0 <= q * T) by nia.
    assert (4 * (n * T) = 5 * (q * T) + r * T) by nia.
    assert (0 <= r * T <= 4 * T) by nia.
    assert (n * T * 7205759403792794 = (n * T) * 7205759403792794) by lia.
    assert (n * T < 1125899906842624 * T) by nia.
    nia.
  - change (106 - 53) with 53 in Hb. change (53 - 1) with 52 in Hb.
    replace (2 ^ j) with T.
    2:{ unfold T, j. f_equal. lia. }
    change (2 ^ 52) with 4503599627370496 in Hb.
    change (2 ^ 53) with 9007199254740992 in Hb.
    assert (0 <= n * T) by nia. assert (0 <= q * T) by nia.
    assert (4 * (n * T) = 5 * (q * T) + r * T) by nia.
    assert (0 <= r * T <= 4 * T) by nia.
    assert (n * T < 1125899906842624 * T) by nia.
    nia.
Qed.

(** The product of a normal positive value with the literal 0.8, truncated:
    the rounded 53-bit mantissa [m1], shifted to its place. *)
Lemma mul_0_8_finite m e :
  Zpos (digits2_pos m) = 53 -> -60 <= e <= 20 ->
  exists m1 k,
    (k = 52 \/ k = 53) /\ 0 <= m1 /\
    2 ^ k * m1 - 2 ^ (k - 1) <= Zpos m * 7205759403792794 <= 2 ^ k * m1 + 2 ^ (k - 1) /\
    F64.truncate (F64.mul (S754_finite false m e) F64.lit_0_8) =
      Some (Z.shiftl m1 (e - 53 + k)).
Proof.
  intros Hd He. unfold F64.mul, F64.lit_0_8, SFmul. cbn [xorb].
  set (c := 7205759403792794%positive).
  pose proof (digits2_pos_bounds m) as Bm. rewrite Hd in Bm.
  pose proof (digits2_pos_bounds (m * c)) as BM.
  set (D := Zpos (digits2_pos (m * c))) in *.
  assert (HD : D = 105 \/ D = 106).
  { rewrite Pos2Z.inj_mul in BM. change (Zpos c) with 7205759403792794 in BM.
    change (2 ^ (53 - 1)) with 4503599627370496 in Bm.
    change (2 ^ 53) with 9007199254740992 in Bm.
    assert (2 ^ 104 <= Zpos m * 7205759403792794 < 2 ^ 106).
    { change (2 ^ 104) with (4503599627370496 * 4503599627370496).
      change (2 ^ 106) with (9007199254740992 * 9007199254740992). nia. }
    assert (0 < D) by (unfold D; lia).
    destruct (Z.le_gt_cases D 104) as [Hle | Hgt].
    - exfalso. assert (2 ^ D <= 2 ^ 104) by (apply Z.pow_le_mono_r; lia). lia.
    - destruct (Z.le_gt_cases 107 D) as [Hge | Hlt]; [ | lia].
      exfalso. assert (2 ^ 106 <= 2 ^ (D - 1)) by (apply Z.pow_le_mono_r; lia). lia. }
  destruct (binary_round_aux_round false (m * c) (e + -53) (D - 53))
    as (mf & ef & m1 & Hres & _ & Hb & Hcase); try lia.
  rewrite Hres. cbn [F64.truncate cond_Zopp].
  rewrite Pos2Z.inj_mul in Hb. change (Zpos c) with 7205759403792794 in Hb.
  exists m1, (D - 53). split; [lia | ]. split.
  { destruct Hcase as [[<- _] | [-> _]]; lia. }
  split; [exact Hb | ]. f_equal.
  destruct Hcase as [[Hmf Hef] | [Hmf Hef]].
  - rewrite Hmf, Hef. f_equal; lia.
  - rewrite Hmf, Hef.
    replace (2 * Zpos mf) with (Z.shiftl (Zpos mf) 1) by (rewrite Z.shiftl_mul_pow2 by lia; lia).
    rewrite Z.shiftl_shiftl by lia. f_equal; lia.
Qed.

(** [float(n)] for an integer of 54 to 63 bits: a normal value [V] within
    half a unit [P0] of [n], where [P0] is at most [n / 2^53]. *)
Lemma of_Z_big n :
  2 ^ 53 <= n < 2 ^ 63 ->
  exists mf ef P0,
    F64.of_Z n = S754_finite false mf ef /\
    Zpos (digits2_pos mf) = 53 /\ 1 <= ef <= 11 /\
    0 < P0 /\ 2 ^ 53 * P0 <= n /\
    Zpos mf * 2 ^ ef <= n + P0.
Proof.
  intros Hn. destruct n as [ | p | p]; try (change (2 ^ 53) with 9007199254740992 in Hn; lia).
  unfold F64.of_Z, F64.normalize, binary_normalize, binary_round.
  pose proof (digits2_pos_bounds p) as Hp.
  set (d := Zpos (digits2_pos p)) in *.
  assert (Hd : 54 <= d <= 63).
  { split.
    - destruct (Z.le_gt_cases 54 d) as [ | Hlt]; [assumption | exfalso].
      assert (0 < d) by (unfold d; lia).
      assert (2 ^ d <= 2 ^ 53) by (apply Z.pow_le_mono_r; lia). lia.
    - destruct (Z.le_gt_cases d 63) as [ | Hgt]; [assumption | exfalso].
      assert (2 ^ 63 <= 2 ^ (d - 1)) by (apply Z.pow_le_mono_r; lia). lia. }
  rewrite fexp_normal by lia. unfold shl_align.
  destruct (d + 0 - 53 - 0) as [ | q | q] eqn:Eq; try lia.
  destruct (binary_round_aux_round false p 0 (d - 53))
    as (mf & ef & m1 & Hres & Hdig & Hb & Hcase); try (fold d; lia).
  rewrite Hres. exists mf, ef, (2 ^ (d - 53 - 1)).
  assert (Hpos : 0 < 2 ^ (d - 53 - 1)) by (apply Z.pow_pos_nonneg; lia).
  assert (Hk : 2 ^ (d - 53) = 2 * 2 ^ (d - 53 - 1)).
  { rewrite <- Z.pow_succ_r by lia. f_equal. lia. }
  split; [reflexivity | ]. split; [exact Hdig | ].
  split; [destruct Hcase as [[_ ->] | [_ ->]]; lia | ].
  split; [exact Hpos | ]. split.
  - replace (2 ^ 53 * 2 ^ (d - 53 - 1)) with (2 ^ (d - 1)); [lia | ].
    rewrite <- Z.pow_add_r by lia. f_equal. lia.
  - destruct Hcase as [[Hmf ->] | [Hmf ->]].
    + replace (0 + (d - 53)) with (d - 53) by lia. rewrite Hmf. lia.
    + replace (0 + (d - 53) + 1) with (Z.succ (d - 53)) by lia.
      rewrite Z.pow_succ_r by lia. nia.
Qed.

(** [int(n * .8)] stays below [n], for every length a Python list can have. *)
Lemma mul_0_8_truncate_range n :
  0 <= n < 2 ^ 63 ->
  exists ts, F64.of_Z n <> S754_nan /\
    (forall s, F64.of_Z n <> S754_infinity s) /\
    F64.truncate (F64.mul (F64.of_Z n) F64.lit_0_8) = Some ts /\
    0 <= ts <= n /\ (0 < n -> ts < n).
Proof.
  intros Hn. destruct (Z.eq_dec n 0) as [-> | Hnz].
  { exists 0. repeat split; try discriminate; try reflexivity; lia. }
  destruct (Z.lt_ge_cases n (2 ^ 53)) as [Hsmall | Hbig].
  - (* the conversion is exact *)
    destruct (of_Z_pos n ltac:(lia)) as (m & e & Hof & Hd & He & Hm).
    destruct (mul_0_8_finite m e Hd ltac:(lia)) as (m1 & k & Hk & Hm1 & Hb & Htr).
    rewrite Hof. exists (Z.shiftl m1 (e - 53 + k)).
    split; [discriminate | ]. split; [discriminate | ]. split; [exact Htr | ].
    rewrite Z.shiftl_div_pow2 by lia.
    set (B := 2 ^ (- (e - 53 + k))).
    assert (HB : 0 < B) by (apply Z.pow_pos_nonneg; lia).
    set (T := 2 ^ (- e)) in *.
    assert (HT : 0 < T) by (apply Z.pow_pos_nonneg; lia).
    assert (HkB : 2 ^ k * B = 2 ^ 53 * T).
    { unfold B, T. rewrite <- !Z.pow_add_r by lia. f_equal. lia. }
    pose proof (digits2_pos_bounds m) as Bm. rewrite Hd, Hm in Bm.
    change (2 ^ (53 - 1)) with 4503599627370496 in Bm.
    change (2 ^ 53) with 9007199254740992 in *.
    rewrite Hm in Hb.
    assert (Hnt : 0 < n * T) by nia.
    assert (Hlt : m1 / B < n).
    { apply Z.div_lt_upper_bound; [exact HB | ].
      destruct Hk as [-> | ->].
      + change (52 - 1) with 51 in Hb.
        change (2 ^ 52) with 4503599627370496 in *.
        change (2 ^ 51) with 2251799813685248 in Hb. nia.
      + change (53 - 1) with 52 in Hb.
        change (2 ^ 53) with 9007199254740992 in *.
        change (2 ^ 52) with 4503599627370496 in Hb. nia. }
    pose proof (Z.div_pos m1 B Hm1 HB). lia.
  - (* the conversion rounds to 53 bits *)
    destruct (of_Z_big n ltac:(lia)) as (mf & ef & P0 & Hof & Hd & He & HP0 & HP & HV).
    destruct (mul_0_8_finite mf ef Hd ltac:(lia)) as (m1 & k & Hk & Hm1 & Hb & Htr).
    rewrite Hof. exists (Z.shiftl m1 (ef - 53 + k)).
    split; [discriminate | ]. split; [discriminate | ]. split; [exact Htr | ].
    rewrite Z.shiftl_mul_pow2 by lia.
    set (X := 2 ^ (ef - 53 + k)).
    assert (HX : 0 < X) by (apply Z.pow_pos_nonneg; lia).
    set (E0 := 2 ^ ef) in *.
    assert (HE0 : 0 < E0) by (apply Z.pow_pos_nonneg; lia).
    pose proof (digits2_pos_bounds mf) as Bm. rewrite Hd in Bm.
    change (2 ^ (53 - 1)) with 4503599627370496 in Bm.
    change (2 ^ 53) with 9007199254740992 in *.
    assert (Hts0 : 0 <= m1 * X) by nia.
    (* 2^53 * ts <= V * (c + 1), with V the value of float(n) *)
    assert (Hts : 9007199254740992 * (m1 * X) <= (Zpos mf * E0) * 7205759403792795).
    { destruct Hk as [-> | ->].
      - assert (HXE : E0 = 2 * X).
        { unfold E0, X. rewrite <- Z.pow_succ_r by lia. f_equal. lia. }
        change (52 - 1) with 51 in Hb.
        change (2 ^ 52) with 4503599627370496 in Hb.
        change (2 ^ 51) with 2251799813685248 in Hb.
        rewrite HXE. 
        assert (4503599627370496 * m1 * X <= (Zpos mf * 7205759403792794 + 2251799813685248) * X) by nia.
        assert (2251799813685248 * X <= Zpos mf * X) by nia.
        nia.
      - assert (HXE : E0 = X).
        { unfold E0, X. f_equal. lia. }
        change (53 - 1) with 52 in Hb.
        change (2 ^ 53) with 9007199254740992 in Hb.
        change (2 ^ 52) with 4503599627370496 in Hb.
        rewrite HXE.
        assert (9007199254740992 * m1 * X <= (Zpos mf * 7205759403792794 + 4503599627370496) * X) by nia.
        assert (4503599627370496 * X <= Zpos mf * X) by nia.
        nia. }
    set (V := Zpos mf * E0) in *. set (ts := m1 * X) in *.
    assert (HV2 : 9007199254740992 * V <= 9007199254740993 * n) by nia.
    assert (9007199254740992 * 9007199254740992 * ts <=
            9007199254740993 * 7205759403792795 * n) by nia.
    assert (ts < n) by nia. lia.
Qed.

Lemma py_float_int n :
  0 <= n < 2 ^ 63 -> py_float (PyInt n) = Ok (F64.of_Z n).
Proof.
  intros Hn. destruct (mul_0_8_truncate_range n Hn) as (_ & _ & Hinf & _).
  unfold py_float. destruct (F64.of_Z n) as [s | s | | s m e]; try reflexivity.
  exfalso. apply (Hinf s). reflexivity.
Qed.

(** An id below 2^53 survives [astype(float)] followed by [type(long)]. *)
Lemma long_of_float_of_Z z :
  0 <= z < 2 ^ 53 -> long_of_float (F64.of_Z z) = z.
Proof.
  intros Hz. destruct (Z.eq_dec z 0) as [-> | Hnz]; [reflexivity | ].
  destruct (of_Z_pos z ltac:(lia)) as (m & e & Hof & _ & He & Hm).
  unfold long_of_float. rewrite Hof. cbn [F64.truncate cond_Zopp].
  rewrite Z.shiftl_div_pow2, Hm, Z.div_mul by lia.
  change (2 ^ 53) with 9007199254740992 in Hz.
  replace (- 2 ^ 63 <=? z) with true by (symmetry; apply Z.leb_le; lia).
  replace (z <? 2 ^ 63) with true; [reflexivity | ].
  symmetry. apply Z.ltb_lt. change (2 ^ 63) with 9223372036854775808. lia.
Qed.

(** ** The 80/20 split *)

Lemma train_size_closed n :
  0 <= n < 2 ^ 50 -> train_size n = Ok (4 * n / 5).
Proof.
  intros Hn. unfold train_size, py_mul.
  rewrite py_float_int.
  2:{ change (2 ^ 50) with 1125899906842624 in Hn.
      change (2 ^ 63) with 9223372036854775808. lia. }
  cbn [bind py_float py_int]. rewrite mul_0_8_truncate by assumption. reflexivity.
Qed.

(** For every length a list can have, [train_size] returns a size between
    0 and that length. *)
Lemma train_size_total n :
  0 <= n < 2 ^ 63 ->
  exists ts, train_size n = Ok ts /\ 0 <= ts <= n /\ (0 < n -> ts < n).
Proof.
  intros Hn. destruct (mul_0_8_truncate_range n Hn) as (ts & Hnan & Hinf & Htr & Hts).
  exists ts. split; [ | exact Hts].
  unfold train_size, py_mul.
  rewrite py_float_int by assumption. cbn [bind py_float py_int]. rewrite Htr. reflexivity.
Qed.

Lemma train_size_bounds n :
  0 <= n -> 0 <= 4 * n / 5 <= n.
Proof.
  intros Hn. split.
  - apply Z.div_pos; lia.
  - apply Z.div_le_upper_bound; lia.
Qed.

Lemma clamp_index_in_range (n : nat) (i : Z) :
  0 <= i <= Z.of_nat n -> clamp_index n i = Z.to_nat i.
Proof.
  intros Hi. unfold clamp_index.
  destruct (i <? 0) eqn:E; [apply Z.ltb_lt in E; lia | lia].
Qed.

Lemma py_slice_prefix {A : Type} (l : list A) (k : Z) :
  0 <= k <= Z.of_nat (length l) -> py_slice l 0 k = firstn (Z.to_nat k) l.
Proof.
  intros Hk. unfold py_slice.
  rewrite !clamp_index_in_range by lia.
  change (Z.to_nat 0) with 0%nat. rewrite Nat.sub_0_r. reflexivity.
Qed.

Lemma py_slice_suffix {A : Type} (l : list A) (k : Z) :
  0 <= k <= Z.of_nat (length l) ->
  py_slice l k (Z.of_nat (length l)) = skipn (Z.to_nat k) l.
Proof.
  intros Hk. unfold py_slice.
  rewrite !clamp_index_in_range by lia. rewrite Nat2Z.id.
  apply firstn_all2. rewrite length_skipn. lia.
Qed.

Lemma split_dataset_total {A : Type} (indices : list nat) (dataset : list A) :
  Z.of_nat (length dataset) < 2 ^ 63 ->
  length indices = length dataset ->
  exists ts,
    train_size (Z.of_nat (length dataset)) = Ok ts /\
    (0 <= ts <= Z.of_nat (length dataset) /\
     (0 < Z.of_nat (length dataset) -> ts < Z.of_nat (length dataset))) /\
    split_dataset indices dataset (Z.of_nat (length dataset)) =
      Ok (mkSubset dataset (firstn (Z.to_nat ts) indices),
          mkSubset dataset (skipn (Z.to_nat ts) indices)).
Proof.
  intros Hn Hlen. set (n := Z.of_nat (length dataset)) in *.
  destruct (train_size_total n ltac:(lia)) as (ts & Hts & Hb & Hlt).
  exists ts. split; [exact Hts | ]. split; [split; [exact Hb | exact Hlt] | ].
  unfold split_dataset. rewrite Hts. cbn [bind]. unfold random_split.
  replace (ts + (n - ts)) with n by lia. rewrite Z.eqb_refl.
  replace (ts - ts) with 0 by lia. replace (n - (n - ts)) with ts by lia.
  assert (Hn' : n = Z.of_nat (length indices)) by (unfold n; lia).
  assert (Hs : py_slice indices ts n = skipn (Z.to_nat ts) indices).
  { rewrite Hn'. apply py_slice_suffix. lia. }
  rewrite py_slice_prefix, Hs by lia. reflexivity.
Qed.

Lemma split_dataset_closed {A : Type} (indices : list nat) (dataset : list A) :
  Z.of_nat (length dataset) < 2 ^ 50 ->
  length indices = length dataset ->
  split_dataset indices dataset (Z.of_nat (length dataset)) =
  Ok (mkSubset dataset (firstn (Z.to_nat (4 * Z.of_nat (length dataset) / 5)) indices),
      mkSubset dataset (skipn (Z.to_nat (4 * Z.of_nat (length dataset) / 5)) indices)).
Proof.
  intros Hn Hlen.
  destruct (split_dataset_total indices dataset) as (ts & Hts & _ & Hsplit).
  { change (2 ^ 50) with 1125899906842624 in Hn.
    change (2 ^ 63) with 9223372036854775808. lia. }
  { exact Hlen. }
  rewrite train_size_closed in Hts by lia. inversion Hts; subst ts. exact Hsplit.
Qed.

(** C2: for a data set of [n] items the split yields a training subset of
    [int(n * .8)] items and a validation subset of the remaining
    [n - int(n * .8)], so the sizes add up to [n]; the integer is the floor
    of [4n/5] as long as binary64 carries the product exactly enough. *)
Theorem split_sizes (A : Type) (dataset : list A) (indices : list nat) :
  Z.of_nat (length dataset) < 2 ^ 63 ->
  length indices = length dataset ->
  exists ts training_dataset validation_dataset,
    train_size (Z.of_nat (length dataset)) = Ok ts /\
    split_dataset indices dataset (Z.of_nat (length dataset)) =
      Ok (training_dataset, validation_dataset) /\
    Z.of_nat (subset_len training_dataset) = ts /\
    Z.of_nat (subset_len validation_dataset) = Z.of_nat (length dataset) - ts /\
    (subset_len training_dataset + subset_len validation_dataset)%nat = length dataset /\
    (Z.of_nat (length dataset) < 2 ^ 50 -> ts = 4 * Z.of_nat (length dataset) / 5).
Proof.
  intros Hn Hlen.
  destruct (split_dataset_total indices dataset Hn Hlen) as (ts & Hts & [Hb _] & Hsplit).
  eexists ts, _, _. split; [exact Hts | ]. split; [exact Hsplit | ].
  unfold subset_len; cbn [sub_indices].
  rewrite length_firstn, length_skipn.
  split; [lia | ]. split; [lia | ]. split; [lia | ].
  intros Hsmall. rewrite train_size_closed in Hts by lia. inversion Hts. reflexivity.
Qed.

(** ** Label extraction *)

Lemma mapM_ok {A B : Type} (f : A -> result B) (g : A -> B) (l : list A) :
  (forall a, In a l -> f a = Ok (g a)) -> mapM f l = Ok (map g l).
Proof.
  induction l as [ | a t IH]; intros H; cbn [mapM map]; [reflexivity | ].
  rewrite (H a) by (left; reflexivity). cbn [bind].
  rewrite IH by (intros b Hb; apply H; right; exact Hb). reflexivity.
Qed.

Lemma existsb_eqb_In (x : string) (l : list string) :
  existsb (String.eqb x) l = true <-> In x l.
Proof.
  rewrite existsb_exists. split.
  - intros (y & Hy & E). apply String.eqb_eq in E. subst y. exact Hy.
  - intros H. exists x. split; [exact H | apply String.eqb_refl].
Qed.

Lemma names_unique_NoDup (l : list string) :
  names_unique l = true <-> NoDup l.
Proof.
  induction l as [ | x t IH]; cbn [names_unique].
  - split; [constructor | reflexivity].
  - rewrite andb_true_iff, negb_true_iff, IH. split.
    + intros [Hx Ht]. constructor; [ | exact Ht].
      intros Hin. apply existsb_eqb_In in Hin. congruence.
    + intros H. inversion H as [ | ? ? Hx Ht]; subst. split; [ | exact Ht].
      destruct (existsb (String.eqb x) t) eqn:E; [ | reflexivity].
      apply existsb_eqb_In in E. contradiction.
Qed.

Lemma filter_absent (x : string) (l : list string) :
  ~ In x l -> filter (fun y => negb (String.eqb y x)) l = l.
Proof.
  induction l as [ | y t IH]; intros H; cbn [filter]; [reflexivity | ].
  destruct (String.eqb y x) eqn:E.
  - apply String.eqb_eq in E. subst y. exfalso. apply H. left. reflexivity.
  - cbn [negb]. f_equal. apply IH. intros Hin. apply H. right. exact Hin.
Qed.

(** On a list without repetition, [remove] keeps exactly the other
    elements, in their order. *)
Lemma list_remove_filter (x : string) (l : list string) :
  NoDup l -> In x l ->
  list_remove x l = Ok (filter (fun y => negb (String.eqb y x)) l).
Proof.
  induction l as [ | y t IH]; intros Hnd Hin; [contradiction | ].
  inversion Hnd as [ | ? ? Hy Ht]; subst. cbn [list_remove filter].
  destruct (String.eqb y x) eqn:E.
  - apply String.eqb_eq in E. subst y. cbn [negb].
    rewrite filter_absent by assumption. reflexivity.
  - cbn [negb]. destruct Hin as [-> | Hin]; [rewrite String.eqb_refl in E; discriminate | ].
    rewrite IH by assumption. reflexivity.
Qed.

Lemma list_remove_absent (x : string) (l : list string) :
  ~ In x l -> list_remove x l = Raise ValueError.
Proof.
  induction l as [ | y t IH]; intros H; cbn [list_remove]; [reflexivity | ].
  destruct (String.eqb y x) eqn:E.
  - apply String.eqb_eq in E. subst y. exfalso. apply H. left. reflexivity.
  - rewrite IH by (intros Hin; apply H; right; exact Hin). reflexivity.
Qed.

Lemma filter_one_less (x : string) (l : list string) :
  NoDup l -> In x l ->
  length (filter (fun y => negb (String.eqb y x)) l) = (length l - 1)%nat.
Proof.
  induction l as [ | y t IH]; intros Hnd Hin; [contradiction | ].
  inversion Hnd as [ | ? ? Hy Ht]; subst. cbn [filter].
  destruct (String.eqb y x) eqn:E.
  - apply String.eqb_eq in E. subst y. cbn [negb length].
    rewrite filter_absent by assumption. lia.
  - cbn [negb length]. destruct Hin as [-> | Hin]; [rewrite String.eqb_refl in E; discriminate | ].
    rewrite IH by assumption. destruct t; [contradiction | cbn [length]; lia].
Qed.

Lemma assoc_get_in (n : string) (c : column) (cols : list (string * column)) :
  NoDup (map fst cols) -> In (n, c) cols -> assoc_get n cols = Ok c.
Proof.
  induction cols as [ | [m d] t IH]; intros Hnd Hin; [contradiction | ].
  cbn [map fst] in Hnd. inversion Hnd as [ | ? ? Hm Ht]; subst. cbn [assoc_get].
  destruct Hin as [E | Hin].
  - inversion E; subst. rewrite String.eqb_refl. reflexivity.
  - destruct (String.eqb n m) eqn:E.
    + apply String.eqb_eq in E. subst m. exfalso. apply Hm.
      apply (in_map fst) in Hin. exact Hin.
    + apply IH; assumption.
Qed.

Lemma filter_map_fst {B : Type} (p : string -> bool) (l : list (string * B)) :
  filter p (map fst l) = map fst (filter (fun nc => p (fst nc)) l).
Proof.
  induction l as [ | [n c] t IH]; cbn [map filter fst]; [reflexivity | ].
  destruct (p n); cbn [map fst]; rewrite IH; reflexivity.
Qed.

Lemma df_select_filter (p : string -> bool) (df : DataFrame) :
  NoDup (df_columns df) ->
  df_select (filter p (df_columns df)) df =
  Ok (mkDataFrame (df_len df) (filter (fun nc => p (fst nc)) (df_cols df))).
Proof.
  intros Hnd. unfold df_select, df_columns. rewrite filter_map_fst.
  set (sub := filter (fun nc => p (fst nc)) (df_cols df)).
  assert (H : mapM (fun n => c <- df_get n df ;; Ok (n, c)) (map fst sub) = Ok sub).
  { assert (Hsub : forall nc, In nc sub -> In nc (df_cols df)).
    { intros nc Hin. apply filter_In in Hin. apply Hin. }
    clearbody sub. induction sub as [ | [n c] t IH]; [reflexivity | ].
    cbn [map fst mapM]. unfold df_get at 1.
    rewrite (assoc_get_in n c) by (try assumption; apply Hsub; left; reflexivity).
    cbn [bind]. rewrite IH by (intros nc Hin; apply Hsub; right; exact Hin).
    reflexivity. }
  rewrite H. reflexivity.
Qed.

Lemma sample_table_facts (df : DataFrame) :
  sample_table df = true ->
  NoDup (df_columns df) /\ In "text"%string (df_columns df) /\
  (forall n c, In (n, c) (df_cols df) -> col_len c = df_len df) /\
  (forall n c, In (n, c) (df_cols df) -> is_text n = false -> exists v, c = IntCol v) /\
  (forall n c, In (n, c) (df_cols df) -> is_text n = true -> exists v, c = StrCol v).
Proof.
  unfold sample_table, df_wf. rewrite !andb_true_iff.
  intros [[[Hu Hl] Ht] Hc]. split; [apply names_unique_NoDup; exact Hu | ].
  split.
  - apply existsb_exists in Ht. destruct Ht as (n & Hn & E).
    apply String.eqb_eq in E. subst n. exact Hn.
  - rewrite forallb_forall in Hl, Hc. split; [ | split].
    + intros n c Hin. specialize (Hl _ Hin). apply Nat.eqb_eq in Hl. exact Hl.
    + intros n c Hin Hn. specialize (Hc _ Hin). cbn [fst snd] in Hc.
      rewrite Hn in Hc. destruct c as [v | v]; [discriminate | exists v; reflexivity].
    + intros n c Hin Hn. specialize (Hc _ Hin). cbn [fst snd] in Hc.
      rewrite Hn in Hc. destruct c as [v | v]; [exists v; reflexivity | discriminate].
Qed.

Lemma labels_closed (df : DataFrame) :
  sample_table df = true ->
  label_names df = Ok (map fst (label_columns df)) /\
  labels df =
    Ok (mkTensor (length (label_columns df))
          (map (fun i => map (fun c => nth i c 0) (map (fun nc => column_values (snd nc)) (label_columns df)))
               (seq 0 (df_len df)))).
Proof.
  intros Hst. destruct (sample_table_facts df Hst) as (Hnd & Hin & Hlen & Hint & _).
  assert (Hnames : label_names df = Ok (map fst (label_columns df))).
  { unfold label_names. rewrite list_remove_filter by assumption.
    unfold df_columns, label_columns. rewrite filter_map_fst. reflexivity. }
  split; [exact Hnames | ].
  assert (Hsel : df_select (map fst (label_columns df)) df =
                 Ok (mkDataFrame (df_len df) (label_columns df))).
  { unfold label_columns. rewrite <- (filter_map_fst (fun n => negb (is_text n))).
    apply df_select_filter. exact Hnd. }
  unfold labels. rewrite Hnames. cbn [bind]. rewrite Hsel. cbn [bind].
  unfold from_dlpack_to_dlpack. cbn [df_cols df_len].
  rewrite (mapM_ok _ (fun nc => column_values (snd nc))).
  - cbn [bind]. unfold type_long_of_int, tensor_map. cbn [ncols rows].
    rewrite length_map. f_equal. f_equal.
    rewrite map_map. apply map_ext. intros i. rewrite map_map.
    rewrite <- (map_id (map _ _)) at 1. rewrite map_map. reflexivity.
  - intros [n c] Hnc. apply filter_In in Hnc. destruct Hnc as [Hnc Hp].
    cbn [fst snd] in *. apply negb_true_iff in Hp.
    destruct (Hint n c Hnc Hp) as [v ->]. reflexivity.
Qed.

(** C1: on a sample table the label columns are exactly the columns other
    than [text], in their original order, and the label matrix has as many
    rows as the table and one column less than the table. *)
Theorem label_extraction (df : DataFrame) :
  sample_table df = true ->
  exists names t,
    label_names df = Ok names /\
    names = filter (fun n => negb (String.eqb n "text")) (df_columns df) /\
    labels df = Ok t /\
    shape t = (df_len df, (length (df_columns df) - 1)%nat) /\
    tensor_wf t.
Proof.
  intros Hst. destruct (sample_table_facts df Hst) as (Hnd & Hin & _).
  destruct (labels_closed df Hst) as [Hnames Hlab].
  assert (Hfilter : map fst (label_columns df) =
                    filter (fun n => negb (String.eqb n "text")) (df_columns df)).
  { unfold label_columns, df_columns. rewrite filter_map_fst. reflexivity. }
  eexists _, _. split; [exact Hnames | ]. split; [exact Hfilter | ].
  split; [exact Hlab | ].
  assert (Hcount : length (label_columns df) = (length (df_columns df) - 1)%nat).
  { rewrite <- (length_map fst), Hfilter. apply filter_one_less; assumption. }
  split.
  - unfold shape. cbn [rows ncols]. rewrite length_map, length_seq, Hcount. reflexivity.
  - unfold tensor_wf. cbn [rows ncols]. apply Forall_forall. intros r Hr.
    apply in_map_iff in Hr. destruct Hr as (i & <- & _).
    rewrite !length_map. reflexivity.
Qed.

(** Without a [text] column the extraction stops at [remove]. *)
Lemma label_names_missing_text (df : DataFrame) :
  ~ In "text"%string (df_columns df) -> label_names df = Raise ValueError.
Proof. intros H. apply list_remove_absent. exact H. Qed.

(** ** The tokenizer wrappers *)

Lemma flat_map_length_const {A B : Type} (f : A -> list B) (l : list A) (m : nat) :
  (forall a, In a l -> length (f a) = m) -> length (flat_map f l) = (length l * m)%nat.
Proof.
  induction l as [ | a t IH]; intros H; cbn [flat_map length]; [reflexivity | ].
  rewrite length_app, (H a) by (left; reflexivity).
  rewrite IH by (intros b Hb; apply H; right; exact Hb). lia.
Qed.

Lemma split_rows_length {A : Type} (n m : nat) (flat : list A) :
  length (split_rows n m flat) = n.
Proof.
  revert flat. induction n as [ | k IH]; intros flat; cbn [split_rows length];
    [reflexivity | rewrite IH; reflexivity].
Qed.

Lemma split_rows_wf {A : Type} (n m : nat) (flat : list A) :
  length flat = (n * m)%nat ->
  Forall (fun r => length r = m) (split_rows n m flat).
Proof.
  revert flat. induction n as [ | k IH]; intros flat H; cbn [split_rows]; constructor.
  - rewrite length_firstn. lia.
  - apply IH. rewrite length_skipn. lia.
Qed.

Lemma split_rows_flat_map {A B : Type} (f : A -> list B) (l : list A) (m : nat) :
  (forall a, In a l -> length (f a) = m) ->
  split_rows (length l) m (flat_map f l) = map f l.
Proof.
  induction l as [ | a t IH]; intros H; [reflexivity | ].
  cbn [length split_rows flat_map map].
  assert (Ha : length (f a) = m) by (apply H; left; reflexivity).
  rewrite firstn_app, skipn_app, Ha, Nat.sub_diag. cbn [firstn skipn].
  rewrite app_nil_r, firstn_all2, skipn_all2 by lia. cbn [app].
  rewrite IH by (intros b Hb; apply H; right; exact Hb). reflexivity.
Qed.

Lemma reshape_ok {A : Type} (flat : list A) (n m : nat) :
  length flat = (n * m)%nat ->
  exists t, reshape flat n m = Ok t /\ shape t = (n, m) /\ tensor_wf t.
Proof.
  intros H. unfold reshape. rewrite H, Nat.eqb_refl.
  eexists. split; [reflexivity | ]. split.
  - unfold shape. cbn [rows ncols]. rewrite split_rows_length. reflexivity.
  - unfold tensor_wf. cbn [rows ncols]. apply split_rows_wf. exact H.
Qed.

Lemma tensor_map_shape {A B : Type} (f : A -> B) (t : Tensor A) :
  shape (tensor_map f t) = shape t.
Proof. unfold shape, tensor_map. cbn [rows ncols]. rewrite length_map. reflexivity. Qed.

Lemma tensor_map_wf {A B : Type} (f : A -> B) (t : Tensor A) :
  tensor_wf t -> tensor_wf (tensor_map f t).
Proof.
  unfold tensor_wf, tensor_map. cbn [rows ncols]. intros H.
  apply Forall_map. apply Forall_impl with (2 := H).
  intros r Hr. rewrite length_map. exact Hr.
Qed.

Section TokenizerFacts.

Variable wordpiece : string -> bool -> string -> list Z.

Lemma subword_tokenize_lengths (hash_file : string) (max_length stride rows_hint : nat)
    (do_lower : bool) (strings : list string) :
  let '(token_ids, mask, _) :=
    subword_tokenize_truncate wordpiece hash_file max_length stride rows_hint do_lower strings in
  length token_ids = (length strings * max_length)%nat /\
  length mask = (length strings * max_length)%nat.
Proof.
  unfold subword_tokenize_truncate. split.
  - rewrite (flat_map_length_const _ _ max_length), length_map; [reflexivity | ].
    intros t Ht. apply in_map_iff in Ht. destruct Ht as (s & <- & _).
    rewrite length_app, repeat_length, length_firstn. lia.
  - rewrite (flat_map_length_const _ _ max_length), length_map; [reflexivity | ].
    intros t Ht. apply in_map_iff in Ht. destruct Ht as (s & <- & _).
    rewrite length_app, !repeat_length, length_firstn. lia.
Qed.

Lemma tokenizer_shape (hash_file : string) (do_lower : bool)
    (strings : list string) (seq_length : nat) :
  exists input_ids attention_mask,
    (let '(token_ids, mask, _) :=
       subword_tokenize_truncate wordpiece hash_file seq_length seq_length
         (length strings) do_lower strings in
     ids <- float_tensor token_ids (length strings) seq_length ;;
     att <- float_tensor mask (length strings) seq_length ;;
     Ok (type_long ids, type_long att))
    = Ok (input_ids, attention_mask) /\
    shape input_ids = (length strings, seq_length) /\
    shape attention_mask = (length strings, seq_length) /\
    tensor_wf input_ids /\ tensor_wf attention_mask.
Proof.
  pose proof (subword_tokenize_lengths hash_file seq_length seq_length
                (length strings) do_lower strings) as H.
  destruct (subword_tokenize_truncate wordpiece hash_file seq_length seq_length
              (length strings) do_lower strings) as [[token_ids mask] meta].
  destruct H as [Hi Hm].
  destruct (reshape_ok token_ids _ _ Hi) as (ti & Ei & Si & Wi).
  destruct (reshape_ok mask _ _ Hm) as (tm & Em & Sm & Wm).
  unfold float_tensor. rewrite Ei, Em. cbn [bind]. eexists _, _. split; [reflexivity | ].
  unfold type_long, astype_float. rewrite !tensor_map_shape.
  repeat split; try assumption; repeat apply tensor_map_wf; assumption.
Qed.

(** The rows a wrapper returns when the encoder's ids are 32-bit: the ids
    of each string cut at [seq_length] and padded with zeros, and a mask
    of ones over the ids. *)
Lemma tokenizer_rows (hash_file : string) (do_lower : bool)
    (strings : list string) (seq_length : nat) :
  (forall s, In s strings ->
     Forall (fun id => 0 <= id < 2 ^ 32) (wordpiece hash_file do_lower s)) ->
  let '(token_ids, mask, _) :=
    subword_tokenize_truncate wordpiece hash_file seq_length seq_length
      (length strings) do_lower strings in
  let cut := fun s => firstn seq_length (wordpiece hash_file do_lower s) in
  (ids <- float_tensor token_ids (length strings) seq_length ;;
   att <- float_tensor mask (length strings) seq_length ;;
   Ok (type_long ids, type_long att))
  = Ok (mkTensor seq_length
          (map (fun s => cut s ++ repeat 0 (seq_length - length (cut s))) strings),
        mkTensor seq_length
          (map (fun s => repeat 1 (length (cut s)) ++ repeat 0 (seq_length - length (cut s)))
               strings)).
Proof.
  intros Hids.
  pose proof (subword_tokenize_lengths hash_file seq_length seq_length
                (length strings) do_lower strings) as H.
  unfold subword_tokenize_truncate in *. destruct H as [Hi Hm].
  set (cut := fun s => firstn seq_length (wordpiece hash_file do_lower s)) in *.
  set (toks := map cut strings) in *.
  unfold float_tensor, reshape. rewrite Hi, Hm, Nat.eqb_refl. cbn [bind].
  unfold type_long, astype_float, tensor_map. cbn [rows ncols].
  rewrite <- (length_map cut strings). fold toks.
  assert (Hcut : forall t, In t toks -> (length t <= seq_length)%nat /\
                                         Forall (fun id => 0 <= id < 2 ^ 32) t).
  { intros t Ht. apply in_map_iff in Ht. destruct Ht as (s & <- & Hs). unfold cut. split.
    - rewrite length_firstn. lia.
    - apply Forall_forall. intros id Hid. apply in_firstn in Hid.
      specialize (Hids s Hs). rewrite Forall_forall in Hids. apply Hids. exact Hid. }
  assert (Hsmall : forall z, 0 <= z < 2 ^ 32 -> long_of_float (F64.of_Z z) = z).
  { intros z Hz. apply long_of_float_of_Z.
    change (2 ^ 32) with 4294967296 in Hz. change (2 ^ 53) with 9007199254740992. lia. }
  assert (Hround : forall l : list Z,
             Forall (fun id => 0 <= id < 2 ^ 32) l ->
             map long_of_float (map F64.of_Z l) = l).
  { intros l Hl. rewrite map_map. rewrite <- (map_id l) at 2.
    apply map_ext_in. intros z Hz. rewrite Forall_forall in Hl. apply Hsmall, Hl, Hz. }
  assert (Hbits : forall a b : nat, Forall (fun id => 0 <= id < 2 ^ 32) (repeat 1 a ++ repeat 0 b)).
  { intros a b. apply Forall_forall. intros z Hz. change (2 ^ 32) with 4294967296.
    apply in_app_or in Hz. destruct Hz as [Hz | Hz]; apply repeat_spec in Hz; subst z; lia. }
  rewrite !split_rows_flat_map.
  - unfold toks. rewrite !map_map.
    assert (H1 : map (fun s => map long_of_float (map F64.of_Z
                        (cut s ++ repeat 0 (seq_length - length (cut s))))) strings =
                 map (fun s => cut s ++ repeat 0 (seq_length - length (cut s))) strings).
    { apply map_ext_in. intros s Hs. apply Hround.
      destruct (Hcut (cut s)) as [_ Hr]; [apply in_map; exact Hs | ].
      apply Forall_app. split; [exact Hr | ].
      apply Forall_forall. intros z Hz. apply repeat_spec in Hz. subst z.
      change (2 ^ 32) with 4294967296. lia. }
    assert (H2 : map (fun s => map long_of_float (map F64.of_Z
                        (repeat 1 (length (cut s)) ++ repeat 0 (seq_length - length (cut s)))))
                     strings =
                 map (fun s => repeat 1 (length (cut s)) ++ repeat 0 (seq_length - length (cut s)))
                     strings).
    { apply map_ext_in. intros s Hs. apply Hround, Hbits. }
    rewrite H1, H2. reflexivity.
  - intros t Ht. destruct (Hcut t Ht) as [Hl _].
    rewrite length_app, !repeat_length. lia.
  - intros t Ht. destruct (Hcut t Ht) as [Hl _].
    rewrite length_app, repeat_length. lia.
Qed.

(** C3: for every sequence of strings and every sequence length, the cased
    and the uncased tokenizer both return an id tensor and a mask tensor of
    integers of shape (count, sequence length), whatever the length of the
    strings. *)
Theorem tokenizer_output_shape (strings : list string) (seq_length : nat) :
  (exists input_ids attention_mask : Tensor Z,
     bert_cased_tokenizer wordpiece strings seq_length = Ok (input_ids, attention_mask) /\
     shape input_ids = (length strings, seq_length) /\
     shape attention_mask = (length strings, seq_length) /\
     tensor_wf input_ids /\ tensor_wf attention_mask) /\
  (exists input_ids attention_mask : Tensor Z,
     bert_uncased_tokenizer wordpiece strings seq_length = Ok (input_ids, attention_mask) /\
     shape input_ids = (length strings, seq_length) /\
     shape attention_mask = (length strings, seq_length) /\
     tensor_wf input_ids /\ tensor_wf attention_mask).
Proof.
  split.
  - apply (tokenizer_shape "resources/bert-base-cased-hash.txt" false).
  - apply (tokenizer_shape "resources/bert-base-uncased-hash.txt" true).
Qed.

End TokenizerFacts.

(** ** The literals *)

Lemma literal_values :
  F64.div (F64.of_Z 8) (F64.of_Z 10) = F64.lit_0_8 /\
  F64.div (F64.of_Z 1) (F64.of_Z 2) = F64.lit_0_5 /\
  F64.div (F64.of_Z 1) (F64.of_Z 100) = F64.lit_0_01 /\
  F64.of_Z 0 = F64.lit_0_0.
Proof. repeat split; vm_compute; reflexivity. Qed.

(** ** The optimizer parameter groups *)

Lemma any_no_decay_spec (n : string) :
  any_no_decay n = contains "bias" n || contains "gamma" n || contains "beta" n.
Proof.
  unfold any_no_decay, no_decay. cbn [existsb].
  rewrite orb_false_r, orb_assoc. reflexivity.
Qed.

Lemma filter_partition_perm {A : Type} (p : A -> bool) (l : list A) :
  Permutation (filter (fun a => negb (p a)) l ++ filter p l) l.
Proof.
  induction l as [ | a t IH]; cbn [filter app]; [constructor | ].
  destruct (p a); cbn [negb app].
  - apply Permutation_sym, Permutation_cons_app, Permutation_sym, IH.
  - constructor. exact IH.
Qed.

Lemma value_names_agree {P : Type} (l : list (string * P)) (n n' : string) (p : P) :
  NoDup (map snd l) -> In (n, p) l -> In (n', p) l -> n' = n.
Proof.
  induction l as [ | [m q] t IH]; intros Hnd Hin Hin'; [contradiction | ].
  cbn [map snd] in Hnd. inversion Hnd as [ | ? ? Hq Ht]; subst.
  destruct Hin as [E1 | Hin], Hin' as [E2 | Hin'].
  - congruence.
  - inversion E1; subst. exfalso. apply Hq. apply (in_map snd) in Hin'. exact Hin'.
  - inversion E2; subst. exfalso. apply Hq. apply (in_map snd) in Hin. exact Hin.
  - apply IH; assumption.
Qed.

Example contains_examples :
  contains "bias" "bert.encoder.layer.0.attention.self.query.bias" = true /\
  contains "bias" "bert.embeddings.LayerNorm.weight" = false /\
  contains "beta" "alphabeta" = true /\
  contains "" "classifier.weight" = true.
Proof. repeat split; reflexivity. Qed.

(** C7: the grouping yields exactly two groups; the parameters whose name
    contains 'bias', 'gamma' or 'beta' form the group of rate 0.0, all
    others the group of rate 0.01; the two groups together hold every
    parameter once, and a parameter sits in the group its name selects
    and, when parameters are distinct, in no other. *)
Theorem parameter_groups (P : Type) (param_optimizer : list (string * P)) :
  exists decayed exempt,
    optimizer_grouped_parameters param_optimizer =
      [mkGroup decayed F64.lit_0_01; mkGroup exempt F64.lit_0_0] /\
    exempt = map snd (filter (fun np => contains "bias" (fst np) ||
                                        contains "gamma" (fst np) ||
                                        contains "beta" (fst np)) param_optimizer) /\
    decayed = map snd (filter (fun np => negb (contains "bias" (fst np) ||
                                               contains "gamma" (fst np) ||
                                               contains "beta" (fst np))) param_optimizer) /\
    Permutation (decayed ++ exempt) (map snd param_optimizer) /\
    (length decayed + length exempt)%nat = length param_optimizer /\
    (forall n p, In (n, p) param_optimizer ->
       if any_no_decay n
       then In p exempt /\ (NoDup (map snd param_optimizer) -> ~ In p decayed)
       else In p decayed /\ (NoDup (map snd param_optimizer) -> ~ In p exempt)).
Proof.
  eexists _, _. split; [reflexivity | ].
  split; [ | split].
  - f_equal. apply filter_ext. intros np. apply any_no_decay_spec.
  - f_equal. apply filter_ext. intros np. rewrite any_no_decay_spec. reflexivity.
  - assert (Hperm : Permutation
        (map snd (filter (fun np => negb (any_no_decay (fst np))) param_optimizer) ++
         map snd (filter (fun np => any_no_decay (fst np)) param_optimizer))
        (map snd param_optimizer)).
    { rewrite <- map_app. apply Permutation_map.
      apply (filter_partition_perm (fun np => any_no_decay (fst np))). }
    split; [exact Hperm | ]. split.
    + rewrite <- length_app, (Permutation_length Hperm), length_map. reflexivity.
    + intros n p Hin. destruct (any_no_decay n) eqn:E; split.
      * apply in_map_iff. exists (n, p). split; [reflexivity | ].
        apply filter_In. split; [exact Hin | exact E].
      * intros Hnd Hd. apply in_map_iff in Hd. destruct Hd as ([n' p'] & Hp & Hf).
        cbn [snd] in Hp. subst p'. apply filter_In in Hf. destruct Hf as [Hin' Hn'].
        cbn [fst] in Hn'. rewrite (value_names_agree _ _ _ _ Hnd Hin Hin'), E in Hn'.
        discriminate.
      * apply in_map_iff. exists (n, p). split; [reflexivity | ].
        apply filter_In. split; [exact Hin | cbn [fst]; rewrite E; reflexivity].
      * intros Hnd Hd. apply in_map_iff in Hd. destruct Hd as ([n' p'] & Hp & Hf).
        cbn [snd] in Hp. subst p'. apply filter_In in Hf. destruct Hf as [Hin' Hn'].
        cbn [fst] in Hn'. rewrite (value_names_agree _ _ _ _ Hnd Hin Hin'), E in Hn'.
        discriminate.
Qed.

(** ** The training loop *)

Lemma py_add_float (a : pynum) (fa v : F64.float) :
  py_float a = Ok fa -> py_add a (PyFloat v) = Ok (PyFloat (F64.add fa v)).
Proof.
  intros H. unfold py_add. destruct a as [z | f].
  - rewrite H. reflexivity.
  - cbn [py_float] in H. inversion H. reflexivity.
Qed.

Lemma py_truediv_by_zero (a : pynum) :
  py_truediv a (PyInt 0) = Raise ZeroDivisionError.
Proof. reflexivity. Qed.

Lemma py_truediv_float_int (f : F64.float) (n : Z) :
  0 < n < 2 ^ 63 ->
  py_truediv (PyFloat f) (PyInt n) = Ok (F64.div f (F64.of_Z n)).
Proof.
  intros Hn. unfold py_truediv. cbn [py_is_zero].
  destruct (n =? 0) eqn:E; [apply Z.eqb_eq in E; lia | ].
  change (py_float (PyFloat f)) with (Ok f). cbn [bind].
  rewrite py_float_int by lia. reflexivity.
Qed.

Section TrainingFacts.

Variable Net : Type.
Variable zero_grad : Net -> Net.
Variable forward : Net -> list (list Z) -> list (list Z) -> list (list F32.float).
Variable backward : Net -> list F32.float -> Net.
Variable optimizer_step : Net -> Net.
Variable loss_func : nat -> list (list F32.float) -> list (list Z) -> F32.float.
Variable tensor_mean : list F32.float -> F32.float.
Variable n_gpu : Z.
Variable num_labels : nat.

Local Abbreviation step := (train_step Net zero_grad forward backward optimizer_step
                          loss_func tensor_mean n_gpu num_labels).
Local Abbreviation epoch := (train_epoch Net zero_grad forward backward optimizer_step
                           loss_func tensor_mean n_gpu num_labels).
Local Abbreviation losses := (epoch_losses Net zero_grad forward backward optimizer_step
                            loss_func tensor_mean n_gpu num_labels).
Local Abbreviation model_after := (epoch_model Net zero_grad forward backward optimizer_step
                                 loss_func tensor_mean n_gpu num_labels).
Local Abbreviation reduce := (reduce_loss tensor_mean n_gpu).

Lemma reduce_loss_single (x : F32.float) : exists y, reduce [x] = [y].
Proof.
  unfold reduce_loss. destruct (1 <? n_gpu); eexists; reflexivity.
Qed.

(** One pass of the loop body, spelled out. *)
Lemma train_step_unfold (model : Net) (tk : tracking) (batch : list sample) :
  exists y,
    reduce [loss_func num_labels
              (forward (zero_grad model) (fst (fst (unpack batch))) (snd (fst (unpack batch))))
              (snd (unpack batch))] = [y] /\
    step (model, tk) batch =
      (tr <- py_add (tr_loss tk) (PyFloat (F32.to_F64 y)) ;;
       Ok (optimizer_step (backward (zero_grad model) [y]),
           mkTracking tr
             (nb_tr_examples tk + Z.of_nat (length (fst (fst (unpack batch)))))
             (nb_tr_steps tk + 1))).
Proof.
  unfold train_step.
  destruct (unpack batch) as [[b_input_ids b_input_mask] b_labels]. cbn [fst snd].
  destruct (reduce_loss_single
              (loss_func num_labels (forward (zero_grad model) b_input_ids b_input_mask) b_labels))
    as [y Hy].
  exists y. split; [exact Hy | ]. rewrite Hy. reflexivity.
Qed.

(** The batch loop from any tracking state whose running loss converts to
    a float: it runs to the end, counts one step per batch, and its running
    loss is the left-to-right sum of the per-batch loss values. *)
Lemma batch_loop_invariant (batches : list (list sample)) :
  forall (model : Net) (tk : tracking) (f0 : F64.float),
    py_float (tr_loss tk) = Ok f0 ->
    exists tr examples,
      foldM (fun acc v => py_add acc (PyFloat v)) (losses model batches) (tr_loss tk) = Ok tr /\
      py_float tr = Ok (fold_left F64.add (losses model batches) f0) /\
      (batches <> [] -> tr = PyFloat (fold_left F64.add (losses model batches) f0)) /\
      length (losses model batches) = length batches /\
      foldM step batches (model, tk) =
        Ok (model_after model batches,
            mkTracking tr examples (nb_tr_steps tk + Z.of_nat (length batches))).
Proof.
  induction batches as [ | batch rest IH]; intros model tk f0 Hf0.
  - exists (tr_loss tk), (nb_tr_examples tk). cbn [epoch_losses foldM fold_left length epoch_model].
    split; [reflexivity | ]. split; [exact Hf0 | ].
    split; [intros H; contradiction | ]. split; [reflexivity | ].
    rewrite Z.add_0_r. destruct tk; reflexivity.
  - destruct (train_step_unfold model tk batch) as (y & Hy & Hstep).
    cbn [foldM]. rewrite Hstep. clear Hstep.
    cbn [epoch_losses epoch_model].
    destruct (unpack batch) as [[b_input_ids b_input_mask] b_labels]. cbn [fst snd] in *.
    rewrite Hy. cbn [foldM fold_left length].
    rewrite (py_add_float _ _ _ Hf0). cbn [bind].
    destruct (IH (optimizer_step (backward (zero_grad model) [y]))
                (mkTracking (PyFloat (F64.add f0 (F32.to_F64 y)))
                   (nb_tr_examples tk + Z.of_nat (length b_input_ids))
                   (nb_tr_steps tk + 1))
                (F64.add f0 (F32.to_F64 y)) eq_refl)
      as (tr & examples & Hsum & Hfl & Hne & Hlen & Hrun).
    cbn [tr_loss nb_tr_steps] in Hsum, Hrun. exists tr, examples.
    split; [exact Hsum | ]. split; [exact Hfl | ]. split.
    + intros _. destruct rest as [ | b r].
      * cbn [epoch_losses foldM] in Hsum. inversion Hsum. reflexivity.
      * apply Hne. discriminate.
    + split; [rewrite Hlen; reflexivity | ].
      rewrite Hrun. do 3 f_equal. lia.
Qed.

(** An epoch with at least one batch, in closed form. *)
Lemma train_epoch_closed (model : Net) (batches : list (list sample)) :
  batches <> [] ->
  Z.of_nat (length batches) < 2 ^ 63 ->
  length (losses model batches) = length batches /\
  py_sum (losses model batches) =
    Ok (PyFloat (fold_left F64.add (losses model batches) (F64.of_Z 0))) /\
  epoch model batches =
    Ok (model_after model batches,
        F64.div (fold_left F64.add (losses model batches) (F64.of_Z 0))
                (F64.of_Z (Z.of_nat (length batches)))).
Proof.
  intros Hne Hlen.
  destruct (batch_loop_invariant batches model (mkTracking (PyInt 0) 0 0) (F64.of_Z 0) eq_refl)
    as (tr & examples & Hsum & _ & Htr & Hl & Hrun).
  specialize (Htr Hne). cbn [tr_loss nb_tr_steps] in *.
  assert (Hpos : 0 < Z.of_nat (length batches)).
  { destruct batches; [contradiction | cbn [length]; lia]. }
  split; [exact Hl | ]. split; [unfold py_sum; rewrite Hsum, Htr; reflexivity | ].
  unfold train_epoch. rewrite Hrun. cbn [bind tr_loss nb_tr_steps].
  rewrite Htr, Z.add_0_l, py_truediv_float_int by lia. reflexivity.
Qed.

(** C6: in an epoch with at least one batch, the reported value is the sum
    of the per-batch loss values of that epoch, accumulated as Python's
    [sum] does, divided by the number of batches processed. *)
Theorem epoch_report_is_mean (model : Net) (batches : list (list sample)) :
  batches <> [] ->
  Z.of_nat (length batches) < 2 ^ 63 ->
  exists total report,
    length (losses model batches) = length batches /\
    py_sum (losses model batches) = Ok total /\
    py_truediv total (PyInt (Z.of_nat (length batches))) = Ok report /\
    epoch model batches = Ok (model_after model batches, report).
Proof.
  intros Hne Hlen.
  destruct (train_epoch_closed model batches Hne Hlen) as (Hl & Hsum & Hrun).
  assert (Hpos : 0 < Z.of_nat (length batches)).
  { destruct batches; [contradiction | cbn [length]; lia]. }
  eexists _, _. split; [exact Hl | ]. split; [exact Hsum | ].
  split; [apply py_truediv_float_int; lia | exact Hrun].
Qed.

(** An epoch without a batch fails at the report. *)
Lemma empty_epoch_fails (model : Net) :
  epoch model [] = Raise ZeroDivisionError.
Proof. reflexivity. Qed.

(** C8: the loss handed to the backward step is the mean of the loss tensor
    when more than one device is detected, and the loss tensor itself when
    at most one is. *)
Theorem loss_reduction_before_backward (model : Net) (tk : tracking) (batch : list sample) :
  exists reduced : list F32.float,
    let loss := [loss_func num_labels
                   (forward (zero_grad model) (fst (fst (unpack batch))) (snd (fst (unpack batch))))
                   (snd (unpack batch))] in
    (1 < n_gpu -> reduced = [tensor_mean loss]) /\
    (n_gpu <= 1 -> reduced = loss) /\
    exists v, item reduced = Ok v /\
      step (model, tk) batch =
        (tr <- py_add (tr_loss tk) (PyFloat v) ;;
         Ok (optimizer_step (backward (zero_grad model) reduced),
             mkTracking tr
               (nb_tr_examples tk + Z.of_nat (length (fst (fst (unpack batch)))))
               (nb_tr_steps tk + 1))).
Proof.
  destruct (train_step_unfold model tk batch) as (y & Hy & Hstep).
  exists [y]. cbn zeta. unfold reduce_loss in Hy. split; [ | split].
  - intros H. apply Z.ltb_lt in H. rewrite H in Hy. symmetry. exact Hy.
  - intros H. destruct (1 <? n_gpu) eqn:E; [apply Z.ltb_lt in E; lia | ].
    symmetry. exact Hy.
  - exists (F32.to_F64 y). split; [reflexivity | exact Hstep].
Qed.

End TrainingFacts.

(** ** Batching and the loaders *)

Lemma batched_fuel_concat {A : Type} (batch_size : nat) :
  (0 < batch_size)%nat ->
  forall (fuel : nat) (l : list A),
    (length l <= fuel)%nat -> concat (batched_fuel fuel batch_size l) = l.
Proof.
  intros Hb. induction fuel as [ | f IH]; intros l Hl.
  - destruct l; [reflexivity | cbn [length] in Hl; lia].
  - destruct l as [ | a t]; [reflexivity | ].
    cbn [batched_fuel concat]. rewrite IH.
    + apply firstn_skipn.
    + rewrite length_skipn. cbn [length] in *. lia.
Qed.

Lemma batched_concat {A : Type} (batch_size : nat) (l : list A) :
  (0 < batch_size)%nat -> concat (batched batch_size l) = l.
Proof. intros Hb. apply batched_fuel_concat; [exact Hb | apply Nat.le_refl]. Qed.

Lemma batched_nonempty {A : Type} (batch_size : nat) (l : list A) :
  l <> [] -> batched batch_size l <> [].
Proof.
  unfold batched. destruct l as [ | a t]; [intros H; contradiction | ].
  intros _. cbn [length batched_fuel]. discriminate.
Qed.

Lemma batched_fuel_length {A : Type} (batch_size : nat) :
  (0 < batch_size)%nat ->
  forall (fuel : nat) (l : list A),
    (length (batched_fuel fuel batch_size l) <= length l)%nat.
Proof.
  intros Hb. induction fuel as [ | f IH]; intros l; [cbn; lia | ].
  destruct l as [ | a t]; [cbn; lia | ].
  cbn [batched_fuel length]. specialize (IH (skipn batch_size (a :: t))).
  rewrite length_skipn in IH. cbn [length] in IH. lia.
Qed.

Lemma batched_in {A : Type} (batch_size : nat) (l b : list A) (x : A) :
  (0 < batch_size)%nat -> In b (batched batch_size l) -> In x b -> In x l.
Proof.
  intros Hb Hin Hx. rewrite <- (batched_concat batch_size l Hb).
  apply in_concat. exists b. split; assumption.
Qed.

Lemma map_nth_range {A : Type} (d : A) (l : list A) :
  map (fun k => nth k l d) (seq 0 (length l)) = l.
Proof.
  induction l as [ | a t IH]; [reflexivity | ].
  cbn [length seq map nth]. f_equal.
  rewrite <- seq_shift, map_map. exact IH.
Qed.

Lemma permutation_of_range_bound (l : list nat) (n : nat) :
  Permutation l (seq 0 n) -> Forall (fun i => (i < n)%nat) l.
Proof.
  intros H. apply Forall_forall. intros i Hi.
  apply (Permutation_in _ H) in Hi. apply in_seq in Hi. lia.
Qed.

Lemma subset_getitem_ok {A : Type} (d : A) (s : Subset A) (k : nat) :
  (k < subset_len s)%nat ->
  Forall (fun i => (i < length (sub_dataset s))%nat) (sub_indices s) ->
  subset_getitem s k = Ok (nth (nth k (sub_indices s) 0%nat) (sub_dataset s) d).
Proof.
  unfold subset_len, subset_getitem. intros Hk Hall.
  rewrite (nth_error_nth' _ 0%nat Hk).
  assert (Hi : (nth k (sub_indices s) 0 < length (sub_dataset s))%nat).
  { rewrite Forall_forall in Hall. apply Hall. apply nth_In. exact Hk. }
  rewrite (nth_error_nth' _ d Hi). reflexivity.
Qed.

(** A loader over valid indices fetches every batch. *)
Lemma DataLoader_ok {A : Type} (d : A) (order : list nat) (batch_size : nat) (s : Subset A) :
  (0 < batch_size)%nat ->
  Forall (fun k => (k < subset_len s)%nat) order ->
  Forall (fun i => (i < length (sub_dataset s))%nat) (sub_indices s) ->
  DataLoader order batch_size s =
  Ok (map (map (fun k => nth (nth k (sub_indices s) 0%nat) (sub_dataset s) d))
          (batched batch_size order)).
Proof.
  intros Hb Hord Hidx. unfold DataLoader. apply mapM_ok.
  intros b Hbin. apply mapM_ok. intros k Hk.
  apply subset_getitem_ok; [ | exact Hidx].
  rewrite Forall_forall in Hord. apply Hord. eapply batched_in; eassumption.
Qed.

(** The training loader cannot be built over an empty subset; over any
    other it is the loader iterated in the sampler's order. *)
Lemma train_dataloader_empty (order : list nat) (training_dataset : Subset sample) :
  subset_len training_dataset = 0%nat ->
  train_dataloader order training_dataset = Raise ValueError.
Proof. intros H. unfold train_dataloader, RandomSampler. rewrite H. reflexivity. Qed.

Lemma train_dataloader_nonempty (order : list nat) (training_dataset : Subset sample) :
  (1 <= subset_len training_dataset)%nat ->
  train_dataloader order training_dataset = DataLoader order 32 training_dataset.
Proof.
  intros H. unfold train_dataloader, RandomSampler.
  destruct (subset_len training_dataset); [lia | reflexivity].
Qed.

Lemma train_dataloader_ok (order : list nat) (training_dataset : Subset sample) :
  Forall (fun i => (i < length (sub_dataset training_dataset))%nat)
         (sub_indices training_dataset) ->
  Permutation order (seq 0 (subset_len training_dataset)) ->
  (1 <= subset_len training_dataset)%nat ->
  exists batches,
    train_dataloader order training_dataset = Ok batches /\
    (length batches <= subset_len training_dataset)%nat /\
    batches <> [].
Proof.
  intros Hidx Hord Hpos.
  assert (Hlo : length order = subset_len training_dataset).
  { rewrite (Permutation_length Hord). apply length_seq. }
  rewrite train_dataloader_nonempty by exact Hpos.
  eexists. split.
  - apply (@DataLoader_ok sample ([], [], [])); [lia | | exact Hidx].
    apply permutation_of_range_bound. exact Hord.
  - rewrite length_map. split.
    + rewrite <- Hlo. apply batched_fuel_length. lia.
    + intros Hnil. apply map_eq_nil in Hnil. revert Hnil.
      apply batched_nonempty. destruct order; [cbn [length] in Hlo; lia | discriminate].
Qed.

Section EpochDivision.

Variable Net : Type.
Variable zero_grad : Net -> Net.
Variable forward : Net -> list (list Z) -> list (list Z) -> list (list F32.float).
Variable backward : Net -> list F32.float -> Net.
Variable optimizer_step : Net -> Net.
Variable loss_func : nat -> list (list F32.float) -> list (list Z) -> F32.float.
Variable tensor_mean : list F32.float -> F32.float.
Variable n_gpu : Z.
Variable num_labels : nat.

Local Abbreviation epoch := (train_epoch Net zero_grad forward backward optimizer_step
                               loss_func tensor_mean n_gpu num_labels).
Local Abbreviation loop_from := (train_loop_from Net zero_grad forward backward optimizer_step
                                   loss_func tensor_mean n_gpu num_labels).
Local Abbreviation loop := (train_loop Net zero_grad forward backward optimizer_step
                              loss_func tensor_mean n_gpu num_labels).

(** With a training subset that is not empty every epoch reports. *)
Lemma train_loop_from_ok (training_dataset : Subset sample) (orders : nat -> list nat) :
  Forall (fun i => (i < length (sub_dataset training_dataset))%nat)
         (sub_indices training_dataset) ->
  (1 <= subset_len training_dataset)%nat ->
  Z.of_nat (subset_len training_dataset) < 2 ^ 63 ->
  (forall k, Permutation (orders k) (seq 0 (subset_len training_dataset))) ->
  forall (todo k : nat) (model : Net),
    exists model' reports,
      loop_from k todo model training_dataset orders = Ok (model', reports) /\
      length reports = todo.
Proof.
  intros Hidx Hpos Hsmall Hord. induction todo as [ | todo IH]; intros k model.
  - eexists _, _. split; reflexivity.
  - destruct (train_dataloader_ok (orders k) training_dataset Hidx (Hord k) Hpos)
      as (batches & Hload & Hle & Hne).
    destruct (train_epoch_closed Net zero_grad forward backward optimizer_step
                loss_func tensor_mean n_gpu num_labels model batches Hne)
      as (_ & _ & Hrun); [lia | ].
    cbn [train_loop_from]. rewrite Hload. cbn [bind]. rewrite Hrun. cbn [bind].
    destruct (IH (S k) (epoch_model Net zero_grad forward backward optimizer_step
                          loss_func tensor_mean n_gpu num_labels model batches))
      as (model' & reports & Hrest & Hlen).
    rewrite Hrest. cbn [bind]. eexists _, _. split; [reflexivity | ].
    cbn [length]. rewrite Hlen. reflexivity.
Qed.

(** C10, as amended: the report divides by the step count unguarded, and
    an epoch over no batch would raise [ZeroDivisionError].  Whenever
    [int(n * .8)] is at least 1, at least one batch runs in every epoch and
    every report is computed.  When it is 0, as for a single-item data set,
    the division is never reached: the training loader cannot be built over
    the empty subset, and the run stops with [ValueError]. *)
Theorem epoch_report_division (dataset : list sample) (indices : list nat)
    (orders : nat -> list nat) (model : Net) (ts : Z) :
  Z.of_nat (length dataset) < 2 ^ 63 ->
  Permutation indices (seq 0 (length dataset)) ->
  train_size (Z.of_nat (length dataset)) = Ok ts ->
  (forall k, Permutation (orders k) (seq 0 (Z.to_nat ts))) ->
  exists training_dataset validation_dataset,
    split_dataset indices dataset (Z.of_nat (length dataset)) =
      Ok (training_dataset, validation_dataset) /\
    Z.of_nat (subset_len training_dataset) = ts /\
    (1 <= ts ->
       exists batches,
         train_dataloader (orders 0%nat) training_dataset = Ok batches /\
         batches <> [] /\
         (exists model' report, epoch model batches = Ok (model', report)) /\
         (exists model' reports,
            loop model training_dataset orders = Ok (model', reports) /\
            length reports = epochs)) /\
    (ts = 0 ->
       train_dataloader (orders 0%nat) training_dataset = Raise ValueError /\
       loop model training_dataset orders = Raise ValueError) /\
    epoch model [] = Raise ZeroDivisionError /\
    train_size 1 = Ok 0.
Proof.
  intros Hn Hperm Hts Hord.
  assert (Hlen : length indices = length dataset).
  { rewrite (Permutation_length Hperm). apply length_seq. }
  destruct (split_dataset_total indices dataset Hn Hlen) as (ts' & Hts' & [Hb _] & Hsplit).
  rewrite Hts in Hts'. inversion Hts'; subst ts'. clear Hts'.
  set (n := Z.of_nat (length dataset)) in *.
  set (t := Z.to_nat ts) in *.
  pose (training := mkSubset dataset (firstn t indices)).
  assert (Hsl : subset_len training = t).
  { unfold subset_len, training. cbn [sub_indices]. rewrite length_firstn. lia. }
  assert (Hidx : Forall (fun i => (i < length (sub_dataset training))%nat)
                        (sub_indices training)).
  { cbn [training sub_indices sub_dataset].
    apply Forall_forall. intros i Hi. apply in_firstn in Hi.
    pose proof (permutation_of_range_bound _ _ Hperm) as Hall.
    rewrite Forall_forall in Hall. apply Hall. exact Hi. }
  assert (Hord' : forall k, Permutation (orders k) (seq 0 (subset_len training))).
  { intros k. rewrite Hsl. apply Hord. }
  assert (Hsmall : Z.of_nat (subset_len training) < 2 ^ 63) by (rewrite Hsl; lia).
  exists training, (mkSubset dataset (skipn t indices)).
  split; [exact Hsplit | ].
  split; [rewrite Hsl; unfold t; lia | ].
  split; [ | split; [ | split]].
  - intros Hpos1. assert (Hpos : (1 <= subset_len training)%nat) by (rewrite Hsl; lia).
    destruct (train_dataloader_ok (orders 0%nat) training Hidx (Hord' 0%nat) Hpos)
      as (batches & Hload & Hle & Hne).
    exists batches. split; [exact Hload | ]. split; [exact Hne | ]. split.
    + destruct (train_epoch_closed Net zero_grad forward backward optimizer_step
                  loss_func tensor_mean n_gpu num_labels model batches Hne)
        as (_ & _ & Hrun); [lia | ].
      eexists _, _. exact Hrun.
    + apply (train_loop_from_ok training orders Hidx Hpos Hsmall Hord').
  - intros Hz0. assert (Hz : subset_len training = 0%nat) by (rewrite Hsl; lia).
    pose proof (train_dataloader_empty (orders 0%nat) training Hz) as Hload.
    split; [exact Hload | ].
    unfold train_loop, epochs. cbn [train_loop_from]. rewrite Hload. reflexivity.
  - reflexivity.
  - apply (train_size_closed 1). lia.
Qed.

End EpochDivision.

(** ** Evaluation *)

Lemma threshold_float32 :
  F32.of_F64 threshold = S754_finite false 8388608 (-24).
Proof. vm_compute. reflexivity. Qed.

Lemma unpack_concat (batches : list (list sample)) :
  concat (map (fun b => snd (unpack b)) batches) = map snd (concat batches).
Proof.
  induction batches as [ | b t IH]; [reflexivity | ].
  cbn [map concat]. rewrite map_app, IH. reflexivity.
Qed.

Section EvaluationFacts.

Variable Net : Type.
Variable forward : Net -> list (list Z) -> list (list Z) -> list (list F32.float).
Variable sigmoid : F32.float -> F32.float.

Local Abbreviation logits_of model :=
  (fun b : list sample => forward model (fst (fst (unpack b))) (snd (fst (unpack b)))).

(** The three lists after the prediction loop, from any starting lists. *)
Lemma predict_fold (model : Net) (batches : list (list sample)) (acc : gathered) :
  fold_left (predict_step Net forward sigmoid model) batches acc =
  mkGathered
    (logit_preds acc ++ concat (map (logits_of model) batches))
    (true_labels acc ++ concat (map (fun b => snd (unpack b)) batches))
    (pred_labels acc ++ map (map sigmoid) (concat (map (logits_of model) batches))).
Proof.
  revert acc. induction batches as [ | b t IH]; intros acc.
  - cbn [fold_left map concat]. rewrite !app_nil_r. destruct acc; reflexivity.
  - cbn [fold_left map concat]. rewrite IH. unfold predict_step.
    destruct (unpack b) as [[b_input_ids b_input_mask] b_labels].
    cbn [logit_preds true_labels pred_labels fst snd].
    rewrite map_app, <- !app_assoc. reflexivity.
Qed.

Lemma predict_closed (model : Net) (batches : list (list sample)) :
  predict Net forward sigmoid model batches =
  mkGathered
    (concat (map (logits_of model) batches))
    (map snd (concat batches))
    (map (map sigmoid) (concat (map (logits_of model) batches))).
Proof.
  unfold predict. rewrite predict_fold. cbn [logit_preds true_labels pred_labels app].
  rewrite unpack_concat. reflexivity.
Qed.


(** The batches of a mapped list are the mapped batches. *)
Lemma batched_fuel_map {A B : Type} (f : A -> B) (batch_size : nat) :
  forall (fuel : nat) (l : list A),
    batched_fuel fuel batch_size (map f l) = map (map f) (batched_fuel fuel batch_size l).
Proof.
  induction fuel as [ | fuel IH]; intros l; [reflexivity | ].
  destruct l as [ | a t]; [reflexivity | ].
  change (batched_fuel (S fuel) batch_size (map f (a :: t)))
    with (firstn batch_size (map f (a :: t)) ::
          batched_fuel fuel batch_size (skipn batch_size (map f (a :: t)))).
  change (batched_fuel (S fuel) batch_size (a :: t))
    with (firstn batch_size (a :: t) :: batched_fuel fuel batch_size (skipn batch_size (a :: t))).
  rewrite firstn_map, skipn_map, IH. reflexivity.
Qed.

Lemma batched_map {A B : Type} (f : A -> B) (batch_size : nat) (l : list A) :
  batched batch_size (map f l) = map (map f) (batched batch_size l).
Proof. unfold batched. rewrite length_map. apply batched_fuel_map. Qed.

(** The validation loader cuts the subset, taken in order, into batches of 64. *)
Lemma val_dataloader_batches (validation_dataset : Subset sample) :
  Forall (fun i => (i < length (sub_dataset validation_dataset))%nat)
         (sub_indices validation_dataset) ->
  val_dataloader validation_dataset =
    Ok (batched 64 (map (fun i => nth i (sub_dataset validation_dataset) ([], [], []))
                        (sub_indices validation_dataset))).
Proof.
  intros Hidx. unfold val_dataloader.
  rewrite (@DataLoader_ok sample ([], [], [])); [ | lia | | exact Hidx].
  - rewrite <- batched_map. f_equal. f_equal.
    rewrite <- (map_map (fun k => nth k (sub_indices validation_dataset) 0%nat)
                        (fun i => nth i (sub_dataset validation_dataset) ([], [], []))).
    unfold sequential_order, subset_len. rewrite map_nth_range. reflexivity.
  - unfold sequential_order. apply Forall_forall. intros k Hk. apply in_seq in Hk. lia.
Qed.

(** With a head of width [w], the forward passes over the batches give one
    row of [w] logits per sample. *)
Lemma prediction_rows (model : Net) (w : nat) (batches : list (list sample)) :
  head_shape Net forward model w ->
  length (concat (map (logits_of model) batches)) = length (concat batches) /\
  Forall (fun r => length r = w) (concat (map (logits_of model) batches)).
Proof.
  intros Hfw. induction batches as [ | b t [IHl IHw]]; [split; [reflexivity | constructor] | ].
  cbn [map concat]. destruct (Hfw (fst (fst (unpack b))) (snd (fst (unpack b)))) as [Hl Hw].
  split.
  - rewrite !length_app, Hl, IHl. unfold unpack. cbn [fst]. rewrite length_map. reflexivity.
  - apply Forall_app. split; assumption.
Qed.

(** C4: the validation samples, taken in subset order, are cut into
    batches of 64; the logits are the forward passes of the network on
    these batches; for every one of them the boolean prediction is the
    comparison of the sigmoid of the logit against the threshold 0.5, and
    the ground-truth boolean is the test [label == 1] on the label the
    sample carries.  When the head returns one row per sample, predictions
    and ground truth have one row for every validation sample. *)
Theorem evaluator_thresholding (model : Net) (validation_dataset : Subset sample) :
  Forall (fun i => (i < length (sub_dataset validation_dataset))%nat)
         (sub_indices validation_dataset) ->
  exists batches,
    val_dataloader validation_dataset = Ok batches /\
    batches =
      batched 64 (map (fun i => nth i (sub_dataset validation_dataset) ([], [], []))
                      (sub_indices validation_dataset)) /\
    logit_preds (predict Net forward sigmoid model batches) =
      concat (map (fun b => forward model (map (fun s => fst (fst s)) b)
                                          (map (fun s => snd (fst s)) b))
                  batches) /\
    pred_labels (predict Net forward sigmoid model batches) =
      map (map sigmoid) (logit_preds (predict Net forward sigmoid model batches)) /\
    pred_bools (pred_labels (predict Net forward sigmoid model batches)) =
      map (map (fun logit => F32.ltb (F32.of_F64 F64.lit_0_5) (sigmoid logit)))
          (logit_preds (predict Net forward sigmoid model batches)) /\
    pred_bools (pred_labels (predict Net forward sigmoid model batches)) =
      map (map (fun logit => F32.ltb (F32.of_F64 F64.lit_0_5) (sigmoid logit)))
          (concat (map (fun b => forward model (map (fun s => fst (fst s)) b)
                                               (map (fun s => snd (fst s)) b))
                       batches)) /\
    true_labels (predict Net forward sigmoid model batches) =
      map (fun i => snd (nth i (sub_dataset validation_dataset) ([], [], [])))
          (sub_indices validation_dataset) /\
    true_bools (true_labels (predict Net forward sigmoid model batches)) =
      map (fun i => map (fun label => label =? 1)
                        (snd (nth i (sub_dataset validation_dataset) ([], [], []))))
          (sub_indices validation_dataset) /\
    (forall w, head_shape Net forward model w ->
       length (pred_bools (pred_labels (predict Net forward sigmoid model batches))) =
         subset_len validation_dataset /\
       length (true_bools (true_labels (predict Net forward sigmoid model batches))) =
         subset_len validation_dataset /\
       Forall (fun r => length r = w)
              (pred_bools (pred_labels (predict Net forward sigmoid model batches)))).
Proof.
  intros Hidx. pose proof (val_dataloader_batches validation_dataset Hidx) as Hload.
  set (samples := map (fun i => nth i (sub_dataset validation_dataset) ([], [], []))
                      (sub_indices validation_dataset)) in *.
  assert (Hcat : concat (batched 64 samples) = samples) by (apply batched_concat; lia).
  exists (batched 64 samples). split; [exact Hload | ]. split; [reflexivity | ].
  rewrite predict_closed. cbn [pred_labels logit_preds true_labels].
  change (fun b : list sample =>
            forward model (map (fun s => fst (fst s)) b) (map (fun s => snd (fst s)) b))
    with (logits_of model).
  assert (Hpb : pred_bools (map (map sigmoid) (concat (map (logits_of model) (batched 64 samples)))) =
                map (map (fun logit => F32.ltb (F32.of_F64 F64.lit_0_5) (sigmoid logit)))
                    (concat (map (logits_of model) (batched 64 samples)))).
  { unfold pred_bools. rewrite map_map. apply map_ext. intros r.
    rewrite map_map. reflexivity. }
  split; [reflexivity | ]. split; [reflexivity | ].
  split; [exact Hpb | ]. split; [exact Hpb | ].
  rewrite Hcat. unfold samples. rewrite map_map.
  split; [reflexivity | ]. split; [unfold true_bools; rewrite map_map; reflexivity | ].
  intros w Hw. destruct (prediction_rows model w (batched 64 samples) Hw) as [Hl Hwd].
  rewrite Hcat in Hl. unfold samples in Hl. rewrite length_map in Hl.
  unfold pred_bools, true_bools, subset_len. rewrite !length_map. split; [exact Hl | ].
  split; [reflexivity | ].
  rewrite map_map. apply Forall_map. revert Hwd. apply Forall_impl. intros r Hr.
  rewrite !length_map. exact Hr.
Qed.

End EvaluationFacts.

(** ** Flat accuracy *)

Lemma differing_labels_zero (t p : list bool) :
  length t = length p -> (differing_labels t p = 0%nat <-> t = p).
Proof.
  revert p. induction t as [ | a t IH]; intros [ | b p] Hlen; cbn [length] in Hlen;
    try discriminate.
  - split; reflexivity.
  - unfold differing_labels in *. cbn [combine map fst snd filter].
    specialize (IH p ltac:(lia)).
    destruct a, b; cbn [xorb length]; split; intros H;
      try discriminate; try (f_equal; apply IH; exact H);
      try (inversion H; subst; apply IH; reflexivity).
Qed.

Lemma row_score_exact_match (t p : list bool) :
  length t = length p ->
  Nat.eqb (differing_labels t p) 0 = exact_match (t, p).
Proof.
  intros Hlen. unfold exact_match. cbn [fst snd].
  destruct (list_eq_dec Bool.bool_dec t p) as [E | N].
  - apply Nat.eqb_eq. apply differing_labels_zero; assumption.
  - apply Nat.eqb_neq. intros H. apply N. apply differing_labels_zero; assumption.
Qed.

Lemma indicator_input_rows (y_true y_pred : list (list bool)) :
  indicator_input y_true y_pred = true ->
  length y_true = length y_pred /\
  (0 < length y_true)%nat /\ (0 < row_width y_true)%nat /\
  Forall (fun r => length r = row_width y_true) y_true /\
  Forall (fun r => length r = row_width y_true) y_pred.
Proof.
  unfold indicator_input. rewrite !andb_true_iff.
  intros [[[[Hn Hw] Hl] Ht] Hp].
  apply Nat.ltb_lt in Hn, Hw. apply Nat.eqb_eq in Hl.
  rewrite forallb_forall in Ht, Hp.
  repeat split; try assumption.
  - apply Forall_forall. intros r Hr. apply Nat.eqb_eq, Ht, Hr.
  - apply Forall_forall. intros r Hr. apply Nat.eqb_eq, Hp, Hr.
Qed.

(** C5: the reported flat accuracy is the number of validation samples
    whose predicted boolean row equals the ground-truth row, divided by the
    number of samples, times 100 (in float64 arithmetic). *)
Theorem flat_accuracy_is_exact_match (tb pb : list (list bool)) :
  indicator_input tb pb = true ->
  val_flat_accuracy tb pb =
  Ok (F64.mul
        (F64.div (F64.of_Z (Z.of_nat (length (filter exact_match (combine tb pb)))))
                 (F64.of_Z (Z.of_nat (length tb))))
        (F64.of_Z 100)).
Proof.
  intros Hin. destruct (indicator_input_rows tb pb Hin) as (Hlen & _ & _ & Ht & Hp).
  unfold val_flat_accuracy, accuracy_score. rewrite Hin. cbn [bind].
  rewrite length_map, length_combine, <- Hlen, Nat.min_id.
  assert (Hscore : forall l : list (list bool * list bool),
             Forall (fun tp => length (fst tp) = length (snd tp)) l ->
             length (filter (fun b : bool => b)
                       (map (fun tp => Nat.eqb (differing_labels (fst tp) (snd tp)) 0) l)) =
             length (filter exact_match l)).
  { induction l as [ | [t p] l IH]; intros Hall; [reflexivity | ].
    inversion Hall as [ | ? ? Htp Hl]; subst. cbn [fst snd] in Htp.
    cbn [map filter fst snd]. rewrite (row_score_exact_match t p Htp).
    destruct (exact_match (t, p)); cbn [length]; rewrite (IH Hl); reflexivity. }
  rewrite Hscore; [reflexivity | ].
  apply Forall_forall. intros [t p] Htp. cbn [fst snd].
  rewrite Forall_forall in Ht, Hp.
  rewrite (Ht t) by (apply in_combine_l in Htp; exact Htp).
  rewrite (Hp p) by (apply in_combine_r in Htp; exact Htp). reflexivity.
Qed.

(** A validation set on which exact-match and per-entry accuracy differ:
    one of two rows matches, three of four entries do. *)
Example flat_accuracy_not_entrywise :
  val_flat_accuracy [[true; false]; [true; true]] [[true; true]; [true; true]] =
    Ok (F64.of_Z 50) /\
  F64.mul (entry_accuracy [[true; false]; [true; true]] [[true; true]; [true; true]])
          (F64.of_Z 100) = F64.of_Z 75.
Proof. split; vm_compute; reflexivity. Qed.

(** ** From label extraction to the confusion report *)

Lemma nth_map_default {A B : Type} (f : A -> B) (l : list A) (d : A) (d' : B) (i : nat) :
  (i < length l)%nat -> nth i (map f l) d' = f (nth i l d).
Proof.
  intros Hi. rewrite (nth_indep _ d' (f d)) by (rewrite length_map; exact Hi).
  apply map_nth.
Qed.

Lemma nth_map_seq {A : Type} (G : nat -> A) (d : A) (n k : nat) :
  (k < n)%nat -> nth k (map G (seq 0 n)) d = G k.
Proof.
  intros Hk. rewrite (nth_map_default G _ 0%nat) by (rewrite length_seq; exact Hk).
  rewrite seq_nth by exact Hk. reflexivity.
Qed.


Lemma text_strings_ok (df : DataFrame) :
  sample_table df = true ->
  exists v, text_strings df = Ok v /\ length v = df_len df.
Proof.
  intros Hst. destruct (sample_table_facts df Hst) as (Hnd & Hin & Hlen & _ & Hstr).
  unfold df_columns in Hin. apply in_map_iff in Hin. destruct Hin as ([n c] & Hn & Hin).
  cbn [fst] in Hn. subst n.
  destruct (Hstr _ _ Hin eq_refl) as [v ->]. exists v. split.
  - unfold text_strings, df_get. rewrite (assoc_get_in _ _ _ Hnd Hin). reflexivity.
  - apply (Hlen _ _ Hin).
Qed.




Lemma validation_nonempty (n : Z) : 1 <= n -> 1 <= n - 4 * n / 5.
Proof.
  intros Hn. assert (4 * n / 5 < n); [ | lia].
  apply Z.div_lt_upper_bound; lia.
Qed.

Section NotebookFacts.

Variable wordpiece : string -> bool -> string -> list Z.
Variable Net : Type.
Variable forward : Net -> list (list Z) -> list (list Z) -> list (list F32.float).
Variable sigmoid : F32.float -> F32.float.

Local Abbreviation logits_of model :=
  (fun b : list sample => forward model (fst (fst (unpack b))) (snd (fst (unpack b)))).




End NotebookFacts.

(** ** Worked instances *)

Example label_extraction_example :
  label_names example_df = Ok ["email"; "phone"]%string /\
  labels example_df = Ok (mkTensor 2 [[1; 0]; [0; 1]; [0; 0]; [1; 1]; [0; 0]]).
Proof. split; reflexivity. Qed.

Example tokenizer_example :
  bert_uncased_tokenizer char_wordpiece ["abc"; "a"; ""]%string 2 =
  Ok (mkTensor 2 [[97; 98]; [97; 0]; [0; 0]], mkTensor 2 [[1; 1]; [1; 0]; [0; 0]]).
Proof. vm_compute. reflexivity. Qed.

Example train_size_examples :
  map train_size [0; 1; 2; 3; 4; 5; 6; 10; 1000] =
  map Ok [0; 0; 1; 2; 3; 4; 4; 8; 800].
Proof. vm_compute. reflexivity. Qed.

(** Past the exact range the product rounds up to the next integer. *)
Example train_size_large :
  train_size (2 ^ 53 - 1) = Ok 7205759403792793 /\
  4 * (2 ^ 53 - 1) / 5 = 7205759403792792.
Proof. split; vm_compute; reflexivity. Qed.

Example parameter_groups_example :
  optimizer_grouped_parameters
    [("classifier.weight", 1%nat); ("classifier.bias", 2%nat);
     ("LayerNorm.gamma", 3%nat); ("LayerNorm.beta", 4%nat);
     ("embeddings.word_embeddings.weight", 5%nat)]%string =
  [mkGroup [1; 5]%nat F64.lit_0_01; mkGroup [2; 3; 4]%nat F64.lit_0_0].
Proof. reflexivity. Qed.

Lemma label_extraction_witness :
  exists names t,
    label_names example_df = Ok names /\
    names = filter (fun n => negb (String.eqb n "text")) (df_columns example_df) /\
    labels example_df = Ok t /\
    shape t = (df_len example_df, (length (df_columns example_df) - 1)%nat) /\
    tensor_wf t.
Proof. apply (label_extraction example_df). reflexivity. Defined.

Lemma split_sizes_witness :
  exists ts training_dataset validation_dataset,
    train_size (Z.of_nat (length example_dataset)) = Ok ts /\
    split_dataset [3; 0; 4; 1; 2]%nat example_dataset (Z.of_nat (length example_dataset)) =
      Ok (training_dataset, validation_dataset) /\
    Z.of_nat (subset_len training_dataset) = ts /\
    Z.of_nat (subset_len validation_dataset) = Z.of_nat (length example_dataset) - ts /\
    (subset_len training_dataset + subset_len validation_dataset)%nat = length example_dataset /\
    (Z.of_nat (length example_dataset) < 2 ^ 50 -> ts = 4 * Z.of_nat (length example_dataset) / 5).
Proof.
  apply (split_sizes sample example_dataset [3; 0; 4; 1; 2]%nat); [vm_compute | ]; reflexivity.
Defined.

Lemma evaluator_thresholding_witness :
  exists batches,
    val_dataloader (mkSubset example_dataset [4; 1]%nat) = Ok batches /\
    batches =
      batched 64 (map (fun i => nth i example_dataset ([], [], [])) [4; 1]%nat) /\
    logit_preds (predict unit stub_forward stub_sigmoid tt batches) =
      concat (map (fun b => stub_forward tt (map (fun s => fst (fst s)) b)
                                            (map (fun s => snd (fst s)) b))
                  batches) /\
    pred_labels (predict unit stub_forward stub_sigmoid tt batches) =
      map (map stub_sigmoid) (logit_preds (predict unit stub_forward stub_sigmoid tt batches)) /\
    pred_bools (pred_labels (predict unit stub_forward stub_sigmoid tt batches)) =
      map (map (fun logit => F32.ltb (F32.of_F64 F64.lit_0_5) (stub_sigmoid logit)))
          (logit_preds (predict unit stub_forward stub_sigmoid tt batches)) /\
    pred_bools (pred_labels (predict unit stub_forward stub_sigmoid tt batches)) =
      map (map (fun logit => F32.ltb (F32.of_F64 F64.lit_0_5) (stub_sigmoid logit)))
          (concat (map (fun b => stub_forward tt (map (fun s => fst (fst s)) b)
                                                 (map (fun s => snd (fst s)) b))
                       batches)) /\
    true_labels (predict unit stub_forward stub_sigmoid tt batches) =
      map (fun i => snd (nth i example_dataset ([], [], []))) [4; 1]%nat /\
    true_bools (true_labels (predict unit stub_forward stub_sigmoid tt batches)) =
      map (fun i => map (fun label => label =? 1) (snd (nth i example_dataset ([], [], []))))
          [4; 1]%nat /\
    (forall w, head_shape unit stub_forward tt w ->
       length (pred_bools (pred_labels (predict unit stub_forward stub_sigmoid tt batches))) =
         subset_len (mkSubset example_dataset [4; 1]%nat) /\
       length (true_bools (true_labels (predict unit stub_forward stub_sigmoid tt batches))) =
         subset_len (mkSubset example_dataset [4; 1]%nat) /\
       Forall (fun r => length r = w)
              (pred_bools (pred_labels (predict unit stub_forward stub_sigmoid tt batches)))).
Proof.
  apply (evaluator_thresholding unit stub_forward stub_sigmoid tt
           (mkSubset example_dataset [4; 1]%nat)).
  cbn [sub_dataset sub_indices example_dataset length]. repeat constructor.
Defined.

(** The evaluation of the small data set, computed: the two validation
    samples get the predictions that the forward pass and the threshold
    give them. *)
Example evaluation_example :
  exists batches,
    val_dataloader (mkSubset example_dataset [4; 1]%nat) = Ok batches /\
    pred_bools (pred_labels (predict unit stub_forward stub_sigmoid tt batches)) =
      [[true; false]; [true; false]] /\
    true_bools (true_labels (predict unit stub_forward stub_sigmoid tt batches)) =
      [[false; false]; [false; false]].
Proof. eexists. split; [reflexivity | ]. split; vm_compute; reflexivity. Qed.

Lemma flat_accuracy_witness :
  val_flat_accuracy [[true; false]; [false; false]; [true; true]]
                    [[true; false]; [false; true]; [true; true]] =
  Ok (F64.mul
        (F64.div
           (F64.of_Z (Z.of_nat (length (filter exact_match
              (combine [[true; false]; [false; false]; [true; true]]
                       [[true; false]; [false; true]; [true; true]])))))
           (F64.of_Z (Z.of_nat (length [[true; false]; [false; false]; [true; true]]))))
        (F64.of_Z 100)).
Proof.
  apply (flat_accuracy_is_exact_match
           [[true; false]; [false; false]; [true; true]]
           [[true; false]; [false; true]; [true; true]]).
  reflexivity.
Defined.

Example epoch_example :
  stub_epoch tt (batched 2 example_dataset) = Ok (tt, F64.div (F64.of_Z 5) (F64.of_Z 3)) /\
  stub_losses tt (batched 2 example_dataset) = [F64.of_Z 2; F64.of_Z 2; F64.of_Z 1] /\
  stub_epoch tt [] = Raise ZeroDivisionError.
Proof. repeat split; vm_compute; reflexivity. Qed.

Lemma epoch_report_witness :
  exists total report,
    length (stub_losses tt (batched 2 example_dataset)) = length (batched 2 example_dataset) /\
    py_sum (stub_losses tt (batched 2 example_dataset)) = Ok total /\
    py_truediv total (PyInt (Z.of_nat (length (batched 2 example_dataset)))) = Ok report /\
    stub_epoch tt (batched 2 example_dataset) =
      Ok (epoch_model unit stub_update stub_forward stub_backward stub_update
            stub_loss stub_mean 1 2 tt (batched 2 example_dataset),
          report).
Proof.
  apply (epoch_report_is_mean unit stub_update stub_forward stub_backward stub_update
           stub_loss stub_mean 1 2 tt (batched 2 example_dataset)).
  - discriminate.
  - vm_compute. reflexivity.
Defined.



Lemma epoch_report_division_witness :
  (exists training_dataset validation_dataset,
     split_dataset (seq 0 5) example_dataset (Z.of_nat (length example_dataset)) =
       Ok (training_dataset, validation_dataset) /\
     Z.of_nat (subset_len training_dataset) = 4 /\
     (1 <= 4 ->
        exists batches,
          train_dataloader [2; 0; 3; 1]%nat training_dataset = Ok batches /\
          batches <> [] /\
          (exists model' report, stub_epoch tt batches = Ok (model', report)) /\
          (exists model' reports,
             stub_loop tt training_dataset (fun _ => [2; 0; 3; 1]%nat) = Ok (model', reports) /\
             length reports = epochs)) /\
     (4 = 0 ->
        train_dataloader [2; 0; 3; 1]%nat training_dataset = Raise ValueError /\
        stub_loop tt training_dataset (fun _ => [2; 0; 3; 1]%nat) = Raise ValueError) /\
     stub_epoch tt [] = Raise ZeroDivisionError /\
     train_size 1 = Ok 0) /\
  (exists training_dataset validation_dataset,
     split_dataset [0%nat] [([101; 102], [1; 1], [1; 0])] (Z.of_nat 1) =
       Ok (training_dataset, validation_dataset) /\
     Z.of_nat (subset_len training_dataset) = 0 /\
     (1 <= 0 ->
        exists batches,
          train_dataloader [] training_dataset = Ok batches /\
          batches <> [] /\
          (exists model' report, stub_epoch tt batches = Ok (model', report)) /\
          (exists model' reports,
             stub_loop tt training_dataset (fun _ => []) = Ok (model', reports) /\
             length reports = epochs)) /\
     (0 = 0 ->
        train_dataloader [] training_dataset = Raise ValueError /\
        stub_loop tt training_dataset (fun _ => []) = Raise ValueError) /\
     stub_epoch tt [] = Raise ZeroDivisionError /\
     train_size 1 = Ok 0).
Proof.
  split.
  - apply (epoch_report_division unit stub_update stub_forward stub_backward stub_update
             stub_loss stub_mean 1 2 example_dataset (seq 0 5) (fun _ => [2; 0; 3; 1]%nat) tt 4).
    + vm_compute. reflexivity.
    + apply Permutation_refl.
    + vm_compute. reflexivity.
    + intros _. change (Permutation [2; 0; 3; 1]%nat [0; 1; 2; 3]%nat).
      apply perm_trans with [0; 2; 3; 1]%nat; [apply perm_swap | ].
      apply perm_skip.
      apply perm_trans with [2; 1; 3]%nat; [apply perm_skip, perm_swap | apply perm_swap].
  - apply (epoch_report_division unit stub_update stub_forward stub_backward stub_update
             stub_loss stub_mean 1 2 [([101; 102], [1; 1], [1; 0])] [0%nat] (fun _ => []) tt 0).
    + vm_compute. reflexivity.
    + apply Permutation_refl.
    + vm_compute. reflexivity.
    + intros _. apply Permutation_refl.
Defined.

(** A data set of one item: the split leaves no training item, the
    training loader cannot be built, and the run stops with [ValueError]
    before any report is computed, not with [ZeroDivisionError]. *)
Lemma epoch_report_division_counterexample :
  split_dataset [0%nat] [([101; 102], [1; 1], [1; 0])] 1 =
    Ok (mkSubset [([101; 102], [1; 1], [1; 0])] [],
        mkSubset [([101; 102], [1; 1], [1; 0])] [0%nat]) /\
  train_dataloader [] (mkSubset [([101; 102], [1; 1], [1; 0])] []) = Raise ValueError /\
  stub_loop tt (mkSubset [([101; 102], [1; 1], [1; 0])] []) (fun _ => []) =
    Raise ValueError /\
  stub_loop tt (mkSubset [([101; 102], [1; 1], [1; 0])] []) (fun _ => []) <>
    Raise ZeroDivisionError.
Proof.
  split; [vm_compute; reflexivity | ]. split; [reflexivity | ].
  split; [reflexivity | ]. discriminate.
Qed.

Example four_epochs :
  stub_loop tt (mkSubset example_dataset [3; 0; 4; 1]%nat) (fun _ => [2; 0; 3; 1]%nat) =
    Ok (tt, [F64.of_Z 4; F64.of_Z 4; F64.of_Z 4; F64.of_Z 4]).
Proof. vm_compute. reflexivity. Qed.

(** * Further properties of the cells *)

(** ** The sample-data cell *)

Section DownloadFacts.

Variable Files : Type.
Variable path_exists : string -> Files -> bool.
Variable fs_get : string -> string -> Files -> result Files.

(** X1: the sample file is fetched only when it is missing, from the key
    [rapidsai-data/cyber/pii/pii_training_sample.csv]; an existing file is
    left alone, and once the cell has succeeded the file exists and running
    the cell again changes nothing.  The one assumption on the remote call
    is that a successful [get] leaves its local path in place. *)
Theorem download_only_when_missing :
  (forall rpath lpath files files',
     fs_get rpath lpath files = Ok files' -> path_exists lpath files' = true) ->
  forall files,
    (path_exists "pii_training_sample.csv" files = true ->
     download_sample_data Files path_exists fs_get files = Ok files) /\
    (path_exists "pii_training_sample.csv" files = false ->
     download_sample_data Files path_exists fs_get files =
       fs_get "rapidsai-data/cyber/pii/pii_training_sample.csv" "pii_training_sample.csv"
              files) /\
    (forall files', download_sample_data Files path_exists fs_get files = Ok files' ->
       path_exists "pii_training_sample.csv" files' = true /\
       download_sample_data Files path_exists fs_get files' = Ok files').
Proof.
  intros Hget files. unfold download_sample_data.
  change PII_SAMPLE_CSV with "pii_training_sample.csv"%string.
  change (S3_BASE_PATH ++ "/" ++ "pii_training_sample.csv")%string
    with "rapidsai-data/cyber/pii/pii_training_sample.csv"%string.
  split; [intros ->; reflexivity | ]. split; [intros ->; reflexivity | ].
  intros files' H.
  assert (He : path_exists "pii_training_sample.csv" files' = true).
  { destruct (path_exists "pii_training_sample.csv" files) eqn:E; cbn [negb] in H.
    - injection H as <-. exact E.
    - apply Hget in H. exact H. }
  split; [exact He | ]. rewrite He. reflexivity.
Qed.

End DownloadFacts.

Lemma example_get_creates (rpath lpath : string) (files files' : list string) :
  example_get rpath lpath files = Ok files' -> example_exists lpath files' = true.
Proof.
  intros H. injection H as <-.
  unfold example_exists. cbn [existsb]. rewrite String.eqb_refl. reflexivity.
Defined.

Lemma download_only_when_missing_witness :
  (example_exists "pii_training_sample.csv" [] = true ->
   download_sample_data (list string) example_exists example_get [] = Ok []) /\
  (example_exists "pii_training_sample.csv" [] = false ->
   download_sample_data (list string) example_exists example_get [] =
     example_get "rapidsai-data/cyber/pii/pii_training_sample.csv" "pii_training_sample.csv"
                 []) /\
  (forall files',
     download_sample_data (list string) example_exists example_get [] = Ok files' ->
     example_exists "pii_training_sample.csv" files' = true /\
     download_sample_data (list string) example_exists example_get files' = Ok files').
Proof.
  exact (download_only_when_missing (list string) example_exists example_get
           example_get_creates []).
Defined.

(** ** Label extraction *)

(** [list.remove] takes out the first occurrence and nothing else. *)
Lemma list_remove_first (x : string) (l : list string) :
  In x l ->
  exists pre post,
    l = pre ++ x :: post /\ ~ In x pre /\ list_remove x l = Ok (pre ++ post).
Proof.
  induction l as [ | y t IH]; intros Hin; [contradiction | ].
  cbn [list_remove]. destruct (String.eqb y x) eqn:E.
  - apply String.eqb_eq in E. subst y. exists [], t.
    split; [reflexivity | split; [intros [] | reflexivity]].
  - apply String.eqb_neq in E. destruct Hin as [-> | Hin]; [contradiction | ].
    destruct (IH Hin) as (pre & post & Hl & Hpre & Hrm).
    exists (y :: pre), post. split; [rewrite Hl; reflexivity | ]. split.
    + intros [H | H]; [congruence | contradiction].
    + rewrite Hrm. reflexivity.
Qed.

(** X2: with a column [text], the label names are the column names with the
    first [text] taken out, whatever else the frame holds; without one,
    [label_names.remove('text')] raises [ValueError] and the cells that
    follow are not reached. *)
Theorem label_names_first_text (df : DataFrame) :
  (In "text"%string (df_columns df) ->
     exists pre post,
       df_columns df = pre ++ "text"%string :: post /\
       ~ In "text"%string pre /\
       label_names df = Ok (pre ++ post)) /\
  (~ In "text"%string (df_columns df) ->
     label_names df = Raise ValueError /\
     forall wordpiece indices, prepare_data wordpiece df indices = Raise ValueError).
Proof.
  split.
  - intros Hin. apply list_remove_first. exact Hin.
  - intros Hno. pose proof (list_remove_absent "text" (df_columns df) Hno) as H.
    assert (Hn : label_names df = Raise ValueError) by exact H.
    split; [exact Hn | ].
    intros wordpiece indices. unfold prepare_data. rewrite Hn. reflexivity.
Qed.

(** X3: entry (i, j) of the label tensor is row i of the frame column named
    by the j-th label name. *)
Theorem label_matrix_entries (df : DataFrame) :
  sample_table df = true ->
  exists names lab,
    label_names df = Ok names /\
    labels df = Ok lab /\
    forall i j name,
      (i < df_len df)%nat ->
      nth_error names j = Some name ->
      exists vals,
        df_get name df = Ok (IntCol vals) /\
        length vals = df_len df /\
        nth j (nth i (rows lab) []) 0 = nth i vals 0.
Proof.
  intros Hst.
  destruct (sample_table_facts df Hst) as (Hnd & _ & Hlen & Hint & _).
  destruct (labels_closed df Hst) as [Hnames Hlab].
  eexists _, _. split; [exact Hnames | ]. split; [exact Hlab | ].
  intros i j name Hi Hname. cbn [rows].
  rewrite nth_error_map in Hname.
  destruct (nth_error (label_columns df) j) as [[n c] | ] eqn:Ecol; [ | discriminate].
  cbn [option_map fst] in Hname. inversion Hname. subst n. clear Hname.
  assert (Hj : (j < length (label_columns df))%nat).
  { apply nth_error_Some. rewrite Ecol. discriminate. }
  assert (Hin : In (name, c) (label_columns df)) by (eapply nth_error_In; exact Ecol).
  apply filter_In in Hin. destruct Hin as [Hin Hp]. cbn [fst] in Hp.
  apply negb_true_iff in Hp. destruct (Hint _ _ Hin Hp) as [vals ->].
  exists vals. split; [apply assoc_get_in; assumption | ].
  split; [exact (Hlen _ _ Hin) | ].
  rewrite nth_map_seq by exact Hi.
  rewrite (nth_map_default (fun c0 => nth i c0 0) _ []) by (rewrite length_map; exact Hj).
  f_equal.
  rewrite (nth_map_default (fun nc => column_values (snd nc)) _ (name, IntCol vals)) by exact Hj.
  rewrite (nth_error_nth _ _ _ Ecol). reflexivity.
Qed.

Lemma label_matrix_entries_witness :
  exists names lab,
    label_names example_df = Ok names /\
    labels example_df = Ok lab /\
    forall i j name,
      (i < df_len example_df)%nat ->
      nth_error names j = Some name ->
      exists vals,
        df_get name example_df = Ok (IntCol vals) /\
        length vals = df_len example_df /\
        nth j (nth i (rows lab) []) 0 = nth i vals 0.
Proof. apply (label_matrix_entries example_df). reflexivity. Defined.

(** ** The float64 detour of the tokenizer wrappers *)

Lemma split_rows_concat {A : Type} (n m : nat) :
  forall flat : list A, length flat = (n * m)%nat -> concat (split_rows n m flat) = flat.
Proof.
  induction n as [ | k IH]; intros flat Hlen.
  - destruct flat; [reflexivity | cbn in Hlen; lia].
  - cbn [split_rows concat]. rewrite IH; [apply firstn_skipn | ].
    rewrite length_skipn. lia.
Qed.

(** X4: [a.reshape(n, m).astype(cupy.float)] followed by
    [.type(torch.long)] gives back the ids of [a] unchanged, in row-major
    order, as long as every id is below 2^53. *)
Theorem float_detour_lossless (a : list Z) (n m : nat) :
  Forall (fun id => 0 <= id < 2 ^ 53) a ->
  length a = (n * m)%nat ->
  exists t,
    float_tensor a n m = Ok t /\
    shape (type_long t) = (n, m) /\
    concat (rows (type_long t)) = a.
Proof.
  intros Hids Hlen. unfold float_tensor, reshape.
  rewrite (proj2 (Nat.eqb_eq _ _) Hlen). cbn [bind].
  eexists. split; [reflexivity | ].
  unfold type_long, astype_float, tensor_map, shape. cbn [rows ncols].
  rewrite !length_map, split_rows_length. split; [reflexivity | ].
  rewrite <- !concat_map, split_rows_concat, map_map by exact Hlen.
  rewrite <- (map_id a) at 2. apply map_ext_Forall.
  revert Hids. apply Forall_impl. intros z Hz.
  apply long_of_float_of_Z. exact Hz.
Qed.

Lemma float_detour_lossless_witness :
  exists t,
    float_tensor [101; 7; 102; 101; 102; 0] 2 3 = Ok t /\
    shape (type_long t) = (2%nat, 3%nat) /\
    concat (rows (type_long t)) = [101; 7; 102; 101; 102; 0].
Proof.
  apply (float_detour_lossless [101; 7; 102; 101; 102; 0] 2 3).
  - repeat constructor; (discriminate || reflexivity).
  - reflexivity.
Defined.

(** ** Row alignment from the frame to the subsets *)

Lemma TensorDataset_items (input_ids attention_masks lab : Tensor Z) (n : nat) :
  length (rows input_ids) = n -> length (rows attention_masks) = n ->
  length (rows lab) = n ->
  exists dataset : list sample,
    TensorDataset input_ids attention_masks lab = Ok dataset /\
    length dataset = n /\
    forall i, nth i dataset ([], [], []) =
              (nth i (rows input_ids) [], nth i (rows attention_masks) [], nth i (rows lab) []).
Proof.
  intros H1 H2 H3. unfold TensorDataset. rewrite H1, H2, H3, Nat.eqb_refl. cbn [andb].
  eexists. split; [reflexivity | ]. unfold sample. split.
  - rewrite !length_combine, H1, H2, H3. lia.
  - intros i. rewrite combine_nth by (rewrite length_combine, H1, H2, H3; lia).
    rewrite combine_nth by lia. reflexivity.
Qed.

Section AlignmentFacts.

Variable wordpiece : string -> bool -> string -> list Z.

(** X5: every item of the training and of the validation subset is the
    triple (ids, mask, labels) of one and the same row of the frame: the
    tokenizer output and the label tensor stay aligned through
    [TensorDataset] and [random_split]. *)
Theorem dataset_rows_aligned (df : DataFrame) (indices : list nat) :
  sample_table df = true ->
  Z.of_nat (df_len df) < 2 ^ 63 ->
  Permutation indices (seq 0 (df_len df)) ->
  exists names text input_ids attention_masks lab training_dataset validation_dataset,
    text_strings df = Ok text /\
    TOKENIZER wordpiece text 256 = Ok (input_ids, attention_masks) /\
    labels df = Ok lab /\
    prepare_data wordpiece df indices = Ok (names, training_dataset, validation_dataset) /\
    forall s, s = training_dataset \/ s = validation_dataset ->
      forall k, (k < subset_len s)%nat ->
        exists i,
          nth_error (sub_indices s) k = Some i /\ (i < df_len df)%nat /\
          subset_getitem s k =
            Ok (nth i (rows input_ids) [], nth i (rows attention_masks) [],
                nth i (rows lab) []).
Proof.
  intros Hst Hn Hperm.
  assert (Hlen : length indices = df_len df).
  { rewrite (Permutation_length Hperm). apply length_seq. }
  destruct (labels_closed df Hst) as [Hnames Hlab].
  destruct (text_strings_ok df Hst) as (text & Htext & Htl).
  destruct (tokenizer_shape wordpiece "resources/bert-base-uncased-hash.txt" true text 256)
    as (ids & mask & Htok & Sids & Smask & _).
  assert (Htok' : TOKENIZER wordpiece text 256 = Ok (ids, mask)) by exact Htok.
  assert (Hri : length (rows ids) = df_len df).
  { unfold shape in Sids. inversion Sids as [[H1 H2]]. rewrite H1. exact Htl. }
  assert (Hrm : length (rows mask) = df_len df).
  { unfold shape in Smask. inversion Smask as [[H1 H2]]. rewrite H1. exact Htl. }
  set (lab := mkTensor _ _) in Hlab.
  assert (Hrl : length (rows lab) = df_len df).
  { unfold lab. cbn [rows]. rewrite length_map, length_seq. reflexivity. }
  destruct (TensorDataset_items ids mask lab (df_len df) Hri Hrm Hrl) as (dataset & Hds & Hdl & Hit).
  assert (H1 : Z.of_nat (length dataset) < 2 ^ 63) by (rewrite Hdl; exact Hn).
  assert (H2 : length indices = length dataset) by (rewrite Hdl; exact Hlen).
  destruct (split_dataset_total indices dataset H1 H2) as (ts & _ & _ & Hsplit).
  rewrite Hdl in Hsplit.
  pose proof (permutation_of_range_bound indices (df_len df) Hperm) as Hbound.
  eexists _, text, ids, mask, lab, _, _.
  split; [exact Htext | ]. split; [exact Htok' | ]. split; [exact Hlab | ]. split.
  - unfold prepare_data. rewrite Hnames, Hlab, Htext. cbn [bind]. rewrite Htok'. cbn [bind].
    rewrite Hds. cbn [bind]. rewrite Hri, Hsplit. reflexivity.
  - intros s Hs k Hk.
    assert (Hsd : sub_dataset s = dataset) by (destruct Hs as [-> | ->]; reflexivity).
    assert (Hsi : Forall (fun i => (i < df_len df)%nat) (sub_indices s)).
    { apply Forall_forall. intros i Hi. rewrite Forall_forall in Hbound. apply Hbound.
      destruct Hs as [-> | ->]; cbn [sub_indices] in Hi;
        [eapply in_firstn | eapply in_skipn]; exact Hi. }
    exists (nth k (sub_indices s) 0%nat).
    split; [apply nth_error_nth'; exact Hk | ]. split.
    + rewrite Forall_forall in Hsi. apply Hsi. apply nth_In. exact Hk.
    + assert (Hin : Forall (fun i => (i < length (sub_dataset s))%nat) (sub_indices s))
        by (rewrite Hsd, Hdl; exact Hsi).
      pose proof (@subset_getitem_ok sample ([], [], []) s k Hk Hin) as Hg.
      rewrite Hsd, Hit in Hg. exact Hg.
Qed.

End AlignmentFacts.

Lemma dataset_rows_aligned_witness :
  exists names text input_ids attention_masks lab training_dataset validation_dataset,
    text_strings example_df = Ok text /\
    TOKENIZER char_wordpiece text 256 = Ok (input_ids, attention_masks) /\
    labels example_df = Ok lab /\
    prepare_data char_wordpiece example_df [1; 0; 2; 3; 4]%nat =
      Ok (names, training_dataset, validation_dataset) /\
    forall s, s = training_dataset \/ s = validation_dataset ->
      forall k, (k < subset_len s)%nat ->
        exists i,
          nth_error (sub_indices s) k = Some i /\ (i < df_len example_df)%nat /\
          subset_getitem s k =
            Ok (nth i (rows input_ids) [], nth i (rows attention_masks) [],
                nth i (rows lab) []).
Proof.
  apply (dataset_rows_aligned char_wordpiece example_df [1; 0; 2; 3; 4]%nat).
  - reflexivity.
  - vm_compute. reflexivity.
  - apply perm_swap.
Defined.

(** ** The split at the edges *)

Lemma mul_0_8_truncate_pos n ts :
  2 ^ 50 <= n < 2 ^ 63 ->
  F64.truncate (F64.mul (F64.of_Z n) F64.lit_0_8) = Some ts -> 1 <= ts.
Proof.
  intros Hn. destruct (Z.lt_ge_cases n (2 ^ 53)) as [Hsmall | Hbig].
  - destruct (of_Z_pos n ltac:(lia)) as (m & e & Hof & Hd & He & Hm).
    destruct (mul_0_8_finite m e Hd ltac:(lia)) as (m1 & k & Hk & Hm1 & Hb & Htr).
    rewrite Hof, Htr. intros [= <-].
    pose proof (of_Z_pos_range n m e ltac:(lia) Hd ltac:(lia) Hm) as Hr.
    assert (He2 : -2 <= e).
    { destruct (Z.le_gt_cases (-2) e) as [ | Hlt]; [assumption | exfalso].
      assert (2 ^ (53 + e) <= 2 ^ 50) by (apply Z.pow_le_mono_r; lia). lia. }
    rewrite Z.shiftl_div_pow2 by lia.
    set (B := 2 ^ (- (e - 53 + k))).
    assert (HB : 0 < B) by (apply Z.pow_pos_nonneg; lia).
    assert (HB8 : B <= 2 ^ 3) by (apply Z.pow_le_mono_r; lia).
    change (2 ^ 3) with 8 in HB8.
    pose proof (digits2_pos_bounds m) as Bm. rewrite Hd in Bm.
    change (2 ^ (53 - 1)) with 4503599627370496 in Bm.
    apply Z.div_le_lower_bound; [exact HB | ].
    destruct Hk as [-> | ->].
    + change (52 - 1) with 51 in Hb.
      change (2 ^ 52) with 4503599627370496 in *.
      change (2 ^ 51) with 2251799813685248 in Hb. nia.
    + change (53 - 1) with 52 in Hb.
      change (2 ^ 53) with 9007199254740992 in *.
      change (2 ^ 52) with 4503599627370496 in Hb. nia.
  - destruct (of_Z_big n ltac:(lia)) as (mf & ef & P0 & Hof & Hd & He & HP0 & HP & HV).
    destruct (mul_0_8_finite mf ef Hd ltac:(lia)) as (m1 & k & Hk & Hm1 & Hb & Htr).
    rewrite Hof, Htr. intros [= <-].
    rewrite Z.shiftl_mul_pow2 by lia.
    set (X := 2 ^ (ef - 53 + k)).
    assert (HX : 0 < X) by (apply Z.pow_pos_nonneg; lia).
    pose proof (digits2_pos_bounds mf) as Bm. rewrite Hd in Bm.
    change (2 ^ (53 - 1)) with 4503599627370496 in Bm.
    assert (1 <= m1).
    { destruct Hk as [-> | ->].
      + change (52 - 1) with 51 in Hb.
        change (2 ^ 52) with 4503599627370496 in *.
        change (2 ^ 51) with 2251799813685248 in Hb. nia.
      + change (53 - 1) with 52 in Hb.
        change (2 ^ 53) with 9007199254740992 in *.
        change (2 ^ 52) with 4503599627370496 in Hb. nia. }
    clearbody X. nia.
Qed.

(** The training size is 0 for a data set of at most one item only. *)
Lemma train_size_zero_iff n ts :
  0 <= n < 2 ^ 63 -> train_size n = Ok ts -> (ts = 0 <-> n <= 1).
Proof.
  intros Hn Hts. destruct (Z.lt_ge_cases n (2 ^ 50)) as [Hsmall | Hbig].
  - rewrite train_size_closed in Hts by lia.
    assert (Hv : ts = 4 * n / 5) by congruence. clear Hts.
    split; intros H.
    + destruct (Z.le_gt_cases n 1) as [ | Hgt]; [assumption | exfalso].
      assert (1 <= 4 * n / 5) by (apply Z.div_le_lower_bound; lia). lia.
    + assert (n = 0 \/ n = 1) as [-> | ->] by lia; exact Hv.
  - unfold train_size, py_mul in Hts. rewrite py_float_int in Hts by assumption.
    cbn [bind py_float py_int] in Hts.
    destruct (F64.truncate (F64.mul (F64.of_Z n) F64.lit_0_8)) as [z | ] eqn:E.
    + injection Hts as <-. pose proof (mul_0_8_truncate_pos n z ltac:(lia) E).
      change (2 ^ 50) with 1125899906842624 in Hbig. lia.
    + destruct (F64.mul (F64.of_Z n) F64.lit_0_8); discriminate.
Qed.

(** X6: the training subset is empty exactly for a data set of at most one
    item, and the validation subset exactly for an empty data set. *)
Theorem split_edge_sizes (A : Type) (dataset : list A) (indices : list nat) :
  Z.of_nat (length dataset) < 2 ^ 63 ->
  length indices = length dataset ->
  exists training_dataset validation_dataset,
    split_dataset indices dataset (Z.of_nat (length dataset)) =
      Ok (training_dataset, validation_dataset) /\
    (subset_len training_dataset = 0%nat <-> (length dataset <= 1)%nat) /\
    (subset_len validation_dataset = 0%nat <-> length dataset = 0%nat).
Proof.
  intros Hn Hlen.
  destruct (split_dataset_total indices dataset Hn Hlen) as (ts & Hts & [Hb Hlt] & Hsplit).
  pose proof (train_size_zero_iff (Z.of_nat (length dataset)) ts ltac:(lia) Hts) as Hz.
  eexists _, _. split; [exact Hsplit | ].
  unfold subset_len. cbn [sub_indices]. rewrite length_firstn, length_skipn, Hlen. lia.
Qed.

Lemma split_edge_sizes_witness :
  exists training_dataset validation_dataset,
    split_dataset [3; 0; 4; 1; 2]%nat example_dataset (Z.of_nat (length example_dataset)) =
      Ok (training_dataset, validation_dataset) /\
    (subset_len training_dataset = 0%nat <-> (length example_dataset <= 1)%nat) /\
    (subset_len validation_dataset = 0%nat <-> length example_dataset = 0%nat).
Proof.
  apply (split_edge_sizes sample example_dataset [3; 0; 4; 1; 2]%nat); [vm_compute | ]; reflexivity.
Defined.

(** X7: when [indices] is a permutation of [range(len(dataset))], the two
    subsets share the data set and cut the permutation in two: no index is
    in both subsets, and every index of the data set is in one of them. *)
Theorem split_partitions_indices (A : Type) (dataset : list A) (indices : list nat) :
  Z.of_nat (length dataset) < 2 ^ 63 ->
  Permutation indices (seq 0 (length dataset)) ->
  exists training_dataset validation_dataset,
    split_dataset indices dataset (Z.of_nat (length dataset)) =
      Ok (training_dataset, validation_dataset) /\
    sub_dataset training_dataset = dataset /\
    sub_dataset validation_dataset = dataset /\
    sub_indices training_dataset ++ sub_indices validation_dataset = indices /\
    (forall i, In i (sub_indices training_dataset) ->
               ~ In i (sub_indices validation_dataset)) /\
    (forall i, (i < length dataset)%nat <->
               In i (sub_indices training_dataset) \/ In i (sub_indices validation_dataset)).
Proof.
  intros Hn Hperm.
  assert (Hlen : length indices = length dataset).
  { rewrite (Permutation_length Hperm). apply length_seq. }
  destruct (split_dataset_total indices dataset Hn Hlen) as (ts & _ & _ & Hsplit).
  eexists _, _. split; [exact Hsplit | ]. cbn [sub_dataset sub_indices].
  split; [reflexivity | ]. split; [reflexivity | ].
  split; [apply firstn_skipn | ].
  assert (Hnd : NoDup (firstn (Z.to_nat ts) indices ++ skipn (Z.to_nat ts) indices)).
  { rewrite firstn_skipn. apply (Permutation_NoDup (Permutation_sym Hperm)). apply seq_NoDup. }
  split.
  - intros i H1 H2. apply in_split in H1. destruct H1 as (l1 & l2 & E).
    rewrite E, <- app_assoc in Hnd. cbn [app] in Hnd.
    apply NoDup_remove_2 in Hnd. apply Hnd. apply in_or_app. right.
    apply in_or_app. right. exact H2.
  - intros i. rewrite <- in_app_iff, firstn_skipn. split; intros H.
    + apply (Permutation_in _ (Permutation_sym Hperm)). apply in_seq. lia.
    + apply (Permutation_in _ Hperm) in H. apply in_seq in H. lia.
Qed.

Lemma split_partitions_indices_witness :
  exists training_dataset validation_dataset,
    split_dataset [1; 0; 2; 3; 4]%nat example_dataset (Z.of_nat (length example_dataset)) =
      Ok (training_dataset, validation_dataset) /\
    sub_dataset training_dataset = example_dataset /\
    sub_dataset validation_dataset = example_dataset /\
    sub_indices training_dataset ++ sub_indices validation_dataset = [1; 0; 2; 3; 4]%nat /\
    (forall i, In i (sub_indices training_dataset) ->
               ~ In i (sub_indices validation_dataset)) /\
    (forall i, (i < length example_dataset)%nat <->
               In i (sub_indices training_dataset) \/ In i (sub_indices validation_dataset)).
Proof.
  apply (split_partitions_indices sample example_dataset [1; 0; 2; 3; 4]%nat).
  - vm_compute. reflexivity.
  - apply perm_swap.
Defined.

(** ** The loaders *)

Lemma batched_fuel_nil {A : Type} (fuel batch_size : nat) :
  batched_fuel fuel batch_size (@nil A) = [].
Proof. destruct fuel; reflexivity. Qed.

(** The batches of a list: their number, their sizes, and that only the
    last one can be short. *)
Lemma batched_fuel_sizes {A : Type} (batch_size : nat) :
  (0 < batch_size)%nat ->
  forall (fuel : nat) (l : list A),
    (length l <= fuel)%nat ->
    length (batched_fuel fuel batch_size l) = ((length l + batch_size - 1) / batch_size)%nat /\
    Forall (fun b => (1 <= length b <= batch_size)%nat) (batched_fuel fuel batch_size l) /\
    (forall i, (S i < length (batched_fuel fuel batch_size l))%nat ->
               length (nth i (batched_fuel fuel batch_size l) []) = batch_size).
Proof.
  intros Hb. induction fuel as [ | f IH]; intros l Hl.
  - destruct l; [ | cbn [length] in Hl; lia]. cbn [batched_fuel length].
    split; [symmetry; apply Nat.div_small; lia | ].
    split; [constructor | intros i Hi; cbn in Hi; lia].
  - destruct l as [ | a t].
    + cbn [batched_fuel length].
      split; [symmetry; apply Nat.div_small; lia | ].
      split; [constructor | intros i Hi; cbn in Hi; lia].
    + set (l := a :: t) in *.
      assert (Hlen : (1 <= length l)%nat) by (unfold l; cbn [length]; lia).
      change (batched_fuel (S f) batch_size l)
        with (firstn batch_size l :: batched_fuel f batch_size (skipn batch_size l)).
      assert (Hsk : (length (skipn batch_size l) <= f)%nat) by (rewrite length_skipn; lia).
      destruct (IH (skipn batch_size l) Hsk) as (Hcount & Hall & Hfull).
      rewrite length_skipn in Hcount.
      split; [ | split].
      * cbn [length]. rewrite Hcount.
        destruct (Nat.le_gt_cases batch_size (length l)) as [Hge | Hlt].
        -- replace (length l + batch_size - 1)%nat
             with ((length l - batch_size + batch_size - 1) + 1 * batch_size)%nat by lia.
           rewrite Nat.div_add by lia. lia.
        -- replace (length l - batch_size + batch_size - 1)%nat with (batch_size - 1)%nat by lia.
           rewrite Nat.div_small by lia.
           apply (Nat.div_unique _ _ 1%nat (length l - 1)%nat); lia.
      * constructor; [ | exact Hall]. rewrite length_firstn. lia.
      * intros [ | i] Hi; cbn [length nth] in *.
        -- destruct (skipn batch_size l) as [ | b r] eqn:E.
           ++ rewrite batched_fuel_nil in Hi. cbn [length] in Hi. lia.
           ++ assert (Hs : (1 <= length l - batch_size)%nat).
              { rewrite <- length_skipn, E. cbn [length]. lia. }
              rewrite length_firstn. lia.
        -- apply Hfull. lia.
Qed.

Lemma DataLoader_sizes {A : Type} (d : A) (order : list nat) (batch_size : nat) (s : Subset A) :
  (0 < batch_size)%nat ->
  Forall (fun k => (k < subset_len s)%nat) order ->
  Forall (fun i => (i < length (sub_dataset s))%nat) (sub_indices s) ->
  exists batches,
    DataLoader order batch_size s = Ok batches /\
    length batches = ((length order + batch_size - 1) / batch_size)%nat /\
    Forall (fun b => (1 <= length b <= batch_size)%nat) batches /\
    (forall i, (S i < length batches)%nat -> length (nth i batches []) = batch_size) /\
    concat batches =
      map (fun k => nth (nth k (sub_indices s) 0%nat) (sub_dataset s) d) order.
Proof.
  intros Hb Hord Hidx.
  destruct (batched_fuel_sizes batch_size Hb (length order) order (Nat.le_refl _))
    as (Hcount & Hall & Hfull).
  fold (batched batch_size order) in Hcount, Hall, Hfull.
  eexists. split; [apply (DataLoader_ok d); assumption | ].
  rewrite length_map. split; [exact Hcount | ]. split; [ | split].
  - apply Forall_map. revert Hall. apply Forall_impl. intros b H.
    rewrite length_map. exact H.
  - intros i Hi.
    change (@nil A) with (map (fun k => nth (nth k (sub_indices s) 0%nat) (sub_dataset s) d) []).
    rewrite map_nth, length_map. apply Hfull. exact Hi.
  - rewrite <- concat_map, batched_concat by exact Hb. reflexivity.
Qed.

Lemma subset_samples_in_order {A : Type} (d : A) (s : Subset A) :
  map (fun k => nth (nth k (sub_indices s) 0%nat) (sub_dataset s) d)
      (seq 0 (subset_len s)) =
  map (fun i => nth i (sub_dataset s) d) (sub_indices s).
Proof.
  unfold subset_len.
  rewrite <- (map_map (fun k => nth k (sub_indices s) 0%nat) (fun i => nth i (sub_dataset s) d)).
  rewrite map_nth_range. reflexivity.
Qed.

(** X8: over a non-empty training subset the training loader yields
    ceil(n / 32) batches, and the validation loader ceil(n / 64), n being
    the size of the subset; no batch is empty or larger than the batch
    size, and only the last one can be short.  Over an empty training
    subset the training loader cannot be built: [ValueError]. *)
Theorem loader_batch_sizes (order : list nat)
    (training_dataset validation_dataset : Subset sample) :
  Forall (fun i => (i < length (sub_dataset training_dataset))%nat)
         (sub_indices training_dataset) ->
  Forall (fun i => (i < length (sub_dataset validation_dataset))%nat)
         (sub_indices validation_dataset) ->
  Permutation order (seq 0 (subset_len training_dataset)) ->
  (subset_len training_dataset = 0%nat ->
     train_dataloader order training_dataset = Raise ValueError) /\
  ((1 <= subset_len training_dataset)%nat ->
     exists train_batches,
       train_dataloader order training_dataset = Ok train_batches /\
       length train_batches = ((subset_len training_dataset + 31) / 32)%nat /\
       Forall (fun b => (1 <= length b <= 32)%nat) train_batches /\
       (forall i, (S i < length train_batches)%nat ->
                  length (nth i train_batches []) = 32%nat)) /\
  (exists val_batches,
     val_dataloader validation_dataset = Ok val_batches /\
     length val_batches = ((subset_len validation_dataset + 63) / 64)%nat /\
     Forall (fun b => (1 <= length b <= 64)%nat) val_batches /\
     (forall i, (S i < length val_batches)%nat -> length (nth i val_batches []) = 64%nat)).
Proof.
  intros Ht Hv Hord.
  assert (Hlo : length order = subset_len training_dataset).
  { rewrite (Permutation_length Hord). apply length_seq. }
  split; [apply train_dataloader_empty | ]. split.
  - intros Hpos.
    destruct (@DataLoader_sizes sample ([], [], []) order 32 training_dataset)
      as (tb & Htb & Hct & Hat & Hft & _);
      [lia | apply permutation_of_range_bound; exact Hord | exact Ht | ].
    rewrite Hlo in Hct. exists tb.
    split; [rewrite train_dataloader_nonempty by exact Hpos; exact Htb | ].
    split; [rewrite Hct; f_equal; lia | ]. split; assumption.
  - destruct (@DataLoader_sizes sample ([], [], []) (sequential_order validation_dataset) 64
                validation_dataset)
      as (vb & Hvb & Hcv & Hav & Hfv & _);
      [lia | apply Forall_forall; intros k Hk; apply in_seq in Hk; lia | exact Hv | ].
    unfold sequential_order in Hcv. rewrite length_seq in Hcv.
    exists vb. split; [exact Hvb | ]. split; [rewrite Hcv; f_equal; lia | ].
    split; assumption.
Qed.

Lemma example_training_in_range :
  Forall (fun i => (i < length (sub_dataset example_training))%nat)
         (sub_indices example_training).
Proof.
  cbn [example_training sub_dataset sub_indices example_dataset length]. repeat constructor.
Defined.

Lemma example_validation_in_range :
  Forall (fun i => (i < length (sub_dataset example_validation))%nat)
         (sub_indices example_validation).
Proof.
  cbn [example_validation sub_dataset sub_indices example_dataset length]. repeat constructor.
Defined.

Lemma example_order : Permutation [1; 0; 2; 3]%nat (seq 0 (subset_len example_training)).
Proof. apply perm_swap. Defined.

Lemma example_training_nonempty : (1 <= subset_len example_training)%nat.
Proof. cbn [example_training subset_len sub_indices length]. repeat constructor. Defined.

Lemma loader_batch_sizes_witness :
  (subset_len example_training = 0%nat ->
     train_dataloader [1; 0; 2; 3]%nat example_training = Raise ValueError) /\
  ((1 <= subset_len example_training)%nat ->
     exists train_batches,
       train_dataloader [1; 0; 2; 3]%nat example_training = Ok train_batches /\
       length train_batches = ((subset_len example_training + 31) / 32)%nat /\
       Forall (fun b => (1 <= length b <= 32)%nat) train_batches /\
       (forall i, (S i < length train_batches)%nat ->
                  length (nth i train_batches []) = 32%nat)) /\
  (exists val_batches,
     val_dataloader example_validation = Ok val_batches /\
     length val_batches = ((subset_len example_validation + 63) / 64)%nat /\
     Forall (fun b => (1 <= length b <= 64)%nat) val_batches /\
     (forall i, (S i < length val_batches)%nat -> length (nth i val_batches []) = 64%nat)).
Proof.
  exact (loader_batch_sizes [1; 0; 2; 3]%nat example_training example_validation
           example_training_in_range example_validation_in_range example_order).
Defined.

(** X9: in one pass over the training loader of a non-empty training
    subset every item of the subset is yielded exactly once: the batches
    joined are a permutation of the subset, and the subset itself when the
    sampler keeps the order. *)
Theorem train_loader_epoch_coverage (order : list nat) (training_dataset : Subset sample) :
  Forall (fun i => (i < length (sub_dataset training_dataset))%nat)
         (sub_indices training_dataset) ->
  (1 <= subset_len training_dataset)%nat ->
  Permutation order (seq 0 (subset_len training_dataset)) ->
  exists batches,
    train_dataloader order training_dataset = Ok batches /\
    Permutation (concat batches)
      (map (fun i => nth i (sub_dataset training_dataset) ([], [], []))
           (sub_indices training_dataset)) /\
    (order = seq 0 (subset_len training_dataset) ->
     concat batches =
       map (fun i => nth i (sub_dataset training_dataset) ([], [], []))
           (sub_indices training_dataset)).
Proof.
  intros Ht Hpos Hord.
  destruct (@DataLoader_sizes sample ([], [], []) order 32 training_dataset)
    as (tb & Htb & _ & _ & _ & Hcat);
    [lia | apply permutation_of_range_bound; exact Hord | exact Ht | ].
  exists tb. split; [rewrite train_dataloader_nonempty by exact Hpos; exact Htb | ].
  rewrite Hcat.
  pose proof (@subset_samples_in_order sample ([], [], []) training_dataset) as Hs.
  unfold sample in *. rewrite <- Hs. split.
  - apply Permutation_map. exact Hord.
  - intros ->. reflexivity.
Qed.

Lemma train_loader_epoch_coverage_witness :
  exists batches,
    train_dataloader [1; 0; 2; 3]%nat example_training = Ok batches /\
    Permutation (concat batches)
      (map (fun i => nth i (sub_dataset example_training) ([], [], []))
           (sub_indices example_training)) /\
    ([1; 0; 2; 3]%nat = seq 0 (subset_len example_training) ->
     concat batches =
       map (fun i => nth i (sub_dataset example_training) ([], [], []))
           (sub_indices example_training)).
Proof.
  exact (train_loader_epoch_coverage [1; 0; 2; 3]%nat example_training
           example_training_in_range example_training_nonempty example_order).
Defined.

(** ** The substring test of the parameter groups *)

Lemma prefix_append (a b : string) :
  String.prefix a b = true <-> exists post, b = (a ++ post)%string.
Proof.
  revert b. induction a as [ | c a IH]; intros b.
  - destruct b; cbn [String.prefix String.append];
      (split; [intros _; eexists; reflexivity | reflexivity]).
  - destruct b as [ | c' b]; cbn [String.prefix String.append].
    + split; [discriminate | intros [post H]; discriminate].
    + destruct (Ascii.ascii_dec c c') as [-> | Hne].
      * rewrite IH. split; intros [post H]; exists post; congruence.
      * split; [discriminate | intros [post H]; congruence].
Qed.

Lemma contains_substring (nd n : string) :
  contains nd n = true <-> exists pre post, n = (pre ++ nd ++ post)%string.
Proof.
  split.
  - induction n as [ | c n IH]; cbn [contains]; intros H; apply orb_prop in H.
    + destruct H as [H | H]; [ | discriminate].
      apply prefix_append in H. destruct H as [post H].
      exists EmptyString, post. exact H.
    + destruct H as [H | H].
      * apply prefix_append in H. destruct H as [post H].
        exists EmptyString, post. exact H.
      * destruct (IH H) as (pre & post & E).
        exists (String c pre), post. cbn [String.append]. rewrite E. reflexivity.
  - intros (pre & post & E). subst n. induction pre as [ | c pre IH].
    + cbn [String.append].
      assert (Hp : String.prefix nd (nd ++ post) = true)
        by (apply prefix_append; exists post; reflexivity).
      destruct (nd ++ post)%string; cbn [contains]; rewrite Hp; reflexivity.
    + cbn [String.append contains]. rewrite IH. apply orb_true_r.
Qed.

(** X10: a parameter is exempt from weight decay exactly when its name has
    [bias], [gamma] or [beta] somewhere inside it, as a substring at any
    position; every other parameter is in the decayed group. *)
Theorem no_decay_substring (P : Type) (param_optimizer : list (string * P)) :
  exists decayed exempt,
    optimizer_grouped_parameters param_optimizer =
      [mkGroup decayed F64.lit_0_01; mkGroup exempt F64.lit_0_0] /\
    forall n p, In (n, p) param_optimizer ->
      ((exists nd pre post,
          In nd ["bias"; "gamma"; "beta"]%string /\ n = (pre ++ nd ++ post)%string) ->
       In p exempt) /\
      (~ (exists nd pre post,
          In nd ["bias"; "gamma"; "beta"]%string /\ n = (pre ++ nd ++ post)%string) ->
       In p decayed).
Proof.
  eexists _, _. split; [reflexivity | ]. intros n p Hin.
  assert (Hsub : any_no_decay n = true <->
            exists nd pre post,
              In nd ["bias"; "gamma"; "beta"]%string /\ n = (pre ++ nd ++ post)%string).
  { unfold any_no_decay. rewrite existsb_exists. unfold no_decay. split.
    - intros (nd & Hnd & Hc). apply contains_substring in Hc.
      destruct Hc as (pre & post & E). exists nd, pre, post. split; assumption.
    - intros (nd & pre & post & Hnd & E). exists nd. split; [exact Hnd | ].
      apply contains_substring. exists pre, post. exact E. }
  split; intros H.
  - apply Hsub in H. apply in_map_iff. exists (n, p). split; [reflexivity | ].
    apply filter_In. split; [exact Hin | exact H].
  - apply in_map_iff. exists (n, p). split; [reflexivity | ].
    apply filter_In. split; [exact Hin | ]. cbn [fst].
    destruct (any_no_decay n) eqn:E; [ | reflexivity].
    exfalso. apply H. apply Hsub. reflexivity.
Qed.

(** ** The counters of the batch loop *)

Section TrackingFacts.

Variable Net : Type.
Variable zero_grad : Net -> Net.
Variable forward : Net -> list (list Z) -> list (list Z) -> list (list F32.float).
Variable backward : Net -> list F32.float -> Net.
Variable optimizer_step : Net -> Net.
Variable loss_func : nat -> list (list F32.float) -> list (list Z) -> F32.float.
Variable tensor_mean : list F32.float -> F32.float.
Variable n_gpu : Z.
Variable num_labels : nat.

Local Abbreviation step := (train_step Net zero_grad forward backward optimizer_step
                               loss_func tensor_mean n_gpu num_labels).

(** What the two counters hold when the batch loop ends. *)
Lemma batch_loop_counters (batches : list (list sample)) :
  forall (model model' : Net) (tk tk' : tracking),
    foldM step batches (model, tk) = Ok (model', tk') ->
    nb_tr_examples tk' = nb_tr_examples tk + Z.of_nat (length (concat batches)) /\
    nb_tr_steps tk' = nb_tr_steps tk + Z.of_nat (length batches).
Proof.
  induction batches as [ | batch rest IH]; intros model model' tk tk' H.
  - cbn [foldM] in H. injection H as _ <-. cbn [concat length]. lia.
  - cbn [foldM] in H.
    destruct (train_step_unfold Net zero_grad forward backward optimizer_step loss_func
                tensor_mean n_gpu num_labels model tk batch) as (y & _ & Hstep).
    rewrite Hstep in H.
    destruct (py_add (tr_loss tk) (PyFloat (F32.to_F64 y))) as [tr | e]; [ | discriminate].
    cbn [bind] in H. apply IH in H. cbn [nb_tr_examples nb_tr_steps] in H.
    destruct H as [H1 H2]. cbn [concat]. rewrite length_app.
    unfold unpack in H1. cbn [fst snd] in H1. rewrite length_map in H1.
    cbn [length]. unfold sample in *. lia.
Qed.

(** X11: over a non-empty training subset, with the calls on the network
    taken as returning, the batch loop of an epoch ends with
    [nb_tr_examples] the size of the training subset and [nb_tr_steps]
    ceil(size / 32), both counted from the zeros set when the epoch
    starts. *)
Theorem epoch_tracking_counters (model : Net) (order : list nat)
    (training_dataset : Subset sample) :
  Forall (fun i => (i < length (sub_dataset training_dataset))%nat)
         (sub_indices training_dataset) ->
  (1 <= subset_len training_dataset)%nat ->
  Permutation order (seq 0 (subset_len training_dataset)) ->
  exists batches model' tk,
    train_dataloader order training_dataset = Ok batches /\
    foldM step batches (model, mkTracking (PyInt 0) 0 0) = Ok (model', tk) /\
    nb_tr_examples tk = Z.of_nat (subset_len training_dataset) /\
    nb_tr_steps tk = Z.of_nat ((subset_len training_dataset + 31) / 32).
Proof.
  intros Ht Hpos Hord.
  assert (Hlo : length order = subset_len training_dataset).
  { rewrite (Permutation_length Hord). apply length_seq. }
  destruct (@DataLoader_sizes sample ([], [], []) order 32 training_dataset)
    as (tb & Htb & Hct & _ & _ & Hcat);
    [lia | apply permutation_of_range_bound; exact Hord | exact Ht | ].
  destruct (batch_loop_invariant Net zero_grad forward backward optimizer_step loss_func
              tensor_mean n_gpu num_labels tb model (mkTracking (PyInt 0) 0 0) (F64.of_Z 0)
              eq_refl) as (tr & examples & _ & _ & _ & _ & Hrun).
  destruct (batch_loop_counters tb _ _ _ _ Hrun) as [He Hs].
  cbn [nb_tr_examples nb_tr_steps] in He, Hs.
  eexists tb, _, _.
  split; [rewrite train_dataloader_nonempty by exact Hpos; exact Htb | ].
  split; [exact Hrun | ].
  cbn [nb_tr_examples nb_tr_steps]. split.
  - rewrite He, Hcat, length_map, Hlo. lia.
  - rewrite Hct, Hlo.
    replace (subset_len training_dataset + 32 - 1)%nat
      with (subset_len training_dataset + 31)%nat by lia.
    lia.
Qed.

End TrackingFacts.

Lemma epoch_tracking_counters_witness :
  exists batches model' tk,
    train_dataloader [1; 0; 2; 3]%nat example_training = Ok batches /\
    foldM stub_step batches (tt, mkTracking (PyInt 0) 0 0) = Ok (model', tk) /\
    nb_tr_examples tk = Z.of_nat (subset_len example_training) /\
    nb_tr_steps tk = Z.of_nat ((subset_len example_training + 31) / 32).
Proof.
  exact (epoch_tracking_counters unit stub_update stub_forward stub_backward stub_update
           stub_loss stub_mean 1 2 tt [1; 0; 2; 3]%nat example_training
           example_training_in_range example_training_nonempty example_order).
Defined.

(** ** [loss.item()]: the widening to float64 *)

(** A valid float32 mantissa has at most 24 digits, exactly 24 above the
    smallest exponent. *)
Lemma float32_bounded (m : positive) (e : Z) :
  bounded F32.prec F32.emax m e = true ->
  -149 <= e <= 104 /\ Zpos (digits2_pos m) <= 24 /\
  (-149 < e -> Zpos (digits2_pos m) = 24).
Proof.
  unfold bounded, canonical_mantissa, fexp, emin, F32.prec, F32.emax.
  intros H. apply andb_prop in H. destruct H as [Hc He].
  apply Z.eqb_eq in Hc. apply Z.leb_le in He. lia.
Qed.

Lemma binary_round_exact (s : bool) (m : positive) (e : Z) :
  Zpos (digits2_pos m) <= 53 ->
  -1074 <= Zpos (digits2_pos m) + e - 53 <= 971 ->
  exists m',
    binary_round F64.prec F64.emax s m e =
      S754_finite s m' (Zpos (digits2_pos m) + e - 53) /\
    Zpos (digits2_pos m') = 53 /\
    Zpos m' = Zpos m * 2 ^ (53 - Zpos (digits2_pos m)).
Proof.
  intros Hd He. unfold binary_round.
  pose proof (digits2_pos_bounds m) as Hp.
  set (d := Zpos (digits2_pos m)) in *.
  assert (Hd1 : 1 <= d) by (unfold d; lia).
  rewrite fexp_normal by lia. unfold shl_align.
  destruct (d + e - 53 - e) as [ | q | q] eqn:Eq; try lia.
  - assert (d = 53) by lia. exists m.
    replace (d + e - 53) with e by lia.
    split; [apply binary_round_aux_canonical; fold d; lia | ].
    split; [fold d; lia | ].
    replace (53 - d) with 0 by lia. change (2 ^ 0) with 1. lia.
  - assert (Hq : Zpos q = 53 - d) by lia.
    assert (Hm : Zpos (Pos.iter xO m q) = Zpos m * 2 ^ (53 - d))
      by (rewrite iter_xO, Hq; reflexivity).
    assert (Hdm : Zpos (digits2_pos (Pos.iter xO m q)) = 53).
    { apply digits_unique. rewrite Hm.
      replace (2 ^ (53 - 1)) with (2 ^ (d - 1) * 2 ^ (53 - d))
        by (rewrite <- Z.pow_add_r by lia; f_equal; lia).
      replace (2 ^ 53) with (2 ^ d * 2 ^ (53 - d))
        by (rewrite <- Z.pow_add_r by lia; f_equal; lia).
      assert (0 < 2 ^ (53 - d)) by (apply Z.pow_pos_nonneg; lia). nia. }
    exists (Pos.iter xO m q).
    split; [apply binary_round_aux_canonical; [exact Hdm | lia] | ].
    split; [exact Hdm | exact Hm].
Qed.

(** X12: [loss.item()] returns the float32 loss without rounding: the
    float64 it yields is a valid double with the sign and the exact value
    of the tensor element (zeros, infinities and NaN are passed on). *)
Theorem item_widening_exact (x : F32.float) :
  valid_binary F32.prec F32.emax x = true ->
  exists v,
    item [x] = Ok v /\
    valid_binary F64.prec F64.emax v = true /\
    match x with
    | S754_finite s m e =>
        exists m' e', v = S754_finite s m' e' /\
          Zpos m' * 2 ^ (e' + 201) = Zpos m * 2 ^ (e + 201)
    | _ => v = x
    end.
Proof.
  intros Hv. destruct x as [s | s | | s m e]; try (eexists; repeat split; reflexivity).
  cbn [valid_binary] in Hv. apply float32_bounded in Hv. destruct Hv as (He & Hd & _).
  pose proof (digits2_pos_bounds m) as Hm.
  set (d := Zpos (digits2_pos m)) in *.
  assert (Hd1 : 1 <= d) by (unfold d; lia).
  destruct (binary_round_exact s m e) as (m' & Hr & Hd' & Hm'); fold d; try lia.
  fold d in Hr, Hm'.
  exists (S754_finite s m' (d + e - 53)). split; [ | split].
  - cbn [item F32.to_F64]. unfold binary_normalize.
    destruct s; cbn [cond_Zopp Z.opp]; rewrite Hr; reflexivity.
  - cbn [valid_binary]. unfold bounded, canonical_mantissa.
    rewrite Hd', fexp_normal by lia.
    apply andb_true_intro. split; [apply Z.eqb_eq; lia | apply Z.leb_le].
    unfold F64.emax, F64.prec. lia.
  - exists m', (d + e - 53). split; [reflexivity | ].
    rewrite Hm', <- Z.mul_assoc, <- Z.pow_add_r by lia. f_equal. f_equal. lia.
Qed.

Lemma item_widening_exact_witness :
  exists v,
    item [S754_finite false 12582912 (-24)] = Ok v /\
    valid_binary F64.prec F64.emax v = true /\
    exists m' e', v = S754_finite false m' e' /\
      Zpos m' * 2 ^ (e' + 201) = 12582912 * 2 ^ (-24 + 201).
Proof.
  apply (item_widening_exact (S754_finite false 12582912 (-24))). reflexivity.
Defined.

(** ** The epochs in sequence *)

Section LoopFacts.

Variable Net : Type.
Variable zero_grad : Net -> Net.
Variable forward : Net -> list (list Z) -> list (list Z) -> list (list F32.float).
Variable backward : Net -> list F32.float -> Net.
Variable optimizer_step : Net -> Net.
Variable loss_func : nat -> list (list F32.float) -> list (list Z) -> F32.float.
Variable tensor_mean : list F32.float -> F32.float.
Variable n_gpu : Z.
Variable num_labels : nat.

Local Abbreviation loop_from := (train_loop_from Net zero_grad forward backward optimizer_step
                                   loss_func tensor_mean n_gpu num_labels).
Local Abbreviation loop := (train_loop Net zero_grad forward backward optimizer_step
                              loss_func tensor_mean n_gpu num_labels).
Local Abbreviation losses := (epoch_losses Net zero_grad forward backward optimizer_step
                                loss_func tensor_mean n_gpu num_labels).
Local Abbreviation model_after := (epoch_model Net zero_grad forward backward optimizer_step
                                     loss_func tensor_mean n_gpu num_labels).
Local Abbreviation mean_loss model batches :=
  (F64.div (fold_left F64.add (losses model batches) (F64.of_Z 0))
           (F64.of_Z (Z.of_nat (length batches)))).

(** One turn of the epoch loop. *)
Lemma train_loop_from_step (training_dataset : Subset sample) (orders : nat -> list nat) :
  Forall (fun i => (i < length (sub_dataset training_dataset))%nat)
         (sub_indices training_dataset) ->
  (1 <= subset_len training_dataset)%nat ->
  Z.of_nat (subset_len training_dataset) < 2 ^ 63 ->
  (forall k, Permutation (orders k) (seq 0 (subset_len training_dataset))) ->
  forall (todo k : nat) (model : Net),
    exists batches,
      train_dataloader (orders k) training_dataset = Ok batches /\
      loop_from k (S todo) model training_dataset orders =
        ('(model', reports) <-
           loop_from (S k) todo (model_after model batches) training_dataset orders ;;
         Ok (model', mean_loss model batches :: reports)).
Proof.
  intros Hidx Hpos Hsmall Hord todo k model.
  destruct (train_dataloader_ok (orders k) training_dataset Hidx (Hord k) Hpos)
    as (batches & Hload & Hle & Hne).
  destruct (train_epoch_closed Net zero_grad forward backward optimizer_step
              loss_func tensor_mean n_gpu num_labels model batches Hne)
    as (_ & _ & Hrun); [lia | ].
  exists batches. split; [exact Hload | ].
  cbn [train_loop_from]. rewrite Hload. cbn [bind]. rewrite Hrun. reflexivity.
Qed.

(** X13: over a non-empty training subset the loop runs its four epochs
    one after the other: each epoch starts from the network the epoch
    before left, iterates the loader afresh, and reports the mean of its
    own losses only; the reports come in epoch order. *)
Theorem train_loop_epochs (model : Net) (training_dataset : Subset sample)
    (orders : nat -> list nat) :
  Forall (fun i => (i < length (sub_dataset training_dataset))%nat)
         (sub_indices training_dataset) ->
  (1 <= subset_len training_dataset)%nat ->
  Z.of_nat (subset_len training_dataset) < 2 ^ 63 ->
  (forall k, Permutation (orders k) (seq 0 (subset_len training_dataset))) ->
  exists b0 b1 b2 b3,
    train_dataloader (orders 0%nat) training_dataset = Ok b0 /\
    train_dataloader (orders 1%nat) training_dataset = Ok b1 /\
    train_dataloader (orders 2%nat) training_dataset = Ok b2 /\
    train_dataloader (orders 3%nat) training_dataset = Ok b3 /\
    let m1 := model_after model b0 in
    let m2 := model_after m1 b1 in
    let m3 := model_after m2 b2 in
    loop model training_dataset orders =
      Ok (model_after m3 b3,
          [mean_loss model b0; mean_loss m1 b1; mean_loss m2 b2; mean_loss m3 b3]).
Proof.
  intros Hidx Hpos Hsmall Hord.
  destruct (train_loop_from_step training_dataset orders Hidx Hpos Hsmall Hord 3 0 model)
    as (b0 & L0 & S0).
  destruct (train_loop_from_step training_dataset orders Hidx Hpos Hsmall Hord 2 1
              (model_after model b0)) as (b1 & L1 & S1).
  destruct (train_loop_from_step training_dataset orders Hidx Hpos Hsmall Hord 1 2
              (model_after (model_after model b0) b1)) as (b2 & L2 & S2).
  destruct (train_loop_from_step training_dataset orders Hidx Hpos Hsmall Hord 0 3
              (model_after (model_after (model_after model b0) b1) b2)) as (b3 & L3 & S3).
  exists b0, b1, b2, b3. repeat (split; [assumption | ]).
  cbv zeta. unfold train_loop, epochs. rewrite S0, S1, S2, S3. reflexivity.
Qed.

End LoopFacts.

Lemma train_loop_epochs_witness :
  exists b0 b1 b2 b3,
    train_dataloader [1; 0; 2; 3]%nat example_training = Ok b0 /\
    train_dataloader [1; 0; 2; 3]%nat example_training = Ok b1 /\
    train_dataloader [1; 0; 2; 3]%nat example_training = Ok b2 /\
    train_dataloader [1; 0; 2; 3]%nat example_training = Ok b3 /\
    let m1 := stub_model_after tt b0 in
    let m2 := stub_model_after m1 b1 in
    let m3 := stub_model_after m2 b2 in
    stub_loop tt example_training (fun _ => [1; 0; 2; 3]%nat) =
      Ok (stub_model_after m3 b3,
          [F64.div (fold_left F64.add (stub_losses tt b0) (F64.of_Z 0))
                   (F64.of_Z (Z.of_nat (length b0)));
           F64.div (fold_left F64.add (stub_losses m1 b1) (F64.of_Z 0))
                   (F64.of_Z (Z.of_nat (length b1)));
           F64.div (fold_left F64.add (stub_losses m2 b2) (F64.of_Z 0))
                   (F64.of_Z (Z.of_nat (length b2)));
           F64.div (fold_left F64.add (stub_losses m3 b3) (F64.of_Z 0))
                   (F64.of_Z (Z.of_nat (length b3)))]).
Proof.
  apply (train_loop_epochs unit stub_update stub_forward stub_backward stub_update
           stub_loss stub_mean 1 2 tt example_training (fun _ => [1; 0; 2; 3]%nat)).
  - exact example_training_in_range.
  - cbn [example_training subset_len sub_indices length]. lia.
  - vm_compute. reflexivity.
  - intros _. exact example_order.
Defined.

(** ** The threshold comparison on float32 values *)

(** X14: [pl > threshold] is the exact strict comparison with one half: on
    every float32 value it is true for plus infinity and for the positive
    finite values above 1/2, and false otherwise: for 1/2 itself, for
    zeros, negative values and NaN. *)
Theorem threshold_comparison_exact (p : F32.float) :
  valid_binary F32.prec F32.emax p = true ->
  (greater_than_threshold p = true <->
   match p with
   | S754_finite false m e => 2 ^ 148 < Zpos m * 2 ^ (e + 149)
   | S754_infinity false => True
   | _ => False
   end).
Proof.
  intros Hv. unfold greater_than_threshold. rewrite threshold_float32.
  unfold F32.ltb, SFltb, SFcompare.
  destruct p as [s | s | | s m e].
  - destruct s; split; try discriminate; contradiction.
  - destruct s; split; try discriminate; try contradiction; reflexivity.
  - split; [discriminate | contradiction].
  - destruct s; [split; [discriminate | contradiction] | ].
    cbn [valid_binary] in Hv. apply float32_bounded in Hv.
    destruct Hv as (He & Hd & Hn).
    pose proof (digits2_pos_bounds m) as Hm.
    set (d := Zpos (digits2_pos m)) in *.
    assert (Hd1 : 1 <= d) by (unfold d; lia).
    destruct (Z.compare_spec (-24) e) as [Heq | Hlt | Hgt].
    + subst e. change (2 ^ (-24 + 149)) with (2 ^ 125).
      change (Pos.compare_cont Eq 8388608 m) with (Pos.compare 8388608 m).
      destruct (Pos.compare_spec 8388608 m) as [E | E | E].
      * subst m. split; [discriminate | ]. vm_compute. discriminate.
      * split; [intros _ | reflexivity].
        let v := eval vm_compute in (2 ^ 125) in change (2 ^ 125) with v.
        let v := eval vm_compute in (2 ^ 148) in change (2 ^ 148) with v.
        lia.
      * split; [discriminate | ].
        let v := eval vm_compute in (2 ^ 125) in change (2 ^ 125) with v.
        let v := eval vm_compute in (2 ^ 148) in change (2 ^ 148) with v.
        lia.
    + split; [intros _ | reflexivity].
      rewrite (Hn ltac:(lia)) in Hm.
      assert (HT : 2 ^ 126 <= 2 ^ (e + 149)) by (apply Z.pow_le_mono_r; lia).
      set (T := 2 ^ (e + 149)) in *. clearbody T.
      change (2 ^ (24 - 1)) with 8388608 in Hm.
      let v := eval vm_compute in (2 ^ 126) in change (2 ^ 126) with v in HT.
      let v := eval vm_compute in (2 ^ 148) in change (2 ^ 148) with v.
      nia.
    + split; [discriminate | intros H; exfalso].
      assert (HT : 2 ^ (e + 149) <= 2 ^ 124) by (apply Z.pow_le_mono_r; lia).
      assert (HT0 : 0 < 2 ^ (e + 149)) by (apply Z.pow_pos_nonneg; lia).
      assert (HD : 2 ^ d <= 2 ^ 24) by (apply Z.pow_le_mono_r; lia).
      set (T := 2 ^ (e + 149)) in *. clearbody T.
      set (D := 2 ^ d) in *. clearbody D.
      change (2 ^ 24) with 16777216 in HD.
      let v := eval vm_compute in (2 ^ 124) in change (2 ^ 124) with v in HT.
      let v := eval vm_compute in (2 ^ 148) in change (2 ^ 148) with v in H.
      nia.
Qed.

Lemma threshold_comparison_exact_witness :
  greater_than_threshold (S754_finite false 12582912 (-24)) = true <->
  2 ^ 148 < 12582912 * 2 ^ (-24 + 149).
Proof.
  apply (threshold_comparison_exact (S754_finite false 12582912 (-24))). reflexivity.
Defined.
